(** * The layering engine of containerd-attributes-client

    A shallow embedding of package [aritfact] (src/aritfact/applier.go,
    artifact.go and image.go): the Diff Applier, the Chain Builder and the
    Image Unpack Driver, with the properties the design document states
    about them.

    Everything the package imports (the snapshotter, the content store, the
    oras file store, temporary mounts, the clock) is an interface here: a
    record of operations on an abstract world [W].  A call may change the
    world and may fail, as any Go call through an interface may. *)

From Stdlib Require Import String Ascii List Bool ZArith.
From Stdlib Require Import DecimalString.
Import ListNotations.
Local Open Scope string_scope.
Local Open Scope list_scope.

Set Implicit Arguments.

(** ** Go strings *)

Module strings.

(** [strings.HasPrefix(s, prefix)] *)
Definition HasPrefix (s prefix : string) : bool := String.prefix prefix s.

(** [strings.TrimPrefix(s, prefix)]: [s] without the leading [prefix], or
    [s] itself when it does not start with it. *)
Definition TrimPrefix (s prefix : string) : string :=
  if HasPrefix s prefix
  then substring (String.length prefix) (String.length s - String.length prefix) s
  else s.

(** [strings.HasSuffix(s, suffix)] *)
Definition HasSuffix (s suffix : string) : bool :=
  (String.length suffix <=? String.length s)%nat &&
  String.eqb (substring (String.length s - String.length suffix)
                        (String.length suffix) s) suffix.

(** [strings.TrimSuffix(s, suffix)] *)
Definition TrimSuffix (s suffix : string) : string :=
  if HasSuffix s suffix
  then substring 0 (String.length s - String.length suffix) s
  else s.

(** [strings.Split(s, sep)] for a separator of one character, which is
    what both call sites pass (the constant ":").  The result is never
    empty: splitting the empty string gives one empty field. *)
Fixpoint Split (s : string) (sep : ascii) : list string :=
  match s with
  | EmptyString => [EmptyString]
  | String c rest =>
      if Ascii.eqb c sep then EmptyString :: Split rest sep
      else match Split rest sep with
           | [] => [String c EmptyString]
           | field :: fields => String c field :: fields
           end
  end.

End strings.

(** ** Errors

    Go errors form a chain: [fmt.Errorf] with a [%w] verb wraps an error,
    and [errors.Is] walks the chain looking for a sentinel.  The three
    sentinels of package [errdefs] that the code tests for are kept apart;
    every other error value is opaque. *)

Module errdefs.

Inductive sentinel : Type :=
| ErrNotFound
| ErrAlreadyExists
| ErrInvalidArgument.

Definition sentinel_eqb (a b : sentinel) : bool :=
  match a, b with
  | ErrNotFound, ErrNotFound => true
  | ErrAlreadyExists, ErrAlreadyExists => true
  | ErrInvalidArgument, ErrInvalidArgument => true
  | _, _ => false
  end.

(** [Errorf] is [fmt.Errorf] with a format that has no [%w] verb (the
    result wraps nothing); [Wrapf] is [fmt.Errorf] whose last verb is [%w]
    and whose last argument is [wrapped].  [args] are the arguments of the
    other verbs, in order. *)
Inductive error : Type :=
| Sentinel (s : sentinel)
| Opaque (msg : string)
| Errorf (format : string) (args : list string)
| Wrapf (format : string) (args : list string) (wrapped : error).

(** [errors.Is(err, target)] for a sentinel target. *)
Fixpoint Is (err : error) (target : sentinel) : bool :=
  match err with
  | Sentinel s => sentinel_eqb s target
  | Opaque _ => false
  | Errorf _ _ => false
  | Wrapf _ _ inner => Is inner target
  end.

Definition IsNotFound (err : error) : bool := Is err ErrNotFound.
Definition IsAlreadyExists (err : error) : bool := Is err ErrAlreadyExists.
Definition IsInvalidArgument (err : error) : bool := Is err ErrInvalidArgument.

End errdefs.
Export errdefs.

(** A Go result pair [(value, err)] with [err != nil] exactly in [Err]. *)
Inductive result (A : Type) : Type :=
| Ok (a : A)
| Err (e : error).
Arguments Ok {A} a.
Arguments Err {A} e.

(** ** Descriptors, artifacts and mounts *)

Module digest.
(** [digest.Digest] is a Go string. *)
Definition Digest : Type := string.
End digest.

Module ocispec.

(** [ocispec.Descriptor], with the fields this package reads or writes. *)
Record Descriptor : Type := mkDescriptor {
  MediaType : string;
  Digest : digest.Digest;
  Size : Z;
  Annotations : list (string * string)
}.

Definition MediaTypeImageLayer : string :=
  "application/vnd.oci.image.layer.v1.tar".

(** [ocispec.Manifest], with the fields this package reads. *)
Record Manifest : Type := mkManifest {
  Config : Descriptor;
  Layers : list Descriptor
}.

End ocispec.
Import ocispec.

Module mount.
(** [mount.Mount] *)
Record Mount : Type := mkMount {
  Type_ : string;
  Source : string;
  Options : list string
}.
End mount.
Import mount.

(** artifact.go:20 *)
Record Artifact : Type := mkArtifact { Blob : Descriptor }.

(** applier.go:25 *)
Definition emptyDesc : Descriptor := mkDescriptor "" "" 0 [].

(** ** Mount option grammars (applier.go:110-165) *)

(** The loop body of [getOverlayPath]: a later option overwrites what an
    earlier one set. *)
Definition overlayStep (acc : string * list string) (o : string)
  : string * list string :=
  let '(upper, lower) := acc in
  if strings.HasPrefix o "upperdir=" then
    (strings.TrimPrefix o "upperdir=", lower)
  else if strings.HasPrefix o "lowerdir=" then
    (upper, strings.Split (strings.TrimPrefix o "lowerdir=") ":"%char)
  else (upper, lower).

Definition getOverlayPath (options : list string) : result (string * list string) :=
  let '(upper, lower) := fold_left overlayStep options ("", []) in
  if String.eqb upper "" then
    Err (Wrapf "upperdir not found: %w" [] (Sentinel ErrInvalidArgument))
  else Ok (upper, lower).

(** The inner loop of [getAufsPath], over the branches of one "br:" option. *)
Fixpoint aufsBranches (bs : list string) (upper : string) (lower : list string)
  : result (string * list string) :=
  match bs with
  | [] => Ok (upper, lower)
  | b :: rest =>
      if strings.HasSuffix b "=rw" then
        if negb (String.eqb upper "") then
          Err (Wrapf "multiple rw branch found: %w" [] (Sentinel ErrInvalidArgument))
        else aufsBranches rest (strings.TrimSuffix b "=rw") lower
      else if strings.HasSuffix b "=ro+wh" then
        if String.eqb upper "" then
          Err (Wrapf "rw branch be first: %w" [] (Sentinel ErrInvalidArgument))
        else aufsBranches rest upper (lower ++ [strings.TrimSuffix b "=ro+wh"])
      else
        Err (Wrapf "unhandled aufs suffix: %w" [] (Sentinel ErrInvalidArgument))
  end.

(** The outer loop of [getAufsPath]: options without the "br:" prefix are
    skipped. *)
Fixpoint aufsOptions (options : list string) (upper : string) (lower : list string)
  : result (string * list string) :=
  match options with
  | [] => Ok (upper, lower)
  | o :: rest =>
      if strings.HasPrefix o "br:" then
        match aufsBranches (strings.Split (strings.TrimPrefix o "br:") ":"%char)
                           upper lower with
        | Err e => Err e
        | Ok (upper', lower') => aufsOptions rest upper' lower'
        end
      else aufsOptions rest upper lower
  end.

Definition getAufsPath (options : list string) : result (string * list string) :=
  match aufsOptions options "" [] with
  | Err e => Err e
  | Ok (upper, lower) =>
      if String.eqb upper "" then
        Err (Wrapf "rw branch not found: %w" [] (Sentinel ErrInvalidArgument))
      else Ok (upper, lower)
  end.

(** ** The Diff Applier (applier.go:21-108) *)

Module diff.
(** [diff.ApplyConfig] is never read by this package; an [ApplyOpt] is a
    function that updates it or fails. *)
Definition ApplyConfig : Type := list (string * string).
Definition ApplyOpt : Type := Descriptor -> ApplyConfig -> result ApplyConfig.
End diff.

(** What [artifactApplier] consumes: the content source behind
    [a.store.Fetch] with the reader it hands out, the oras file store, the
    temporary mount of package [mount], and the user-namespace probe. *)
Record ApplierHost (W Reader : Type) : Type := mkApplierHost {
  (** [a.store.Fetch(ctx, desc)] *)
  Fetch : Descriptor -> W -> result Reader * W;
  (** [rc.Close()] *)
  Close : Reader -> W -> W;
  (** [io.Copy(io.Discard, rc)]: reads the stream to its end. *)
  CopyDiscard : Reader -> W -> option error * W;
  (** [file.New(path).Push(ctx, desc, r)] *)
  Push : string -> Descriptor -> Reader -> W -> option error * W;
  (** [mount.WithTempMount(ctx, mounts, f)] *)
  WithTempMount : list Mount -> (string -> W -> option error * W) -> W -> option error * W;
  (** [userns.RunningInUserNS()] *)
  RunningInUserNS : bool
}.

Section DiffApplier.

Context {W Reader : Type}.
Variable host : ApplierHost W Reader.

(** The last statement of [apply]: the generic path. *)
Definition applyTempMount (mounts : list Mount) (desc : Descriptor) (r : Reader)
  : W -> option error * W :=
  WithTempMount host mounts (fun root => Push host root desc r).

(** applier.go:72 *)
Definition apply (mounts : list Mount) (desc : Descriptor) (r : Reader)
  : W -> option error * W :=
  match mounts with
  | [m] =>
      if String.eqb (Type_ m) "overlay" then
        if RunningInUserNS host then applyTempMount mounts desc r
        else match getOverlayPath (Options m) with
             | Err err =>
                 if IsInvalidArgument err then applyTempMount mounts desc r
                 else fun w => (Some err, w)
             | Ok (path, _) => Push host path desc r
             end
      else if String.eqb (Type_ m) "aufs" then
        match getAufsPath (Options m) with
        | Err err =>
            if IsInvalidArgument err then applyTempMount mounts desc r
            else fun w => (Some err, w)
        | Ok (path, _) => Push host path desc r
        end
      else applyTempMount mounts desc r
  | _ => applyTempMount mounts desc r
  end.

(** The option loop at the head of [Apply]. *)
Fixpoint applyConfigOpts (opts : list diff.ApplyOpt) (desc : Descriptor)
           (config : diff.ApplyConfig) : result diff.ApplyConfig :=
  match opts with
  | [] => Ok config
  | o :: rest =>
      match o desc config with
      | Err err => Err (Wrapf "failed to apply config opt: %w" [] err)
      | Ok config' => applyConfigOpts rest desc config'
      end
  end.

(** applier.go:30.  The deferred [rc.Close()] runs on every path that
    follows a successful fetch. *)
Definition Apply (desc : Descriptor) (mounts : list Mount) (opts : list diff.ApplyOpt)
  : W -> result Descriptor * W :=
  fun w =>
    match applyConfigOpts opts desc [] with
    | Err err => (Err err, w)
    | Ok _ =>
        match Fetch host desc w with
        | (Err err, w1) => (Err err, w1)
        | (Ok rc, w1) =>
            match apply mounts desc rc w1 with
            | (Some err, w2) => (Err err, Close host rc w2)
            | (None, w2) =>
                match CopyDiscard host rc w2 with
                | (Some err, w3) => (Err err, Close host rc w3)
                | (None, w3) =>
                    (Ok (mkDescriptor MediaTypeImageLayer (Digest desc) (Size desc) []),
                     Close host rc w3)
                end
            end
        end
    end.

End DiffApplier.

(** ** Chain IDs

    [identity.ChainID] belongs to the image-spec library and is not part of
    this repository. *)

Module identity.

Section ChainID.

(** [digest.FromBytes]: the canonical hash of a byte string, as a digest
    string. *)
Variable FromBytes : string -> digest.Digest.

(** The tail of the fold: [acc] is the chain ID of the layers consumed
    so far. *)
Fixpoint chainFrom (acc : digest.Digest) (rest : list digest.Digest)
  : digest.Digest :=
  match rest with
  | [] => acc
  | d :: rest' => chainFrom (FromBytes (acc ++ " " ++ d)%string) rest'
  end.

(** Modelled from the spec: [identity.ChainID] is imported, its code is
    not under src/.  Section 3 of the design gives it as a Merkle-style
    fold over the ordered layer digests: the chain ID of [[]] is a
    defined sentinel and the chain ID of [[d0..dn]] is the hash of the
    chain ID of [[d0..dn-1]] followed by [dn].  As in the library the
    package links against, the sentinel is the empty digest, the chain
    ID of a one-layer chain is that layer's digest, and parent and
    digest are joined by one space before hashing. *)
Definition ChainID (dgsts : list digest.Digest) : digest.Digest :=
  match dgsts with
  | [] => ""
  | d0 :: rest => chainFrom d0 rest
  end.

(** One step of the fold, from the parent's chain ID and the next layer
    digest. *)
Definition chainStep (parent d : digest.Digest) : digest.Digest :=
  if String.eqb parent "" then d else FromBytes (parent ++ " " ++ d)%string.

End ChainID.

End identity.

(** ** The interfaces the Chain Builder consumes *)

Module snapshots.

(** [snapshots.UnpackKeyFormat] is "extract-%s %s". *)
Definition UnpackKey (unique chainID : string) : string :=
  ("extract-" ++ unique ++ " " ++ chainID)%string.

(** [snapshots.Snapshotter], with the four methods the package calls.
    [Stat] returns an [Info] too, which every caller discards. *)
Record Snapshotter (W Opt : Type) : Type := mkSnapshotter {
  Stat : string -> W -> option error * W;
  Prepare : string -> string -> list Opt -> W -> result (list Mount) * W;
  Commit : string -> string -> list Opt -> W -> option error * W;
  Remove : string -> W -> option error * W
}.

End snapshots.
Import snapshots.

(** [diff.Applier] *)
Definition Applier (W : Type) : Type :=
  Descriptor -> list Mount -> list diff.ApplyOpt -> W -> result Descriptor * W.

(** What [uniquePart] reads: the clock, the random source, and the URL-safe
    base64 encoder. *)
Record Entropy (W : Type) : Type := mkEntropy {
  (** [time.Now().Nanosecond()] *)
  Nanosecond : W -> Z * W;
  (** [rand.Read(b[:])] on a buffer of [n] bytes: the buffer afterwards
      (a read failure is ignored by the caller). *)
  RandRead : nat -> W -> list Byte.byte * W;
  (** [base64.URLEncoding.EncodeToString] *)
  EncodeToString : list Byte.byte -> string
}.

(** ** Calls, as the outside world sees them *)

Module content.
(** [content.Info], with the fields [Unpack] sets. *)
Record Info : Type := mkInfo {
  Digest : digest.Digest;
  Labels : list (string * string)
}.
End content.

Inductive event : Type :=
| EvStat (key : string) (err : option error)
| EvPrepare (key parent : string) (r : result (list Mount))
| EvApply (desc : Descriptor) (mounts : list Mount) (r : result Descriptor)
| EvCommit (name key : string) (err : option error)
| EvRemove (key : string) (err : option error)
| EvGetLabel (label : string) (r : result string)
| EvManifest (r : result Manifest)
| EvLease (err : option error)
| EvLeaseDone
| EvSupport (err : option error)
| EvConfig (r : result Descriptor)
| EvUpdate (info : content.Info) (fieldpath : string) (err : option error).



Definition isCommit (ev : event) : bool :=
  match ev with EvCommit _ _ _ => true | _ => false end.

Definition isPrepare (ev : event) : bool :=
  match ev with EvPrepare _ _ _ => true | _ => false end.

Definition isApply (ev : event) : bool :=
  match ev with EvApply _ _ _ => true | _ => false end.

(** ** The monad of the Chain Builder

    A computation threads the world and the log of the calls made so far; it
    ends with a value, with a Go run-time panic, or it is cut off when the
    fuel that bounds its loops runs out. *)

Inductive outcome (A : Type) : Type :=
| Done (a : A)
| Panic (msg : string)
| OutOfFuel.
Arguments Done {A} a.
Arguments Panic {A} msg.
Arguments OutOfFuel {A}.

Record state (W : Type) : Type := mkState {
  world : W;
  log : list event
}.

Definition M (W A : Type) : Type := state W -> outcome A * state W.

Definition ret {W A : Type} (a : A) : M W A := fun s => (Done a, s).

Definition bind {W A B : Type} (c : M W A) (k : A -> M W B) : M W B :=
  fun s =>
    match c s with
    | (Done a, s') => k a s'
    | (Panic msg, s') => (Panic msg, s')
    | (OutOfFuel, s') => (OutOfFuel, s')
    end.

Definition panic {W A : Type} (msg : string) : M W A := fun s => (Panic msg, s).

Definition outOfFuel {W A : Type} : M W A := fun s => (OutOfFuel, s).

(** A call through an interface: the world moves, the call and its answer
    are appended to the log. *)
Definition call {W A : Type} (f : W -> A * W) (ev : A -> event) : M W A :=
  fun s =>
    let '(a, w') := f (world s) in
    (Done a, mkState w' (log s ++ [ev a])).

(** A call that is not traced (the clock, the random source). *)
Definition quiet {W A : Type} (f : W -> A * W) : M W A :=
  fun s =>
    let '(a, w') := f (world s) in
    (Done a, mkState w' (log s)).

Declare Scope builder_scope.
Delimit Scope builder_scope with builder.
Notation "x <- c ;; k" := (bind c (fun x => k))
  (at level 100, c at next level, right associativity) : builder_scope.
Notation "c ;;; k" := (bind c (fun _ => k))
  (at level 100, right associativity) : builder_scope.
Local Open Scope builder_scope.

(** ** The Chain Builder (artifact.go) *)

Section ChainBuilder.

Context {W Opt : Type}.

(** [identity.ChainID] *)
Variable ChainID : list digest.Digest -> digest.Digest.
Variable sn : Snapshotter W Opt.
Variable a : Applier W.
Variable entropy : Entropy W.

(** The traced calls. *)
Definition snStat (key : string) : M W (option error) :=
  call (Stat sn key) (EvStat key).

Definition snPrepare (key parent : string) (opts : list Opt)
  : M W (result (list Mount)) :=
  call (Prepare sn key parent opts) (EvPrepare key parent).

Definition snCommit (name key : string) (opts : list Opt) : M W (option error) :=
  call (Commit sn name key opts) (EvCommit name key).

Definition snRemove (key : string) : M W (option error) :=
  call (Remove sn key) (EvRemove key).

Definition aApply (desc : Descriptor) (mounts : list Mount)
           (applyOpts : list diff.ApplyOpt) : M W (result Descriptor) :=
  call (a desc mounts applyOpts) (EvApply desc mounts).

(** artifact.go:146: "%d-%s" of the nanosecond and three random bytes. *)
Definition uniquePart : M W string :=
  t <- quiet (Nanosecond entropy) ;;
  b <- quiet (RandRead entropy 3) ;;
  ret (NilZero.string_of_int (Z.to_int t) ++ "-" ++ EncodeToString entropy b)%string.

(** How the [for] loop of [applyArtifacts] is left: by [break], with the
    key and mounts of the view just prepared, or by [return]. *)
Inductive loopExit : Type :=
| Break (key : string) (mounts : list Mount)
| Return (err : error).

(** artifact.go:90-115.  [recur] is [applyArtifacts] itself; [artifacts]
    is the loop's variable, set to nil once the ancestors were built. *)
Fixpoint prepareLoop
           (recur : list Artifact -> list digest.Digest -> M W (option error))
           (fuel : nat) (artifacts : list Artifact) (chain : list digest.Digest)
           (parent chainID : digest.Digest) (opts : list Opt) : M W loopExit :=
  match fuel with
  | O => outOfFuel
  | S fuel' =>
      u <- uniquePart ;;
      let key := UnpackKey u chainID in
      r <- snPrepare key parent opts ;;
      match r with
      | Ok mounts => ret (Break key mounts)
      | Err err =>
          if IsNotFound err && (1 <? List.length artifacts)%nat then
            e <- recur (removelast artifacts) (removelast chain) ;;
            match e with
            | Some err' =>
                if negb (IsAlreadyExists err') then ret (Return err')
                else prepareLoop recur fuel' [] chain parent chainID opts
            | None => prepareLoop recur fuel' [] chain parent chainID opts
            end
          else if IsAlreadyExists err then
            prepareLoop recur fuel' artifacts chain parent chainID opts
          else
            ret (Return (Wrapf "failed to prepare extraction snapshot %q: %w"
                               [key] err))
      end
  end.

(** artifact.go:128-143, the statements between the [defer] and the end:
    the value of [err] at the [return]. *)
Definition extractBody (artifact : Artifact) (chainID : digest.Digest)
           (key : string) (mounts : list Mount) (opts : list Opt)
           (applyOpts : list diff.ApplyOpt) : M W (option error) :=
  r <- aApply (Blob artifact) mounts applyOpts ;;
  match r with
  | Err err =>
      ret (Some (Wrapf "failed to extract layer %s: %w" [Digest (Blob artifact)] err))
  | Ok diff =>
      if negb (String.eqb (Digest diff) (Digest (Blob artifact))) then
        ret (Some (Errorf "wrong diff id calculated on extraction %q" [Digest diff]))
      else
        c <- snCommit chainID key opts ;;
        match c with
        | Some err => ret (Some (Wrapf "failed to commit snapshot %s: %w" [key] err))
        | None => ret None
        end
  end.

(** artifact.go:116-126, the deferred function: when [err] is set the
    view is removed; what [Remove] answers is logged and dropped. *)
Definition deferredCleanup (key : string) (err : option error) : M W unit :=
  match err with
  | Some _ => snRemove key ;;; ret tt
  | None => ret tt
  end.

(** artifact.go:116-143 *)
Definition extractAndCommit (artifact : Artifact) (chainID : digest.Digest)
           (key : string) (mounts : list Mount) (opts : list Opt)
           (applyOpts : list diff.ApplyOpt) : M W (option error) :=
  err <- extractBody artifact chainID key mounts opts applyOpts ;;
  deferredCleanup key err ;;;
  ret err.

(** artifact.go:79.  Slicing [chain[:len(chain)-1]] panics on an empty
    chain, indexing [artifacts[len(artifacts)-1]] on an empty list. *)
Fixpoint applyArtifacts (fuel : nat) (artifacts : list Artifact)
           (chain : list digest.Digest) (opts : list Opt)
           (applyOpts : list diff.ApplyOpt) : M W (option error) :=
  match fuel with
  | O => outOfFuel
  | S fuel' =>
      match chain, artifacts with
      | [], _ => panic "slice bounds out of range [:-1]"
      | _ :: _, [] => panic "index out of range [-1]"
      | _ :: _, a0 :: rest =>
          let parent := ChainID (removelast chain) in
          let chainID := ChainID chain in
          let artifact := last rest a0 in
          x <- prepareLoop (fun arts ch => applyArtifacts fuel' arts ch opts applyOpts)
                           fuel' artifacts chain parent chainID opts ;;
          match x with
          | Return err => ret (Some err)
          | Break key mounts =>
              extractAndCommit artifact chainID key mounts opts applyOpts
          end
      end
  end.

(** artifact.go:28 *)
Definition ApplyArtifactsWithOpts (fuel : nat) (artifacts : list Artifact)
           (applyOpts : list diff.ApplyOpt) : M W (result digest.Digest) :=
  let chain := map (fun artifact => Digest (Blob artifact)) artifacts in
  let chainID := ChainID chain in
  e <- snStat chainID ;;
  match e with
  | Some err =>
      if negb (IsNotFound err) then
        ret (Err (Wrapf "failed to stat snapshot %s: %w" [chainID] err))
      else
        r <- applyArtifacts fuel artifacts chain [] applyOpts ;;
        match r with
        | Some err' =>
            if negb (IsAlreadyExists err') then ret (Err err') else ret (Ok chainID)
        | None => ret (Ok chainID)
        end
  | None => ret (Ok chainID)
  end.

(** artifact.go:24 *)
Definition ApplyArtifacts (fuel : nat) (layers : list Artifact)
  : M W (result digest.Digest) :=
  ApplyArtifactsWithOpts fuel layers [].

(** artifact.go:56.  The Go pair [(applied, err)]. *)
Definition ApplyArtifactWithOpts (fuel : nat) (artifact : Artifact)
           (chain : list digest.Digest) (opts : list Opt)
           (applyOpts : list diff.ApplyOpt) : M W (bool * option error) :=
  let chainID := ChainID (chain ++ [Digest (Blob artifact)]) in
  e <- snStat chainID ;;
  match e with
  | Some err =>
      if negb (IsNotFound err) then
        ret (false, Some (Wrapf "failed to stat snapshot %s: %w" [chainID] err))
      else
        r <- applyArtifacts fuel [artifact] (chain ++ [Digest (Blob artifact)])
                            opts applyOpts ;;
        match r with
        | Some err' =>
            if negb (IsAlreadyExists err') then ret (false, Some err')
            else ret (false, None)
        | None => ret (true, None)
        end
  | None => ret (false, None)
  end.

(** artifact.go:52 *)
Definition ApplyArtifact (fuel : nat) (layer : Artifact)
           (chain : list digest.Digest) (opts : list Opt)
  : M W (bool * option error) :=
  ApplyArtifactWithOpts fuel layer chain opts [].

End ChainBuilder.

(** ** The Image Unpack Driver (image.go) *)

Module containerd.

(** [defaults.DefaultSnapshotterNSLabel] *)
Definition DefaultSnapshotterNSLabel : string := "containerd.io/defaults/snapshotter".

(** [containerd.DefaultSnapshotter] (Linux) *)
Definition DefaultSnapshotter : string := "overlayfs".

(** [containerd.UnpackConfig] and [containerd.UnpackOpt] *)
Record UnpackConfig (Opt : Type) : Type := mkUnpackConfig {
  ApplyOpts : list diff.ApplyOpt;
  SnapshotOpts : list Opt;
  CheckPlatformSupported : bool
}.

Definition UnpackOpt (Opt : Type) : Type :=
  UnpackConfig Opt -> result (UnpackConfig Opt).

(** What an [image] reaches through its [*containerd.Client] and its
    metadata: leases, namespace labels, snapshot services by name, the
    manifest and config of the image for its platform, label updates of
    the content store, and the platform check of a snapshotter. *)
Record Client (W Opt : Type) : Type := mkClient {
  (** [client.WithLease(ctx)] and the [done] it returns *)
  WithLease : W -> option error * W;
  LeaseDone : W -> W;
  (** [client.GetLabel(ctx, label)] *)
  GetLabel : string -> W -> result string * W;
  (** [client.SnapshotService(name)]; [None] is the nil service *)
  SnapshotService : string -> option (Snapshotter W Opt);
  (** [images.Manifest(ctx, cs, i.i.Target, i.platform)] *)
  ImagesManifest : W -> result Manifest * W;
  (** [i.i.Config(ctx, cs, i.platform)] *)
  ImageConfig : W -> result Descriptor * W;
  (** [cs.Update(ctx, info, fieldpath)] *)
  Update : content.Info -> string -> W -> option error * W;
  (** [i.checkSnapshotterSupport(ctx, snapshotterName, manifest)] *)
  CheckSnapshotterSupport : string -> Manifest -> W -> option error * W
}.

End containerd.
Import containerd.

Section Image.

Context {W Opt Reader : Type}.

Variable ChainID : list digest.Digest -> digest.Digest.
Variable client : Client W Opt.
Variable host : ApplierHost W Reader.
Variable entropy : Entropy W.

(** image.go:377 *)
Definition resolveSnapshotterName (name : string) : M W (result string) :=
  if String.eqb name "" then
    r <- call (GetLabel client DefaultSnapshotterNSLabel)
              (EvGetLabel DefaultSnapshotterNSLabel) ;;
    match r with
    | Err err => ret (Err err)
    | Ok label =>
        if negb (String.eqb label "") then ret (Ok label)
        else ret (Ok DefaultSnapshotter)
    end
  else ret (Ok name).

(** image.go:363 *)
Definition getSnapshotter (name : string) : M W (result (Snapshotter W Opt)) :=
  r <- resolveSnapshotterName name ;;
  match r with
  | Err err => ret (Err err)
  | Ok name' =>
      match SnapshotService client name' with
      | None => ret (Err (Wrapf "snapshotter %s was not found: %w" [name']
                                (Sentinel ErrNotFound)))
      | Some s => ret (Ok s)
      end
  end.



(** image.go:257 *)
Definition getManifest : M W (result Manifest) :=
  call (ImagesManifest client) EvManifest.

(** image.go:266 *)
Definition getArtifacts (manifest : Manifest) : list Artifact :=
  map mkArtifact (Layers manifest).

(** The option loop at the head of [Unpack]. *)
Fixpoint unpackConfigOpts (opts : list (UnpackOpt Opt)) (config : UnpackConfig Opt)
  : result (UnpackConfig Opt) :=
  match opts with
  | [] => Ok config
  | o :: rest =>
      match o config with
      | Err err => Err err
      | Ok config' => unpackConfigOpts rest config'
      end
  end.

(** image.go:216-237, the loop over the artifacts; it ends with the chain
    of all layer digests or with the first error. *)
Fixpoint unpackLayers (fuel : nat) (sn : Snapshotter W Opt) (a : Applier W)
           (config : UnpackConfig Opt) (artifacts : list Artifact)
           (chain : list digest.Digest) : M W (result (list digest.Digest)) :=
  match artifacts with
  | [] => ret (Ok chain)
  | artifact :: rest =>
      r <- ApplyArtifactWithOpts ChainID sn a entropy fuel artifact chain
                                 (SnapshotOpts config) (ApplyOpts config) ;;
      match r with
      | (_, Some err) => ret (Err err)
      | (unpacked, None) =>
          let next := unpackLayers fuel sn a config rest
                                   (chain ++ [Digest (Blob artifact)]) in
          if unpacked then
            let cinfo := content.mkInfo (Digest (Blob artifact))
                           [("containerd.io/uncompressed", Digest (Blob artifact))] in
            e <- call (Update client cinfo "labels.containerd.io/uncompressed")
                      (EvUpdate cinfo "labels.containerd.io/uncompressed") ;;
            match e with
            | Some err => ret (Err err)
            | None => next
            end
          else next
      end
  end.

(** image.go:185-254, what runs under the lease.  [a] is the
    [artifactApplier] over the content store of the client: the [Fetch] of
    [host] stands for [contentStore.Fetch] (image.go:317), a reader on the
    blob behind a closer that does nothing. *)
Definition unpackLeased (fuel : nat) (snapshotterName : string)
           (opts : list (UnpackOpt Opt)) : M W (option error) :=
  match unpackConfigOpts opts (mkUnpackConfig [] [] false) with
  | Err err => ret (Some err)
  | Ok config =>
      m <- getManifest ;;
      match m with
      | Err err => ret (Some err)
      | Ok manifest =>
          let artifacts := getArtifacts manifest in
          let a := Apply host in
          n <- resolveSnapshotterName snapshotterName ;;
          match n with
          | Err err => ret (Some err)
          | Ok snapshotterName' =>
              s <- getSnapshotter snapshotterName' ;;
              match s with
              | Err err => ret (Some err)
              | Ok sn =>
                  c <- (if CheckPlatformSupported config then
                          call (CheckSnapshotterSupport client snapshotterName' manifest)
                               EvSupport
                        else ret None) ;;
                  match c with
                  | Some err => ret (Some err)
                  | None =>
                      l <- unpackLayers fuel sn a config artifacts [] ;;
                      match l with
                      | Err err => ret (Some err)
                      | Ok chain =>
                          d <- call (ImageConfig client) EvConfig ;;
                          match d with
                          | Err err => ret (Some err)
                          | Ok desc =>
                              let rootfs := ChainID chain in
                              let label := ("containerd.io/gc.ref.snapshot."
                                              ++ snapshotterName')%string in
                              let cinfo := content.mkInfo (Digest desc) [(label, rootfs)] in
                              call (Update client cinfo ("labels." ++ label)%string)
                                   (EvUpdate cinfo ("labels." ++ label)%string)
                          end
                      end
                  end
              end
          end
      end
  end.

(** image.go:171.  The deferred [done(ctx)] runs once the lease is held. *)
Definition Unpack (fuel : nat) (snapshotterName : string)
           (opts : list (UnpackOpt Opt)) : M W (option error) :=
  e <- call (WithLease client) EvLease ;;
  match e with
  | Some err => ret (Some err)
  | None =>
      r <- unpackLeased fuel snapshotterName opts ;;
      call (fun w => (tt, LeaseDone client w)) (fun _ => EvLeaseDone) ;;;
      ret r
  end.

End Image.

(** ** A world in memory

    The engine runs on concrete inputs against this world: a Snapshot Store
    that keeps its entries in a list, a content store, a file store that
    records what was pushed, and a clock. *)

Module Mem.

Inductive kind : Type := Active | Committed.

Record entry : Type := mkEntry {
  name : string;
  state_ : kind;
  parent : string
}.

Record World : Type := mkWorld {
  snaps : list entry;
  tick : Z;
  blobs : list (digest.Digest * string);
  stream : string;
  consumed : string;
  pushed : list (string * digest.Digest);
  labels : list (digest.Digest * (string * string))
}.

Definition withSnaps (w : World) (l : list entry) : World :=
  mkWorld l (tick w) (blobs w) (stream w) (consumed w) (pushed w) (labels w).

Fixpoint find (l : list entry) (n : string) : option entry :=
  match l with
  | [] => None
  | e :: rest => if String.eqb (name e) n then Some e else find rest n
  end.

Fixpoint delete (l : list entry) (n : string) : list entry :=
  match l with
  | [] => []
  | e :: rest => if String.eqb (name e) n then delete rest n else e :: delete rest n
  end.

Definition committed (l : list entry) (n : string) : bool :=
  match find l n with
  | Some e => match state_ e with Committed => true | Active => false end
  | None => false
  end.

Definition active (l : list entry) (n : string) : bool :=
  match find l n with
  | Some e => match state_ e with Active => true | Committed => false end
  | None => false
  end.

Definition viewMounts (key : string) : list Mount :=
  [mkMount "bind" ("/snapshots/" ++ key)%string ["rw"; "rbind"]].

(** Modelled from the spec: the Snapshot Store is an external capability,
    no implementation of it is under src/.  Section 4.3 of the design:
    stat is an existence check without side effect; prepare fails with
    Not-Found if the parent has no Snapshot (the empty parent is the
    empty root) and with Already-Exists if the build key collides,
    otherwise it returns a writable view; commit fails with
    Already-Exists if a Snapshot for the chain ID exists, otherwise it
    seals the Prepared View; remove discards a view. *)
Definition store : Snapshotter World unit :=
  mkSnapshotter
    (fun key w =>
       match find (snaps w) key with
       | Some _ => (None, w)
       | None => (Some (Sentinel ErrNotFound), w)
       end)
    (fun key par _ w =>
       match find (snaps w) key with
       | Some _ => (Err (Sentinel ErrAlreadyExists), w)
       | None =>
           if String.eqb par "" || committed (snaps w) par then
             (Ok (viewMounts key), withSnaps w (snaps w ++ [mkEntry key Active par]))
           else (Err (Sentinel ErrNotFound), w)
       end)
    (fun nm key _ w =>
       match find (snaps w) nm with
       | Some _ => (Some (Sentinel ErrAlreadyExists), w)
       | None =>
           match find (snaps w) key with
           | Some e =>
               match state_ e with
               | Active =>
                   (None, withSnaps w (delete (snaps w) key
                                         ++ [mkEntry nm Committed (parent e)]))
               | Committed => (Some (Sentinel ErrNotFound), w)
               end
           | None => (Some (Sentinel ErrNotFound), w)
           end
       end)
    (fun key w =>
       match find (snaps w) key with
       | Some _ => (None, withSnaps w (delete (snaps w) key))
       | None => (Some (Sentinel ErrNotFound), w)
       end).

(** A clock that advances by one at every reading, and a random source
    that always fails (the buffer stays zero). *)
Definition entropy : Entropy World :=
  mkEntropy
    (fun w => (tick w,
               mkWorld (snaps w) (tick w + 1) (blobs w) (stream w) (consumed w)
                       (pushed w) (labels w)))
    (fun n w => (repeat Byte.x00 n, w))
    (fun _ => "AAAA").

Fixpoint blob (l : list (digest.Digest * string)) (d : digest.Digest) : option string :=
  match l with
  | [] => None
  | (d', bytes) :: rest => if String.eqb d' d then Some bytes else blob rest d
  end.

(** A stand-in for the libraries [Apply] calls, to run it on concrete
    inputs.  The content source serves the blob stored under the
    descriptor's digest.  The file store of the source is oras's
    [file.New(path)], a library outside the source tree, whose [Push] may
    refuse a stream; the stand-in here refuses none: it reads the stream to
    its end and records the directory and the digest of the push.  A
    temporary mount is a directory named after the number of mounts.
    The properties of [Apply] and [apply] below are stated for an
    arbitrary host; this one only serves to run them on concrete inputs. *)
Definition host (userns : bool) : ApplierHost World unit :=
  mkApplierHost
    (fun desc w =>
       match blob (blobs w) (Digest desc) with
       | Some bytes =>
           (Ok tt, mkWorld (snaps w) (tick w) (blobs w) bytes "" (pushed w) (labels w))
       | None => (Err (Sentinel ErrNotFound), w)
       end)
    (fun _ w => w)
    (fun _ w =>
       (None, mkWorld (snaps w) (tick w) (blobs w) ""
                      (consumed w ++ stream w)%string (pushed w) (labels w)))
    (fun dir desc _ w =>
       (None, mkWorld (snaps w) (tick w) (blobs w) ""
                      (consumed w ++ stream w)%string
                      (pushed w ++ [(dir, Digest desc)]) (labels w)))
    (fun mounts f w => f ("/tmp/containerd-mount" ++ NilZero.string_of_uint
                              (Nat.to_uint (List.length mounts)))%string w)
    userns.

(** An applier that reports the digest it is told to report, whatever the
    descriptor declares. *)
Definition reporting (d : digest.Digest) : Applier World :=
  fun desc _ _ w => (Ok (mkDescriptor MediaTypeImageLayer d (Size desc) []), w).

(** An applier that fails. *)
Definition failing (err : error) : Applier World :=
  fun _ _ _ w => (Err err, w).

(** An applier during whose extraction another builder commits the
    snapshot [nm]; it reports the declared digest. *)
Definition racing (nm : string) : Applier World :=
  fun desc _ _ w =>
    (Ok (mkDescriptor MediaTypeImageLayer (Digest desc) (Size desc) []),
     withSnaps w (snaps w ++ [mkEntry nm Committed ""])).

(** A hash for the runs below: the digest of a string is the string
    itself behind an algorithm prefix. *)
Definition FromBytes (s : string) : digest.Digest := ("id:" ++ s)%string.

Definition ChainID : list digest.Digest -> digest.Digest :=
  identity.ChainID FromBytes.

Definition empty : World := mkWorld [] 0 [] "" "" [] [].

Definition start (w : World) : state World := mkState w [].

Definition layer (d : digest.Digest) : Artifact :=
  mkArtifact (mkDescriptor MediaTypeImageLayer d 1 []).

(** A client whose image has the given layers, with one snapshotter,
    "overlayfs". *)
Definition client (layers : list Descriptor) : Client World unit :=
  mkClient
    (fun w => (None, w))
    (fun w => w)
    (fun _ w => (Ok "", w))
    (fun nm => if String.eqb nm "overlayfs" then Some store else None)
    (fun w => (Ok (mkManifest (mkDescriptor "application/vnd.oci.image.config.v1+json"
                                            "cfg" 2 []) layers), w))
    (fun w => (Ok (mkDescriptor "application/vnd.oci.image.config.v1+json" "cfg" 2 []), w))
    (fun info _ w =>
       (None, mkWorld (snaps w) (tick w) (blobs w) (stream w) (consumed w) (pushed w)
                      (labels w ++ map (fun l => (content.Digest info, l))
                                       (content.Labels info))))
    (fun _ _ w => (None, w)).

End Mem.

(** ** Reading the log *)

(** What must follow the [EvApply] that follows a successful prepare of
    [key]: the removal of [key], or (after a successful extraction) a
    commit of [key] that either succeeds or is itself followed by the
    removal of [key]. *)
Definition closedAfterApply (key : string) (r : result Descriptor)
  (rest : list event) : bool :=
  match rest with
  | EvRemove k _ :: _ => String.eqb k key
  | EvCommit _ k c :: rest' =>
      match r with
      | Err _ => false
      | Ok _ =>
          String.eqb k key &&
          match c with
          | None => true
          | Some _ =>
              match rest' with
              | EvRemove k' _ :: _ => String.eqb k' key
              | _ => false
              end
          end
      end
  | _ => false
  end.

Definition closedAfter (key : string) (rest : list event) : bool :=
  match rest with
  | EvApply _ _ r :: rest' => closedAfterApply key r rest'
  | _ => false
  end.

(** Every Prepared View of the log was committed or removed by the build
    attempt that created it. *)
Fixpoint viewsClosed (l : list event) : bool :=
  match l with
  | [] => true
  | EvPrepare key _ (Ok _) :: rest => closedAfter key rest && viewsClosed rest
  | _ :: rest => viewsClosed rest
  end.

(** The value of the uncompressed label is only written right after a
    successful commit.  [prev] is the event before [l]. *)
Fixpoint labelsFollowCommit (prev : option event) (l : list event) : bool :=
  match l with
  | [] => true
  | ev :: rest =>
      match ev with
      | EvUpdate _ fieldpath _ =>
          if String.eqb fieldpath "labels.containerd.io/uncompressed" then
            match prev with
            | Some (EvCommit _ _ None) => true
            | _ => false
            end
          else true
      | _ => true
      end && labelsFollowCommit (Some ev) rest
  end.

(** A computation that only appends to the log, and leaves no view open in
    what it appends, however it ends. *)
Definition closedRun {W A : Type} (c : M W A) : Prop :=
  forall s, exists evs, log (snd (c s)) = log s ++ evs /\ viewsClosed evs = true.

(** The calls the Chain Builder itself makes. *)
Definition builderEvent (ev : event) : bool :=
  match ev with
  | EvStat _ _ | EvPrepare _ _ _ | EvApply _ _ _ | EvCommit _ _ _ | EvRemove _ _ => true
  | _ => false
  end.

(** A commit that succeeded. *)
Definition committedEvent (ev : event) : bool :=
  match ev with
  | EvCommit _ _ None => true
  | _ => false
  end.

(** The event before the end of [l], or [prev] when [l] is empty. *)
Definition lastEvent (prev : option event) (l : list event) : option event :=
  match l with
  | [] => prev
  | ev :: rest => Some (last rest ev)
  end.

(** A computation that only appends to the log, and appends no write of
    the uncompressed label that does not follow a successful commit. *)
Definition labelSafe {W A : Type} (c : M W A) : Prop :=
  forall s, exists evs,
    log (snd (c s)) = log s ++ evs /\
    forall prev, labelsFollowCommit prev evs = true.

(** ** The claims that fail, as stated *)

(** The error of the Chain Builder when the digest the applier returned is
    not the digest of the layer (artifact.go:133-136). *)
Definition wrongDiff (d : digest.Digest) : error :=
  Errorf "wrong diff id calculated on extraction %q" [d].

(** C1 has [Apply] return a digest that is not the declared one, for the
    comparison of the Chain Builder to detect content that does not match
    the descriptor.  Both need a run to show them.  The first: with some
    host, some successful [Apply] returns a digest other than the digest
    of its descriptor. *)
Definition Apply_can_return_another_digest : Prop :=
  exists (W Reader : Type) (host : ApplierHost W Reader)
         (desc : Descriptor) (mounts : list Mount) (opts : list diff.ApplyOpt)
         (w w' : W) (d : Descriptor),
    Apply host desc mounts opts w = (Ok d, w') /\ Digest d <> Digest desc.

(** The second: with some host and some snapshot store, some build whose
    applier is [Apply] ends in the error of the comparison.  The host is
    left open, and with it what its content source serves and what its
    file store accepts. *)
Definition comparison_can_fail_over_Apply : Prop :=
  exists (W Opt Reader : Type) (ChainID : list digest.Digest -> digest.Digest)
         (sn : Snapshotter W Opt) (host : ApplierHost W Reader) (entropy : Entropy W)
         (fuel : nat) (artifacts : list Artifact) (chain : list digest.Digest)
         (opts : list Opt) (applyOpts : list diff.ApplyOpt) (s : state W)
         (d : digest.Digest),
    fst (applyArtifacts ChainID sn (Apply host) entropy fuel artifacts chain opts applyOpts s)
    = Done (Some (wrongDiff d)).

(** ** More stores in memory *)

Module Stores.

(** A store that never finds a build key taken: a prepare under a key that
    exists replaces the view. *)
Definition lenient : Snapshotter Mem.World unit :=
  mkSnapshotter
    (Stat Mem.store)
    (fun key par _ w =>
       if String.eqb par "" || Mem.committed (Mem.snaps w) par then
         (Ok (Mem.viewMounts key),
          Mem.withSnaps w (Mem.delete (Mem.snaps w) key ++ [Mem.mkEntry key Mem.Active par]))
       else (Err (Sentinel ErrNotFound), w))
    (Commit Mem.store)
    (Remove Mem.store).

(** A store that finds every build key taken. *)
Definition jammed : Snapshotter Mem.World unit :=
  mkSnapshotter
    (Stat Mem.store)
    (fun _ _ _ w => (Err (Wrapf "snapshot %s: %w" ["key"] (Sentinel ErrAlreadyExists)), w))
    (Commit Mem.store)
    (Remove Mem.store).

(** A store that has every snapshot. *)
Definition full : Snapshotter Mem.World unit :=
  mkSnapshotter
    (fun _ w => (None, w))
    (Prepare Mem.store)
    (Commit Mem.store)
    (Remove Mem.store).

End Stores.

(** ** The calls of a build, piece by piece *)

(** The descriptors handed to the Diff Applier, in the order of the calls. *)
Definition applied (evs : list event) : list Descriptor :=
  flat_map (fun ev => match ev with EvApply desc _ _ => [desc] | _ => [] end) evs.

(** [subseq l l']: [l] is [l'] with some elements left out. *)
Inductive subseq {A : Type} : list A -> list A -> Prop :=
| subseq_nil : subseq [] []
| subseq_skip (x : A) (l l' : list A) : subseq l l' -> subseq l (x :: l')
| subseq_take (x : A) (l l' : list A) : subseq l l' -> subseq (x :: l) (x :: l').

(** What follows the successful prepare of [key] in a build attempt for the
    snapshot [name] from the layer [desc]: an extraction that fails or
    reports another digest, then the removal of [key]; or an extraction
    that reports the declared digest, then a commit of [key] under [name]
    that succeeds, or fails and is followed by the removal of [key]. *)
Inductive attemptTail (key : string) (name : digest.Digest) (desc : Descriptor)
  (mounts : list Mount) : list event -> Prop :=
| tail_failed (e : error) (rerr : option error) :
    attemptTail key name desc mounts
      [EvApply desc mounts (Err e); EvRemove key rerr]
| tail_mismatch (diff : Descriptor) (rerr : option error) :
    Digest diff <> Digest desc ->
    attemptTail key name desc mounts
      [EvApply desc mounts (Ok diff); EvRemove key rerr]
| tail_lost (diff : Descriptor) (e : error) (rerr : option error) :
    Digest diff = Digest desc ->
    attemptTail key name desc mounts
      [EvApply desc mounts (Ok diff); EvCommit name key (Some e); EvRemove key rerr]
| tail_committed (diff : Descriptor) :
    Digest diff = Digest desc ->
    attemptTail key name desc mounts
      [EvApply desc mounts (Ok diff); EvCommit name key None].

(** One piece of the calls of [ApplyArtifactsWithOpts] on [artifacts]: a
    prepare that the snapshotter refuses, or a whole build attempt for a
    prefix [arts] of the artifacts that is not empty: the view is prepared
    under a key made of a unique part and the chain ID of the digests of
    [arts], on the chain ID of all but the last of them, and the layer
    extracted is the last of [arts]. *)
Inductive piece (ChainID : list digest.Digest -> digest.Digest)
  (artifacts : list Artifact) : list event -> Prop :=
| piece_refused (key parent : string) (e : error) :
    piece ChainID artifacts [EvPrepare key parent (Err e)]
| piece_attempt (arts rest : list Artifact) (u : string) (mounts : list Mount)
    (tail : list event) :
    artifacts = arts ++ rest ->
    arts <> [] ->
    attemptTail (UnpackKey u (ChainID (map (fun x => Digest (Blob x)) arts)))
                (ChainID (map (fun x => Digest (Blob x)) arts))
                (Blob (last arts (mkArtifact emptyDesc))) mounts tail ->
    piece ChainID artifacts
      (EvPrepare (UnpackKey u (ChainID (map (fun x => Digest (Blob x)) arts)))
                 (ChainID (removelast (map (fun x => Digest (Blob x)) arts)))
                 (Ok mounts) :: tail).

(** A computation that only appends to the log, and what it appends
    satisfies [Q], however it ends. *)
Definition logs {W A : Type} (Q : list event -> Prop) (c : M W A) : Prop :=
  forall s, exists evs, log (snd (c s)) = log s ++ evs /\ Q evs.

(** A computation that appends only events that satisfy [P]. *)
Definition emits {W A : Type} (P : event -> bool) (c : M W A) : Prop :=
  logs (fun evs => forallb P evs = true) c.

Definition isLease (ev : event) : bool :=
  match ev with EvLease _ | EvLeaseDone => true | _ => false end.

Definition isGetLabel (ev : event) : bool :=
  match ev with EvGetLabel _ _ => true | _ => false end.

(** ** What a snapshotter answers to a prepare *)

(** No prepare is answered with Already-Exists. *)
Definition neverCollides {W Opt : Type} (sn : Snapshotter W Opt) : Prop :=
  forall key parent opts w e w',
    Prepare sn key parent opts w = (Err e, w') -> IsAlreadyExists e = false.

(** Every prepare is answered with Already-Exists. *)
Definition alwaysCollides {W Opt : Type} (sn : Snapshotter W Opt) : Prop :=
  forall key parent opts w,
    exists e w', Prepare sn key parent opts w = (Err e, w') /\ IsAlreadyExists e = true.

(** ** The errors of a build *)

(** [explains ev err]: [err] is the error [applyArtifacts] makes of the
    answer recorded in [ev]. *)
Inductive explains : event -> error -> Prop :=
| prepare_failed (key parent : string) (e : error) :
    IsAlreadyExists e = false ->
    explains (EvPrepare key parent (Err e))
             (Wrapf "failed to prepare extraction snapshot %q: %w" [key] e)
| extract_failed (desc : Descriptor) (mounts : list Mount) (e : error) :
    explains (EvApply desc mounts (Err e))
             (Wrapf "failed to extract layer %s: %w" [Digest desc] e)
| wrong_diff (desc diff : Descriptor) (mounts : list Mount) :
    Digest diff <> Digest desc ->
    explains (EvApply desc mounts (Ok diff))
             (Errorf "wrong diff id calculated on extraction %q" [Digest diff])
| commit_failed (name key : string) (e : error) :
    explains (EvCommit name key (Some e))
             (Wrapf "failed to commit snapshot %s: %w" [key] e).

(** A computation that never ends in a panic. *)
Definition neverPanics {W A : Type} (c : M W A) : Prop :=
  forall s msg, fst (c s) <> Panic msg.

(** ** Mount options as the snapshotters write them *)

(** [c] occurs in [s]. *)
Fixpoint hasChar (c : ascii) (s : string) : bool :=
  match s with
  | EmptyString => false
  | String c' rest => Ascii.eqb c' c || hasChar c rest
  end.

(** The branch option in the format the comment of [getAufsPath] gives,
    "br:<upper>=rw[:<lower>=ro+wh]*". *)
Definition aufsBranchOption (upper : string) (lowers : list string) : string :=
  ("br:" ++ String.concat ":" ((upper ++ "=rw") :: map (fun l => l ++ "=ro+wh") lowers))%string.

(** An option [getAufsPath] skips. *)
Definition notBranches (o : string) : bool := negb (strings.HasPrefix o "br:").

(** An option [getOverlayPath] skips. *)
Definition notOverlayDirs (o : string) : bool :=
  negb (strings.HasPrefix o "upperdir=") && negb (strings.HasPrefix o "lowerdir=").

(** ** The stats of an unpack *)

(** The chains [Unpack] passes through: [chain] extended by the digests,
    one more at a time. *)
Fixpoint chainPrefixes (chain digests : list digest.Digest) : list (list digest.Digest) :=
  match digests with
  | [] => []
  | d :: rest => (chain ++ [d]) :: chainPrefixes (chain ++ [d]) rest
  end.

(** The keys of the stats of a log, in the order of the calls. *)
Definition statKeys (evs : list event) : list string :=
  flat_map (fun ev => match ev with EvStat key _ => [key] | _ => [] end) evs.

(** The calls of a build attempt: every call of the Chain Builder but the
    stat. *)
Definition attemptEvent (ev : event) : bool :=
  match ev with
  | EvPrepare _ _ _ | EvApply _ _ _ | EvCommit _ _ _ | EvRemove _ _ => true
  | _ => false
  end.

(** ** The environment of the container (cmd/rcl/commands/options.go) *)

Module commands.

(** [strings.Cut(s, sep)] for a separator of one character, which is what
    the call sites pass (the constant "="): the text before the first
    separator, the text after it, and whether it was found; without a
    separator the whole of [s] comes before. *)
Fixpoint Cut (s : string) (sep : ascii) : string * string * bool :=
  match s with
  | EmptyString => (EmptyString, EmptyString, false)
  | String c rest =>
      if Ascii.eqb c sep then (EmptyString, rest, true)
      else let '(before, after, found) := Cut rest sep in
           (String c before, after, found)
  end.

(** The Go map [cache], from a key to an index: the binding added last for
    a key is the one that is found. *)
Fixpoint lookup (cache : list (string * nat)) (k : string) : option nat :=
  match cache with
  | [] => None
  | (k', i) :: rest => if String.eqb k' k then Some i else lookup rest k
  end.

(** options.go:149-153, the first loop, from index [i] on: [results] gets
    the defaults as they are, [cache] the index of each key. *)
Fixpoint cacheDefaults (defaults : list string) (i : nat) (cache : list (string * nat))
  : list (string * nat) :=
  match defaults with
  | [] => cache
  | e :: rest =>
      let '(k, _, _) := Cut e "="%char in
      cacheDefaults rest (S i) ((k, i) :: cache)
  end.

(** [results[i] = v]; [None] is the index-out-of-range panic. *)
Fixpoint setIndex (results : list string) (i : nat) (v : string) : option (list string) :=
  match results, i with
  | [], _ => None
  | _ :: rest, O => Some (v :: rest)
  | e :: rest, S i' =>
      match setIndex rest i' v with
      | Some rest' => Some (e :: rest')
      | None => None
      end
  end.

(** options.go:155-171, the second loop.  An override that is appended is
    not entered into [cache]. *)
Fixpoint applyOverrides (cache : list (string * nat)) (overrides results : list string)
  : option (list string) :=
  match overrides with
  | [] => Some results
  | value :: rest =>
      let '(k, _, ok) := Cut value "="%char in
      if negb ok then
        match lookup cache k with
        | Some i =>
            match setIndex results i "" with
            | Some results' => applyOverrides cache rest results'
            | None => None
            end
        | None => applyOverrides cache rest results
        end
      else
        match lookup cache k with
        | Some i =>
            match setIndex results i value with
            | Some results' => applyOverrides cache rest results'
            | None => None
            end
        | None => applyOverrides cache rest (results ++ [value])
        end
  end.

(** options.go:174-179, the third loop: an empty entry is cut out and the
    scan goes on at the same index. *)
Fixpoint removeEmpty (results : list string) : list string :=
  match results with
  | [] => []
  | e :: rest => if String.eqb e "" then removeEmpty rest else e :: removeEmpty rest
  end.

(** options.go:146 *)
Definition replaceOrAppendEnvValues (defaults overrides : list string)
  : option (list string) :=
  match applyOverrides (cacheDefaults defaults 0 []) overrides defaults with
  | Some results => Some (removeEmpty results)
  | None => None
  end.

(** The key of an entry, and whether the entry sets a value. *)
Definition key (e : string) : string := fst (fst (Cut e "="%char)).
Definition sets (e : string) : bool := snd (Cut e "="%char).

Fixpoint hasKey (k : string) (entries : list string) : bool :=
  match entries with
  | [] => false
  | e :: rest => String.eqb (key e) k || hasKey k rest
  end.

(** The index of the last entry of key [k]. *)
Fixpoint lastIndex (k : string) (entries : list string) : option nat :=
  match entries with
  | [] => None
  | e :: rest =>
      match lastIndex k rest with
      | Some j => Some (S j)
      | None => if String.eqb (key e) k then Some O else None
      end
  end.

(** What the overrides make of an entry [e] of key [k]: the last override
    of that key if there is one (nothing, when that override sets no
    value), [e] otherwise. *)
Definition overridden (overrides : list string) (k e : string) : string :=
  fold_left (fun cur v => if String.eqb (key v) k then (if sets v then v else "") else cur)
            overrides e.

(** The defaults after the overrides: an entry whose key comes again later
    in the defaults stays as it is, the last entry of each key is
    overridden. *)
Fixpoint resolved (overrides defaults : list string) : list string :=
  match defaults with
  | [] => []
  | e :: rest =>
      (if hasKey (key e) rest then e else overridden overrides (key e) e)
        :: resolved overrides rest
  end.

(** The overrides that are appended: those that set a value for a key none
    of the defaults has, in their order. *)
Definition appended (defaults overrides : list string) : list string :=
  filter (fun v => sets v && negb (hasKey (key v) defaults)) overrides.

End commands.

Unset Implicit Arguments.

(** * Properties *)


(** ** Errors *)

Lemma Is_exclusive (err : error) (s t : sentinel) :
  Is err s = true -> Is err t = true -> s = t.
Proof.
  induction err as [u | msg | format args | format args inner IH]; simpl;
    try discriminate; auto.
  destruct u, s, t; simpl; intros; congruence.
Qed.

Lemma AlreadyExists_not_NotFound (err : error) :
  IsAlreadyExists err = true -> IsNotFound err = false.
Proof.
  unfold IsAlreadyExists, IsNotFound. intros H.
  destruct (Is err ErrNotFound) eqn:E; [ | reflexivity ].
  pose proof (Is_exclusive _ _ _ H E). discriminate.
Qed.

(** ** The mount option grammars *)

Lemma getOverlayPath_error (options : list string) (err : error) :
  getOverlayPath options = Err err -> IsInvalidArgument err = true.
Proof.
  unfold getOverlayPath.
  destruct (fold_left overlayStep options ("", [])) as [upper lower].
  destruct (String.eqb upper ""); intros H; inversion H; reflexivity.
Qed.

Lemma aufsBranches_error (bs : list string) :
  forall upper lower err,
    aufsBranches bs upper lower = Err err -> IsInvalidArgument err = true.
Proof.
  induction bs as [ | b rest IH]; simpl; intros upper lower err H.
  - discriminate.
  - destruct (strings.HasSuffix b "=rw").
    + destruct (negb (String.eqb upper "")).
      * inversion H; reflexivity.
      * eapply IH; eassumption.
    + destruct (strings.HasSuffix b "=ro+wh").
      * destruct (String.eqb upper "").
        -- inversion H; reflexivity.
        -- eapply IH; eassumption.
      * inversion H; reflexivity.
Qed.

Lemma aufsOptions_error (options : list string) :
  forall upper lower err,
    aufsOptions options upper lower = Err err -> IsInvalidArgument err = true.
Proof.
  induction options as [ | o rest IH]; simpl; intros upper lower err H.
  - discriminate.
  - destruct (strings.HasPrefix o "br:").
    + destruct (aufsBranches _ upper lower) as [[upper' lower'] | e] eqn:E.
      * eapply IH; eassumption.
      * inversion H; subst. eapply aufsBranches_error; eassumption.
    + eapply IH; eassumption.
Qed.

Lemma getAufsPath_error (options : list string) (err : error) :
  getAufsPath options = Err err -> IsInvalidArgument err = true.
Proof.
  unfold getAufsPath.
  destruct (aufsOptions options "" []) as [[upper lower] | e] eqn:E.
  - destruct (String.eqb upper ""); intros H; inversion H; reflexivity.
  - intros H; inversion H; subst. eapply aufsOptions_error; eassumption.
Qed.

Example Split_fields :
  strings.Split "/a:/b:" ":"%char = ["/a"; "/b"; ""] /\
  strings.Split "" ":"%char = [""].
Proof. split; reflexivity. Qed.

Example getOverlayPath_upper :
  getOverlayPath ["workdir=/w"; "upperdir=/u"; "lowerdir=/l2:/l1"]
  = Ok ("/u", ["/l2"; "/l1"]) /\
  getOverlayPath ["lowerdir=/l1"]
  = Err (Wrapf "upperdir not found: %w" [] (Sentinel ErrInvalidArgument)) /\
  getOverlayPath ["upperdir=/u"; "upperdir="]
  = Err (Wrapf "upperdir not found: %w" [] (Sentinel ErrInvalidArgument)).
Proof. repeat split. Qed.

Example getAufsPath_branches :
  getAufsPath ["br:/u=rw:/l2=ro+wh:/l1=ro+wh"; "dirperm1"] = Ok ("/u", ["/l2"; "/l1"]) /\
  getAufsPath ["br:/u=rw:/v=rw"]
  = Err (Wrapf "multiple rw branch found: %w" [] (Sentinel ErrInvalidArgument)) /\
  getAufsPath ["br:/u"]
  = Err (Wrapf "unhandled aufs suffix: %w" [] (Sentinel ErrInvalidArgument)) /\
  getAufsPath ["dirperm1"]
  = Err (Wrapf "rw branch not found: %w" [] (Sentinel ErrInvalidArgument)).
Proof. repeat split. Qed.

(** C9.  A single overlay or aufs mount whose options do not give an upper
    directory: the parse error is an Invalid-Argument error, and [apply]
    does exactly what the generic temporary-mount path does, it does not
    return the parse error.  Since every error of the two parsers is an
    Invalid-Argument error, the branch that would propagate another parse
    error is never taken. *)
Theorem apply_falls_back_on_invalid_options
  (W Reader : Type) (host : ApplierHost W Reader)
  (m : Mount) (desc : Descriptor) (r : Reader) (err : error) :
  (Type_ m = "overlay" /\ getOverlayPath (Options m) = Err err) \/
  (Type_ m = "aufs" /\ getAufsPath (Options m) = Err err) ->
  IsInvalidArgument err = true /\
  apply host [m] desc r = applyTempMount host [m] desc r.
Proof.
  intros [[Hty Hparse] | [Hty Hparse]].
  - pose proof (getOverlayPath_error _ _ Hparse) as Hinv.
    split; [ exact Hinv | ].
    unfold apply. rewrite Hty. simpl String.eqb. cbv iota.
    destruct (RunningInUserNS host); [ reflexivity | ].
    rewrite Hparse, Hinv. reflexivity.
  - pose proof (getAufsPath_error _ _ Hparse) as Hinv.
    split; [ exact Hinv | ].
    unfold apply. rewrite Hty. simpl String.eqb. cbv iota.
    rewrite Hparse, Hinv. reflexivity.
Qed.

Lemma apply_falls_back_on_invalid_options_witness :
  let m := mkMount "aufs" "none" ["br:/lower=ro+wh:/upper=rw"] in
  let err := Wrapf "rw branch be first: %w" [] (Sentinel ErrInvalidArgument) in
  getAufsPath (Options m) = Err err /\
  IsInvalidArgument err = true /\
  apply (Mem.host false) [m] emptyDesc tt = applyTempMount (Mem.host false) [m] emptyDesc tt.
Proof.
  split; [ reflexivity | ].
  apply (apply_falls_back_on_invalid_options _ _ (Mem.host false)
           (mkMount "aufs" "none" ["br:/lower=ro+wh:/upper=rw"]) emptyDesc tt).
  right. split; reflexivity.
Defined.

(** ** The Chain Builder *)

Section BuilderFacts.

Context {W Opt : Type}.
Variable ChainID : list digest.Digest -> digest.Digest.
Variable sn : Snapshotter W Opt.
Variable a : Applier W.
Variable entropy : Entropy W.

Lemma bind_run {A B : Type} {c : M W A} (k : A -> M W B) {s s' : state W} {x : A} :
  c s = (Done x, s') -> bind c k s = k x s'.
Proof. unfold bind. intros ->. reflexivity. Qed.

Lemma bind_assoc_run {A B C : Type} (c : M W A) (k : A -> M W B) (k' : B -> M W C)
  (s : state W) :
  bind (bind c k) k' s = bind c (fun x => bind (k x) k') s.
Proof. unfold bind. destruct (c s) as [[x | msg | ] s']; reflexivity. Qed.

Lemma bind_from {A B : Type} (c c' : M W A) (k : A -> M W B) (s s' : state W) :
  c s = c' s' -> bind c k s = bind c' k s'.
Proof. unfold bind. intros ->. reflexivity. Qed.

Lemma bind_then {A B : Type} (c : M W A) (k k' : A -> M W B) (s : state W) :
  (forall x s', k x s' = k' x s') -> bind c k s = bind c k' s.
Proof. unfold bind. intros H. destruct (c s) as [[x | msg | ] s']; auto. Qed.

Lemma call_run {A : Type} (f : W -> A * W) (ev : A -> event) (s : state W)
  {x : A} {w' : W} :
  f (world s) = (x, w') ->
  call f ev s = (Done x, mkState w' (log s ++ [ev x])).
Proof. unfold call. intros ->. reflexivity. Qed.

Lemma uniquePart_run (s : state W) :
  exists u w', uniquePart entropy s = (Done u, mkState w' (log s)).
Proof.
  unfold uniquePart, bind, quiet, ret.
  destruct (Nanosecond entropy (world s)) as [t w1]. simpl.
  destruct (RandRead entropy 3 w1) as [b w2]. simpl.
  eauto.
Qed.

(** One turn of the [for] loop, once the unique part is drawn and the
    snapshotter has answered. *)
Lemma prepareLoop_turn
  (recur : list Artifact -> list digest.Digest -> M W (option error))
  (fuel : nat) (artifacts : list Artifact) (chain : list digest.Digest)
  (parent chainID : digest.Digest) (opts : list Opt)
  (s : state W) (u : string) (w1 w2 : W) (r : result (list Mount)) :
  uniquePart entropy s = (Done u, mkState w1 (log s)) ->
  Prepare sn (UnpackKey u chainID) parent opts w1 = (r, w2) ->
  prepareLoop sn entropy recur (S fuel) artifacts chain parent chainID opts s =
  let key := UnpackKey u chainID in
  let s2 := mkState w2 (log s ++ [EvPrepare key parent r]) in
  match r with
  | Ok mounts => (Done (Break key mounts), s2)
  | Err err =>
      if IsNotFound err && (1 <? List.length artifacts)%nat then
        bind (recur (removelast artifacts) (removelast chain))
             (fun e =>
                match e with
                | Some err' =>
                    if negb (IsAlreadyExists err') then ret (Return err')
                    else prepareLoop sn entropy recur fuel [] chain parent chainID opts
                | None => prepareLoop sn entropy recur fuel [] chain parent chainID opts
                end) s2
      else if IsAlreadyExists err then
        prepareLoop sn entropy recur fuel artifacts chain parent chainID opts s2
      else (Done (Return (Wrapf "failed to prepare extraction snapshot %q: %w"
                                [key] err)), s2)
  end.
Proof.
  intros Hu Hp. simpl prepareLoop.
  rewrite (bind_run _ Hu). cbv beta zeta. unfold snPrepare.
  rewrite (bind_run _ (call_run _ _ (mkState w1 (log s)) Hp)). simpl log.
  destruct r as [mounts | err]; [ reflexivity | ].
  destruct (IsNotFound err && (1 <? List.length artifacts)%nat); [ reflexivity | ].
  destruct (IsAlreadyExists err); reflexivity.
Qed.

(** The loop is left by [break] right after a successful prepare of the
    key it hands on. *)
Lemma prepareLoop_break
  (recur : list Artifact -> list digest.Digest -> M W (option error))
  (fuel : nat) :
  forall (artifacts : list Artifact) (chain : list digest.Digest)
         (parent chainID : digest.Digest) (opts : list Opt)
         (s s1 : state W) (key : string) (mounts : list Mount),
    prepareLoop sn entropy recur fuel artifacts chain parent chainID opts s
    = (Done (Break key mounts), s1) ->
    exists l, log s1 = l ++ [EvPrepare key parent (Ok mounts)].
Proof.
  induction fuel as [ | fuel IH]; intros artifacts chain parent chainID opts s s1 key mounts H.
  - discriminate.
  - destruct (uniquePart_run s) as (u & w1 & Hu).
    destruct (Prepare sn (UnpackKey u chainID) parent opts w1) as [r w2] eqn:Hp.
    rewrite (prepareLoop_turn recur fuel artifacts chain parent chainID opts s u w1 w2 r Hu Hp) in H.
    cbv zeta in H.
    destruct r as [mounts' | err].
    + inversion H; subst. simpl. eauto.
    + destruct (IsNotFound err && (1 <? List.length artifacts)%nat).
      * unfold bind in H.
        destruct (recur (removelast artifacts) (removelast chain) _) as [[e | msg | ] s3];
          try discriminate.
        destruct e as [err' | ].
        -- destruct (negb (IsAlreadyExists err')); [ discriminate | ].
           eapply IH; eassumption.
        -- eapply IH; eassumption.
      * destruct (IsAlreadyExists err); [ | discriminate ].
        eapply IH; eassumption.
Qed.

(** C3.  When the stat of the chain ID of the requested sequence reports
    the snapshot present, both entry points return success at once: the
    stat is the only call they make (no prepare, no Diff Applier, no
    content fetch, no commit), so the world is the one the stat left and
    nothing was applied or created.  This holds for any fuel. *)
Theorem apply_returns_at_once_when_present
  (fuel : nat) (artifacts : list Artifact) (artifact : Artifact)
  (chain : list digest.Digest) (opts : list Opt)
  (applyOpts : list diff.ApplyOpt) (s : state W) (w' : W) :
  (let chainID := ChainID (map (fun x => Digest (Blob x)) artifacts) in
   Stat sn chainID (world s) = (None, w') ->
   ApplyArtifactsWithOpts ChainID sn a entropy fuel artifacts applyOpts s
   = (Done (Ok chainID), mkState w' (log s ++ [EvStat chainID None]))) /\
  (let chainID := ChainID (chain ++ [Digest (Blob artifact)]) in
   Stat sn chainID (world s) = (None, w') ->
   ApplyArtifactWithOpts ChainID sn a entropy fuel artifact chain opts applyOpts s
   = (Done (false, None), mkState w' (log s ++ [EvStat chainID None]))).
Proof.
  split; intros chainID H.
  - unfold ApplyArtifactsWithOpts. fold chainID.
    unfold snStat. rewrite (bind_run _ (call_run _ _ s H)). reflexivity.
  - unfold ApplyArtifactWithOpts. fold chainID.
    unfold snStat. rewrite (bind_run _ (call_run _ _ s H)). reflexivity.
Qed.

(** What [extractBody] does, by the answers of the Diff Applier and of the
    commit. *)
Lemma extractBody_run
  (artifact : Artifact) (chainID : digest.Digest) (key : string)
  (mounts : list Mount) (opts : list Opt) (applyOpts : list diff.ApplyOpt)
  (s : state W) :
  let desc := Blob artifact in
  match a desc mounts applyOpts (world s) with
  | (Err err, w1) =>
      extractBody sn a artifact chainID key mounts opts applyOpts s
      = (Done (Some (Wrapf "failed to extract layer %s: %w" [Digest desc] err)),
         mkState w1 (log s ++ [EvApply desc mounts (Err err)]))
  | (Ok diff, w1) =>
      if negb (String.eqb (Digest diff) (Digest desc)) then
        extractBody sn a artifact chainID key mounts opts applyOpts s
        = (Done (Some (Errorf "wrong diff id calculated on extraction %q" [Digest diff])),
           mkState w1 (log s ++ [EvApply desc mounts (Ok diff)]))
      else
        match Commit sn chainID key opts w1 with
        | (Some err, w2) =>
            extractBody sn a artifact chainID key mounts opts applyOpts s
            = (Done (Some (Wrapf "failed to commit snapshot %s: %w" [key] err)),
               mkState w2 (log s ++ [EvApply desc mounts (Ok diff);
                                     EvCommit chainID key (Some err)]))
        | (None, w2) =>
            extractBody sn a artifact chainID key mounts opts applyOpts s
            = (Done None,
               mkState w2 (log s ++ [EvApply desc mounts (Ok diff);
                                     EvCommit chainID key None]))
        end
  end.
Proof.
  cbv zeta. unfold extractBody, aApply.
  destruct (a (Blob artifact) mounts applyOpts (world s)) as [[diff | err] w1] eqn:Ha;
    rewrite (bind_run _ (call_run _ _ s Ha)).
  - destruct (negb (String.eqb (Digest diff) (Digest (Blob artifact)))); [ reflexivity | ].
    unfold snCommit.
    destruct (Commit sn chainID key opts w1) as [[err | ] w2] eqn:Hc;
      rewrite (bind_run _ (call_run _ _ (mkState w1 _) Hc)); simpl log;
      rewrite <- app_assoc; reflexivity.
  - reflexivity.
Qed.

(** The deferred cleanup after the body: nothing when the body succeeded,
    one [Remove] of the key otherwise; the value returned is the body's. *)
Lemma extractAndCommit_run
  (artifact : Artifact) (chainID : digest.Digest) (key : string)
  (mounts : list Mount) (opts : list Opt) (applyOpts : list diff.ApplyOpt)
  (s s1 : state W) (r : option error) :
  extractBody sn a artifact chainID key mounts opts applyOpts s = (Done r, s1) ->
  extractAndCommit sn a artifact chainID key mounts opts applyOpts s =
  match r with
  | None => (Done None, s1)
  | Some err =>
      let '(rerr, w') := Remove sn key (world s1) in
      (Done (Some err), mkState w' (log s1 ++ [EvRemove key rerr]))
  end.
Proof.
  intros Hb. unfold extractAndCommit. rewrite (bind_run _ Hb).
  destruct r as [err | ]; [ | reflexivity ].
  unfold deferredCleanup, snRemove.
  destruct (Remove sn key (world s1)) as [rerr w'] eqn:Hr.
  unfold bind at 1. rewrite (bind_run _ (call_run _ _ s1 Hr)). reflexivity.
Qed.

Lemma last_cons {A : Type} (x : A) (l : list A) (d : A) : last (x :: l) d = last l x.
Proof.
  revert x d. induction l as [ | y l IH]; intros x d; [ reflexivity | ].
  change (last (x :: y :: l) d) with (last (y :: l) d). rewrite !IH. reflexivity.
Qed.

(** The body of [applyArtifacts] on a chain and a list of artifacts that
    are not empty. *)
Lemma applyArtifacts_S
  (fuel : nat) (a0 : Artifact) (rest : list Artifact) (c0 : digest.Digest)
  (crest : list digest.Digest) (opts : list Opt) (applyOpts : list diff.ApplyOpt) :
  applyArtifacts ChainID sn a entropy (S fuel) (a0 :: rest) (c0 :: crest) opts applyOpts
  = bind (prepareLoop sn entropy
            (fun arts ch => applyArtifacts ChainID sn a entropy fuel arts ch opts applyOpts)
            fuel (a0 :: rest) (c0 :: crest) (ChainID (removelast (c0 :: crest)))
            (ChainID (c0 :: crest)) opts)
         (fun x => match x with
                   | Return err => ret (Some err)
                   | Break key mounts =>
                       extractAndCommit sn a (last rest a0) (ChainID (c0 :: crest))
                                        key mounts opts applyOpts
                   end).
Proof. reflexivity. Qed.

(** [applyArtifacts] once its loop is left by [break]. *)
Lemma applyArtifacts_after_break
  (fuel : nat) (a0 : Artifact) (rest : list Artifact) (c0 : digest.Digest)
  (crest : list digest.Digest) (opts : list Opt) (applyOpts : list diff.ApplyOpt)
  (s s1 : state W) (key : string) (mounts : list Mount) :
  let artifacts := a0 :: rest in
  let chain := c0 :: crest in
  prepareLoop sn entropy
    (fun arts ch => applyArtifacts ChainID sn a entropy fuel arts ch opts applyOpts)
    fuel artifacts chain (ChainID (removelast chain)) (ChainID chain) opts s
  = (Done (Break key mounts), s1) ->
  applyArtifacts ChainID sn a entropy (S fuel) artifacts chain opts applyOpts s
  = extractAndCommit sn a (last rest a0) (ChainID chain) key mounts opts applyOpts s1.
Proof.
  cbv zeta. intros H. rewrite applyArtifacts_S, (bind_run _ H). reflexivity.
Qed.

(** C2.  A build attempt whose Diff Applier reports a digest other than the
    declared one: once the loop has prepared the view [key],
    [applyArtifacts] returns the error "wrong diff id calculated on
    extraction", which is neither Already-Exists nor Not-Found (no caller
    takes it for success); after the prepare the only calls are the
    extraction and the removal of [key], so no commit is issued; and [key]
    is the key of the prepare that ends the log before the extraction. *)
Theorem digest_mismatch_aborts_the_layer
  (fuel : nat) (a0 : Artifact) (rest : list Artifact) (c0 : digest.Digest)
  (crest : list digest.Digest) (opts : list Opt) (applyOpts : list diff.ApplyOpt)
  (s s1 : state W) (key : string) (mounts : list Mount)
  (diff : Descriptor) (w1 w2 : W) (rerr : option error) :
  let artifacts := a0 :: rest in
  let chain := c0 :: crest in
  let artifact := last rest a0 in
  let err := Errorf "wrong diff id calculated on extraction %q" [Digest diff] in
  prepareLoop sn entropy
    (fun arts ch => applyArtifacts ChainID sn a entropy fuel arts ch opts applyOpts)
    fuel artifacts chain (ChainID (removelast chain)) (ChainID chain) opts s
  = (Done (Break key mounts), s1) ->
  a (Blob artifact) mounts applyOpts (world s1) = (Ok diff, w1) ->
  Digest diff <> Digest (Blob artifact) ->
  Remove sn key w1 = (rerr, w2) ->
  applyArtifacts ChainID sn a entropy (S fuel) artifacts chain opts applyOpts s
  = (Done (Some err),
     mkState w2 (log s1 ++ [EvApply (Blob artifact) mounts (Ok diff); EvRemove key rerr])) /\
  IsAlreadyExists err = false /\
  IsNotFound err = false /\
  filter isCommit [EvApply (Blob artifact) mounts (Ok diff); EvRemove key rerr] = [] /\
  exists l, log s1 = l ++ [EvPrepare key (ChainID (removelast chain)) (Ok mounts)].
Proof.
  cbv zeta. intros Hloop Ha Hneq Hr.
  split; [ | split; [ reflexivity | split; [ reflexivity | split; [ reflexivity | ] ] ] ].
  - rewrite (applyArtifacts_after_break fuel a0 rest c0 crest opts applyOpts s s1 key mounts Hloop).
    pose proof (extractBody_run (last rest a0) (ChainID (c0 :: crest)) key mounts opts
                                applyOpts s1) as Hb.
    cbv zeta in Hb. rewrite Ha in Hb.
    apply String.eqb_neq in Hneq. rewrite Hneq in Hb. simpl negb in Hb. cbv iota in Hb.
    rewrite (extractAndCommit_run _ _ _ _ _ _ _ _ _ Hb). simpl world. rewrite Hr.
    simpl log. rewrite <- app_assoc. reflexivity.
  - eapply prepareLoop_break. exact Hloop.
Qed.

Lemma closedAfter_app (key : string) (l l' : list event) :
  closedAfter key l = true -> closedAfter key (l ++ l') = true.
Proof.
  destruct l as [ | e1 l1]; simpl; [ discriminate | ].
  destruct e1; try discriminate.
  destruct l1 as [ | e2 l2]; simpl; [ discriminate | ].
  destruct e2; try discriminate; [ | auto ].
  destruct r; [ | discriminate ].
  destruct (String.eqb key0 key); simpl; [ | discriminate ].
  destruct err; [ | auto ].
  destruct l2 as [ | e3 l3]; simpl; [ discriminate | ].
  destruct e3; try discriminate; auto.
Qed.

Lemma viewsClosed_app (l l' : list event) :
  viewsClosed l = true -> viewsClosed l' = true -> viewsClosed (l ++ l') = true.
Proof.
  intros Hl Hl'. induction l as [ | e l IH]; simpl in *; [ exact Hl' | ].
  destruct e; auto.
  destruct r; auto.
  apply andb_true_iff in Hl. destruct Hl as [Hc Hl].
  apply andb_true_iff. split; [ apply closedAfter_app; exact Hc | auto ].
Qed.

(** The calls of one extraction close the view they were given. *)
Lemma extractAndCommit_closes
  (artifact : Artifact) (chainID : digest.Digest) (key : string)
  (mounts : list Mount) (opts : list Opt) (applyOpts : list diff.ApplyOpt)
  (s : state W) :
  exists r s' evs,
    extractAndCommit sn a artifact chainID key mounts opts applyOpts s = (Done r, s') /\
    log s' = log s ++ evs /\
    closedAfter key evs = true /\ viewsClosed evs = true.
Proof.
  pose proof (extractBody_run artifact chainID key mounts opts applyOpts s) as Hb.
  cbv zeta in Hb.
  destruct (a (Blob artifact) mounts applyOpts (world s)) as [[diff | err] w1].
  - destruct (negb (String.eqb (Digest diff) (Digest (Blob artifact)))).
    + rewrite (extractAndCommit_run _ _ _ _ _ _ _ _ _ Hb). simpl world.
      destruct (Remove sn key w1) as [rerr w'].
      do 3 eexists. split; [ reflexivity | ]. simpl log. rewrite <- app_assoc.
      split; [ reflexivity | ]. simpl. rewrite String.eqb_refl. auto.
    + destruct (Commit sn chainID key opts w1) as [[err | ] w2];
        rewrite (extractAndCommit_run _ _ _ _ _ _ _ _ _ Hb).
      * simpl world. destruct (Remove sn key w2) as [rerr w'].
        do 3 eexists. split; [ reflexivity | ]. simpl log. rewrite <- app_assoc.
        split; [ reflexivity | ]. simpl. rewrite String.eqb_refl. auto.
      * do 3 eexists. split; [ reflexivity | ].
        split; [ reflexivity | ]. simpl. rewrite String.eqb_refl. auto.
  - rewrite (extractAndCommit_run _ _ _ _ _ _ _ _ _ Hb). simpl world.
    destruct (Remove sn key w1) as [rerr w'].
    do 3 eexists. split; [ reflexivity | ]. simpl log. rewrite <- app_assoc.
    split; [ reflexivity | ]. simpl. rewrite String.eqb_refl. auto.
Qed.

Lemma prepareLoop_closed
  (recur : list Artifact -> list digest.Digest -> M W (option error))
  (Hrecur : forall arts ch, closedRun (recur arts ch)) (fuel : nat) :
  forall (artifacts : list Artifact) (chain : list digest.Digest)
         (parent chainID : digest.Digest) (opts : list Opt) (s : state W),
    exists evs,
      viewsClosed evs = true /\
      match prepareLoop sn entropy recur fuel artifacts chain parent chainID opts s with
      | (Done (Break key mounts), s') =>
          log s' = log s ++ evs ++ [EvPrepare key parent (Ok mounts)]
      | (_, s') => log s' = log s ++ evs
      end.
Proof.
  induction fuel as [ | fuel IH]; intros artifacts chain parent chainID opts s.
  - exists []. simpl. rewrite app_nil_r. auto.
  - destruct (uniquePart_run s) as (u & w1 & Hu).
    destruct (Prepare sn (UnpackKey u chainID) parent opts w1) as [r w2] eqn:Hp.
    rewrite (prepareLoop_turn recur fuel artifacts chain parent chainID opts s u w1 w2 r Hu Hp).
    cbv zeta.
    set (s2 := mkState w2 (log s ++ [EvPrepare (UnpackKey u chainID) parent r])).
    destruct r as [mounts | err].
    + exists []. split; reflexivity.
    + assert (Hnext : forall arts (s3 : state W) evs3,
                 log s3 = log s2 ++ evs3 -> viewsClosed evs3 = true ->
                 exists evs,
                   viewsClosed evs = true /\
                   match prepareLoop sn entropy recur fuel arts chain parent chainID opts s3 with
                   | (Done (Break key mounts), s') =>
                       log s' = log s ++ evs ++ [EvPrepare key parent (Ok mounts)]
                   | (_, s') => log s' = log s ++ evs
                   end).
      { intros arts s3 evs3 Hlog Hcl.
        destruct (IH arts chain parent chainID opts s3) as (evs4 & Hcl4 & H4).
        exists ((EvPrepare (UnpackKey u chainID) parent (Err err) :: evs3) ++ evs4).
        split.
        - apply viewsClosed_app; [ simpl; exact Hcl | exact Hcl4 ].
        - destruct (prepareLoop sn entropy recur fuel arts chain parent chainID opts s3)
            as [[[key mounts | e] | msg | ] s'];
            rewrite H4, Hlog; unfold s2; simpl log;
            rewrite <- ?app_assoc; reflexivity. }
      destruct (IsNotFound err && (1 <? List.length artifacts)%nat).
      * unfold bind.
        destruct (Hrecur (removelast artifacts) (removelast chain) s2) as (evs3 & Hlog3 & Hcl3).
        destruct (recur (removelast artifacts) (removelast chain) s2) as [[e | msg | ] s3];
          simpl snd in Hlog3.
        -- destruct e as [err' | ].
           ++ destruct (negb (IsAlreadyExists err')).
              ** exists (EvPrepare (UnpackKey u chainID) parent (Err err) :: evs3).
                 split; [ exact Hcl3 | ].
                 unfold ret. rewrite Hlog3. unfold s2. simpl log.
                 rewrite <- app_assoc. reflexivity.
              ** eapply Hnext; eassumption.
           ++ eapply Hnext; eassumption.
        -- exists (EvPrepare (UnpackKey u chainID) parent (Err err) :: evs3).
           split; [ exact Hcl3 | ].
           rewrite Hlog3. unfold s2. simpl log. rewrite <- app_assoc. reflexivity.
        -- exists (EvPrepare (UnpackKey u chainID) parent (Err err) :: evs3).
           split; [ exact Hcl3 | ].
           rewrite Hlog3. unfold s2. simpl log. rewrite <- app_assoc. reflexivity.
      * destruct (IsAlreadyExists err).
        -- apply (Hnext artifacts s2 []); [ rewrite app_nil_r; reflexivity | reflexivity ].
        -- exists [EvPrepare (UnpackKey u chainID) parent (Err err)].
           split; reflexivity.
Qed.

Lemma applyArtifacts_closed (fuel : nat) :
  forall (artifacts : list Artifact) (chain : list digest.Digest)
         (opts : list Opt) (applyOpts : list diff.ApplyOpt),
    closedRun (applyArtifacts ChainID sn a entropy fuel artifacts chain opts applyOpts).
Proof.
  induction fuel as [ | fuel IH]; intros artifacts chain opts applyOpts s.
  - exists []. simpl. rewrite app_nil_r. auto.
  - destruct chain as [ | c0 crest].
    { exists []. simpl. rewrite app_nil_r. auto. }
    destruct artifacts as [ | a0 rest].
    { exists []. simpl. rewrite app_nil_r. auto. }
    destruct (prepareLoop_closed
                (fun arts ch => applyArtifacts ChainID sn a entropy fuel arts ch opts applyOpts)
                (fun arts ch => IH arts ch opts applyOpts) fuel
                (a0 :: rest) (c0 :: crest) (ChainID (removelast (c0 :: crest)))
                (ChainID (c0 :: crest)) opts s) as (evs & Hcl & Hloop).
    destruct (prepareLoop sn entropy
                (fun arts ch => applyArtifacts ChainID sn a entropy fuel arts ch opts applyOpts)
                fuel (a0 :: rest) (c0 :: crest) (ChainID (removelast (c0 :: crest)))
                (ChainID (c0 :: crest)) opts s) as [[[key mounts | e] | msg | ] s1] eqn:Hrun.
    + rewrite (applyArtifacts_after_break fuel a0 rest c0 crest opts applyOpts s s1 key mounts Hrun).
      destruct (extractAndCommit_closes (last rest a0) (ChainID (c0 :: crest)) key mounts
                                        opts applyOpts s1)
        as (r & s' & tail & Hx & Hlog & Hca & Hvc).
      rewrite Hx. simpl snd.
      exists (evs ++ EvPrepare key (ChainID (removelast (c0 :: crest))) (Ok mounts) :: tail).
      split.
      * rewrite Hlog, Hloop. rewrite <- !app_assoc. reflexivity.
      * apply viewsClosed_app; [ exact Hcl | ].
        simpl. rewrite Hca, Hvc. reflexivity.
    + exists evs. split; [ | exact Hcl ].
      rewrite applyArtifacts_S. unfold bind. rewrite Hrun. exact Hloop.
    + exists evs. split; [ | exact Hcl ].
      rewrite applyArtifacts_S. unfold bind. rewrite Hrun. exact Hloop.
    + exists evs. split; [ | exact Hcl ].
      rewrite applyArtifacts_S. unfold bind. rewrite Hrun. exact Hloop.
Qed.

(** C4.  After a successful prepare of [key], the build attempt (the body
    followed by the deferred cleanup) always returns, and:
    - it fails exactly when the body fails, which is a Diff Applier
      failure, a digest mismatch or a commit failure; then the last call
      made is the removal of [key], and the error returned is the body's
      error whatever that removal answers;
    - it succeeds exactly when the commit of [key] succeeded, and then
      nothing is removed.
    Hence in the calls of any run of [applyArtifacts], however it ends,
    every view that was prepared is committed or removed by the attempt
    that prepared it. *)
Theorem failure_after_prepare_removes_the_view
  (fuel : nat) (artifacts : list Artifact) (chain : list digest.Digest)
  (artifact : Artifact) (chainID : digest.Digest) (key : string)
  (mounts : list Mount) (opts : list Opt) (applyOpts : list diff.ApplyOpt)
  (s : state W) :
  (exists r s1,
     extractBody sn a artifact chainID key mounts opts applyOpts s = (Done r, s1) /\
     match r with
     | None =>
         extractAndCommit sn a artifact chainID key mounts opts applyOpts s
         = (Done None, s1) /\
         exists diff,
           log s1 = log s ++ [EvApply (Blob artifact) mounts (Ok diff);
                              EvCommit chainID key None]
     | Some err =>
         extractAndCommit sn a artifact chainID key mounts opts applyOpts s
         = (Done (Some err),
            mkState (snd (Remove sn key (world s1)))
                    (log s1 ++ [EvRemove key (fst (Remove sn key (world s1)))])) /\
         ((exists e, err = Wrapf "failed to extract layer %s: %w"
                                 [Digest (Blob artifact)] e) \/
          (exists d, err = Errorf "wrong diff id calculated on extraction %q" [d]) \/
          (exists e, err = Wrapf "failed to commit snapshot %s: %w" [key] e))
     end) /\
  (exists evs,
     log (snd (applyArtifacts ChainID sn a entropy fuel artifacts chain opts applyOpts s))
     = log s ++ evs /\
     viewsClosed evs = true).
Proof.
  split; [ | apply applyArtifacts_closed ].
  pose proof (extractBody_run artifact chainID key mounts opts applyOpts s) as Hb.
  cbv zeta in Hb.
  assert (Hdefer : forall err s1,
             extractBody sn a artifact chainID key mounts opts applyOpts s
             = (Done (Some err), s1) ->
             extractAndCommit sn a artifact chainID key mounts opts applyOpts s
             = (Done (Some err),
                mkState (snd (Remove sn key (world s1)))
                        (log s1 ++ [EvRemove key (fst (Remove sn key (world s1)))]))).
  { intros err s1 H. rewrite (extractAndCommit_run _ _ _ _ _ _ _ _ _ H).
    destruct (Remove sn key (world s1)); reflexivity. }
  destruct (a (Blob artifact) mounts applyOpts (world s)) as [[diff | err] w1].
  - destruct (negb (String.eqb (Digest diff) (Digest (Blob artifact)))).
    + do 2 eexists. split; [ exact Hb | ]. split; [ apply Hdefer; exact Hb | ].
      right; left. eauto.
    + destruct (Commit sn chainID key opts w1) as [[err | ] w2].
      * do 2 eexists. split; [ exact Hb | ]. split; [ apply Hdefer; exact Hb | ].
        right; right. eauto.
      * do 2 eexists. split; [ exact Hb | ].
        split; [ exact (extractAndCommit_run _ _ _ _ _ _ _ _ _ Hb) | ].
        exists diff. reflexivity.
  - do 2 eexists. split; [ exact Hb | ]. split; [ apply Hdefer; exact Hb | ].
    left. eauto.
Qed.

(** An Already-Exists answer to a prepare: the loop takes another turn. *)
Lemma prepareLoop_retries
  (recur : list Artifact -> list digest.Digest -> M W (option error))
  (fuel : nat) (artifacts : list Artifact) (chain : list digest.Digest)
  (parent chainID : digest.Digest) (opts : list Opt)
  (s : state W) (u : string) (w1 w2 : W) (err : error) :
  uniquePart entropy s = (Done u, mkState w1 (log s)) ->
  Prepare sn (UnpackKey u chainID) parent opts w1 = (Err err, w2) ->
  IsAlreadyExists err = true ->
  prepareLoop sn entropy recur (S fuel) artifacts chain parent chainID opts s
  = prepareLoop sn entropy recur fuel artifacts chain parent chainID opts
      (mkState w2 (log s ++ [EvPrepare (UnpackKey u chainID) parent (Err err)])).
Proof.
  intros Hu Hp Hae.
  rewrite (prepareLoop_turn recur fuel artifacts chain parent chainID opts s u w1 w2 _ Hu Hp).
  cbv zeta. rewrite (AlreadyExists_not_NotFound err Hae), Hae. reflexivity.
Qed.

(** An Already-Exists answer to the commit: the view is removed and the
    error returned is still an Already-Exists error. *)
Lemma extractAndCommit_lost_race
  (artifact : Artifact) (chainID : digest.Digest) (key : string)
  (mounts : list Mount) (opts : list Opt) (applyOpts : list diff.ApplyOpt)
  (s : state W) (diff : Descriptor) (w1 w2 : W) (err : error) :
  a (Blob artifact) mounts applyOpts (world s) = (Ok diff, w1) ->
  Digest diff = Digest (Blob artifact) ->
  Commit sn chainID key opts w1 = (Some err, w2) ->
  IsAlreadyExists err = true ->
  extractAndCommit sn a artifact chainID key mounts opts applyOpts s
  = (Done (Some (Wrapf "failed to commit snapshot %s: %w" [key] err)),
     mkState (snd (Remove sn key w2))
             (log s ++ [EvApply (Blob artifact) mounts (Ok diff);
                        EvCommit chainID key (Some err);
                        EvRemove key (fst (Remove sn key w2))])) /\
  IsAlreadyExists (Wrapf "failed to commit snapshot %s: %w" [key] err) = true.
Proof.
  intros Ha Hd Hc Hae. split; [ | exact Hae ].
  pose proof (extractBody_run artifact chainID key mounts opts applyOpts s) as Hb.
  cbv zeta in Hb. rewrite Ha, Hd, String.eqb_refl in Hb. simpl negb in Hb. cbv iota in Hb.
  rewrite Hc in Hb.
  rewrite (extractAndCommit_run _ _ _ _ _ _ _ _ _ Hb). simpl world.
  destruct (Remove sn key w2) as [rerr w']. simpl. rewrite <- app_assoc. reflexivity.
Qed.

(** What the two entry points make of the result of [applyArtifacts], once
    the stat has answered Not-Found. *)
Lemma ApplyArtifactWithOpts_after_stat
  (fuel : nat) (artifact : Artifact) (chain : list digest.Digest)
  (opts : list Opt) (applyOpts : list diff.ApplyOpt)
  (s : state W) (e0 : error) (w1 : W) :
  let chain' := chain ++ [Digest (Blob artifact)] in
  Stat sn (ChainID chain') (world s) = (Some e0, w1) ->
  IsNotFound e0 = true ->
  ApplyArtifactWithOpts ChainID sn a entropy fuel artifact chain opts applyOpts s
  = bind (applyArtifacts ChainID sn a entropy fuel [artifact] chain' opts applyOpts)
         (fun r => match r with
                   | Some err' =>
                       if negb (IsAlreadyExists err') then ret (false, Some err')
                       else ret (false, None)
                   | None => ret (true, None)
                   end)
         (mkState w1 (log s ++ [EvStat (ChainID chain') (Some e0)])).
Proof.
  cbv zeta. intros Hs Hnf. unfold ApplyArtifactWithOpts, snStat.
  rewrite (bind_run _ (call_run _ _ s Hs)). rewrite Hnf. reflexivity.
Qed.

Lemma ApplyArtifactsWithOpts_after_stat
  (fuel : nat) (artifacts : list Artifact) (applyOpts : list diff.ApplyOpt)
  (s : state W) (e0 : error) (w1 : W) :
  let chain := map (fun x => Digest (Blob x)) artifacts in
  Stat sn (ChainID chain) (world s) = (Some e0, w1) ->
  IsNotFound e0 = true ->
  ApplyArtifactsWithOpts ChainID sn a entropy fuel artifacts applyOpts s
  = bind (applyArtifacts ChainID sn a entropy fuel artifacts chain [] applyOpts)
         (fun r => match r with
                   | Some err' =>
                       if negb (IsAlreadyExists err') then ret (Err err')
                       else ret (Ok (ChainID chain))
                   | None => ret (Ok (ChainID chain))
                   end)
         (mkState w1 (log s ++ [EvStat (ChainID chain) (Some e0)])).
Proof.
  cbv zeta. intros Hs Hnf. unfold ApplyArtifactsWithOpts, snStat.
  rewrite (bind_run _ (call_run _ _ s Hs)). rewrite Hnf. reflexivity.
Qed.

(** C6, amended.  An Already-Exists answer to a prepare or to a commit is
    never reported to the caller of the Chain Builder, but the two calls
    differ in what follows it:
    - answered to a prepare, it makes the loop take another turn: a new
      unique part is drawn and the prepare is tried again under the new
      key, with the same artifacts; when that prepare succeeds the build
      goes on to the extraction and the commit under the new key;
    - answered to the commit, it makes the attempt remove its view and
      return an error that is still Already-Exists.  When this is the
      attempt for the requested chain, so that [applyArtifacts] returns
      such an error to the entry point, [ApplyArtifactWithOpts] returns
      (false, nil) and [ApplyArtifactsWithOpts] returns the chain ID with
      a nil error, without a further call.  When it is the build of an
      ancestor, so that the recursive call returns such an error to the
      loop, the loop takes the ancestor for built and goes on with no
      artifacts left, to prepare the requested layer again.
    An error of an entry point that is an Already-Exists error can only be
    the wrapped answer of its stat, which this claim is not about. *)
Theorem already_exists_is_retried_or_success
  (recur : list Artifact -> list digest.Digest -> M W (option error))
  (fuel : nat) (artifacts : list Artifact) (artifact : Artifact)
  (chain : list digest.Digest) (parent chainID : digest.Digest)
  (key : string) (mounts : list Mount)
  (opts : list Opt) (applyOpts : list diff.ApplyOpt)
  (s s2 : state W) (u : string) (w1 w2 : W) (diff : Descriptor)
  (err e0 : error) :
  IsAlreadyExists err = true ->
  (uniquePart entropy s = (Done u, mkState w1 (log s)) ->
   Prepare sn (UnpackKey u chainID) parent opts w1 = (Err err, w2) ->
   prepareLoop sn entropy recur (S fuel) artifacts chain parent chainID opts s
   = prepareLoop sn entropy recur fuel artifacts chain parent chainID opts
       (mkState w2 (log s ++ [EvPrepare (UnpackKey u chainID) parent (Err err)]))) /\
  (a (Blob artifact) mounts applyOpts (world s) = (Ok diff, w1) ->
   Digest diff = Digest (Blob artifact) ->
   Commit sn chainID key opts w1 = (Some err, w2) ->
   extractAndCommit sn a artifact chainID key mounts opts applyOpts s
   = (Done (Some (Wrapf "failed to commit snapshot %s: %w" [key] err)),
      mkState (snd (Remove sn key w2))
              (log s ++ [EvApply (Blob artifact) mounts (Ok diff);
                         EvCommit chainID key (Some err);
                         EvRemove key (fst (Remove sn key w2))])) /\
   IsAlreadyExists (Wrapf "failed to commit snapshot %s: %w" [key] err) = true) /\
  (let chain' := chain ++ [Digest (Blob artifact)] in
   Stat sn (ChainID chain') (world s) = (Some e0, w1) ->
   IsNotFound e0 = true ->
   applyArtifacts ChainID sn a entropy fuel [artifact] chain' opts applyOpts
     (mkState w1 (log s ++ [EvStat (ChainID chain') (Some e0)]))
   = (Done (Some err), s2) ->
   ApplyArtifactWithOpts ChainID sn a entropy fuel artifact chain opts applyOpts s
   = (Done (false, None), s2)) /\
  (let chain' := map (fun x => Digest (Blob x)) artifacts in
   Stat sn (ChainID chain') (world s) = (Some e0, w1) ->
   IsNotFound e0 = true ->
   applyArtifacts ChainID sn a entropy fuel artifacts chain' [] applyOpts
     (mkState w1 (log s ++ [EvStat (ChainID chain') (Some e0)]))
   = (Done (Some err), s2) ->
   ApplyArtifactsWithOpts ChainID sn a entropy fuel artifacts applyOpts s
   = (Done (Ok (ChainID chain')), s2)) /\
  (forall (missing : error) (s3 : state W),
     uniquePart entropy s = (Done u, mkState w1 (log s)) ->
     Prepare sn (UnpackKey u chainID) parent opts w1 = (Err missing, w2) ->
     IsNotFound missing = true ->
     (1 < List.length artifacts)%nat ->
     recur (removelast artifacts) (removelast chain)
           (mkState w2 (log s ++ [EvPrepare (UnpackKey u chainID) parent (Err missing)]))
     = (Done (Some err), s3) ->
     prepareLoop sn entropy recur (S fuel) artifacts chain parent chainID opts s
     = prepareLoop sn entropy recur fuel [] chain parent chainID opts s3) /\
  (forall (a0 : Artifact) (rest : list Artifact) (c0 : digest.Digest)
          (crest : list digest.Digest) (u' : string) (w3 w4 : W) (mounts' : list Mount),
     let parent' := ChainID (removelast (c0 :: crest)) in
     let chainID' := ChainID (c0 :: crest) in
     let refused := EvPrepare (UnpackKey u chainID') parent' (Err err) in
     uniquePart entropy s = (Done u, mkState w1 (log s)) ->
     Prepare sn (UnpackKey u chainID') parent' opts w1 = (Err err, w2) ->
     uniquePart entropy (mkState w2 (log s ++ [refused]))
     = (Done u', mkState w3 (log s ++ [refused])) ->
     Prepare sn (UnpackKey u' chainID') parent' opts w3 = (Ok mounts', w4) ->
     applyArtifacts ChainID sn a entropy (S (S (S fuel))) (a0 :: rest) (c0 :: crest)
                    opts applyOpts s
     = extractAndCommit sn a (last rest a0) chainID' (UnpackKey u' chainID') mounts'
         opts applyOpts
         (mkState w4 (log s ++ [refused;
                                EvPrepare (UnpackKey u' chainID') parent' (Ok mounts')]))) /\
  (let chainID' := ChainID (map (fun x => Digest (Blob x)) artifacts) in
   forall reported : error,
     fst (ApplyArtifactsWithOpts ChainID sn a entropy fuel artifacts applyOpts s)
     = Done (Err reported) ->
     IsAlreadyExists reported = true ->
     exists answer,
       fst (Stat sn chainID' (world s)) = Some answer /\
       reported = Wrapf "failed to stat snapshot %s: %w" [chainID'] answer) /\
  (let chainID' := ChainID (chain ++ [Digest (Blob artifact)]) in
   forall (applied : bool) (reported : error),
     fst (ApplyArtifactWithOpts ChainID sn a entropy fuel artifact chain opts applyOpts s)
     = Done (applied, Some reported) ->
     IsAlreadyExists reported = true ->
     exists answer,
       fst (Stat sn chainID' (world s)) = Some answer /\
       reported = Wrapf "failed to stat snapshot %s: %w" [chainID'] answer).
Proof.
  intros Hae.
  split; [ | split; [ | split; [ | split; [ | split; [ | split; [ | split ] ] ] ] ] ].
  - intros Hu Hp.
    exact (prepareLoop_retries recur fuel artifacts chain parent chainID opts s u w1 w2 err
             Hu Hp Hae).
  - intros Ha Hd Hc.
    exact (extractAndCommit_lost_race artifact chainID key mounts opts applyOpts s diff
             w1 w2 err Ha Hd Hc Hae).
  - cbv zeta. intros Hs Hnf Hrun.
    rewrite (ApplyArtifactWithOpts_after_stat fuel artifact chain opts applyOpts s e0 w1 Hs Hnf).
    rewrite (bind_run _ Hrun). rewrite Hae. reflexivity.
  - cbv zeta. intros Hs Hnf Hrun.
    rewrite (ApplyArtifactsWithOpts_after_stat fuel artifacts applyOpts s e0 w1 Hs Hnf).
    rewrite (bind_run _ Hrun). rewrite Hae. reflexivity.
  - intros missing s3 Hu Hp Hnf Hlt Hrecur.
    rewrite (prepareLoop_turn recur fuel artifacts chain parent chainID opts s u w1 w2
               (Err missing) Hu Hp).
    cbv zeta. apply Nat.ltb_lt in Hlt. rewrite Hnf, Hlt. simpl andb. cbv iota.
    rewrite (bind_run _ Hrecur). rewrite Hae. reflexivity.
  - intros a0 rest c0 crest u' w3 w4 mounts'. cbv zeta. intros Hu Hp Hu' Hp'.
    apply (applyArtifacts_after_break (S (S fuel)) a0 rest c0 crest opts applyOpts s).
    rewrite (prepareLoop_retries _ (S fuel) (a0 :: rest) (c0 :: crest) _ _ opts s u w1 w2 err
               Hu Hp Hae).
    rewrite (prepareLoop_turn _ fuel (a0 :: rest) (c0 :: crest) _ _ opts _ u' w3 w4
               (Ok mounts') Hu' Hp').
    cbv zeta. simpl log. rewrite <- app_assoc. reflexivity.
  - cbv zeta. intros reported Hrun Hrep.
    destruct (Stat sn (ChainID (map (fun x => Digest (Blob x)) artifacts)) (world s))
      as [[answer | ] w1'] eqn:Hstat.
    + destruct (IsNotFound answer) eqn:Hnf.
      * exfalso.
        rewrite (ApplyArtifactsWithOpts_after_stat fuel artifacts applyOpts s answer w1'
                   Hstat Hnf) in Hrun.
        unfold bind in Hrun.
        destruct (applyArtifacts ChainID sn a entropy fuel artifacts _ [] applyOpts _)
          as [[[err' | ] | msg | ] s'] in Hrun; try discriminate.
        destruct (IsAlreadyExists err') eqn:Hae'; simpl in Hrun; [ discriminate | ].
        inversion Hrun; subst reported. rewrite Hae' in Hrep. discriminate.
      * exists answer. split; [ reflexivity | ].
        unfold ApplyArtifactsWithOpts, snStat in Hrun.
        rewrite (bind_run _ (call_run _ _ s Hstat)) in Hrun. rewrite Hnf in Hrun.
        simpl in Hrun. inversion Hrun. reflexivity.
    + exfalso. unfold ApplyArtifactsWithOpts, snStat in Hrun.
      rewrite (bind_run _ (call_run _ _ s Hstat)) in Hrun. discriminate.
  - cbv zeta. intros applied reported Hrun Hrep.
    destruct (Stat sn (ChainID (chain ++ [Digest (Blob artifact)])) (world s))
      as [[answer | ] w1'] eqn:Hstat.
    + destruct (IsNotFound answer) eqn:Hnf.
      * exfalso.
        rewrite (ApplyArtifactWithOpts_after_stat fuel artifact chain opts applyOpts s
                   answer w1' Hstat Hnf) in Hrun.
        unfold bind in Hrun.
        destruct (applyArtifacts ChainID sn a entropy fuel [artifact] _ opts applyOpts _)
          as [[[err' | ] | msg | ] s'] in Hrun; try discriminate.
        destruct (IsAlreadyExists err') eqn:Hae'; simpl in Hrun; [ discriminate | ].
        inversion Hrun; subst reported. rewrite Hae' in Hrep. discriminate.
      * exists answer. split; [ reflexivity | ].
        unfold ApplyArtifactWithOpts, snStat in Hrun.
        rewrite (bind_run _ (call_run _ _ s Hstat)) in Hrun. rewrite Hnf in Hrun.
        simpl in Hrun. inversion Hrun. reflexivity.
    + exfalso. unfold ApplyArtifactWithOpts, snStat in Hrun.
      rewrite (bind_run _ (call_run _ _ s Hstat)) in Hrun. discriminate.
Qed.

(** The turn of the loop that finds the parent missing, when at least two
    artifacts were given. *)
Lemma applyArtifacts_builds_parent
  (fuel : nat) (a0 a1 : Artifact) (rest : list Artifact) (c0 : digest.Digest)
  (crest : list digest.Digest) (opts : list Opt) (applyOpts : list diff.ApplyOpt)
  (s : state W) (u : string) (w1 w2 : W) (err : error) :
  let artifacts := a0 :: a1 :: rest in
  let chain := c0 :: crest in
  let parent := ChainID (removelast chain) in
  let chainID := ChainID chain in
  let key := UnpackKey u chainID in
  let recur := fun arts ch =>
                 applyArtifacts ChainID sn a entropy (S fuel) arts ch opts applyOpts in
  let retry :=
    bind (prepareLoop sn entropy recur fuel [] chain parent chainID opts)
         (fun x => match x with
                   | Return e => ret (Some e)
                   | Break k m =>
                       extractAndCommit sn a (last (a1 :: rest) a0) chainID k m
                                        opts applyOpts
                   end) in
  uniquePart entropy s = (Done u, mkState w1 (log s)) ->
  Prepare sn key parent opts w1 = (Err err, w2) ->
  IsNotFound err = true ->
  applyArtifacts ChainID sn a entropy (S (S fuel)) artifacts chain opts applyOpts s
  = bind (applyArtifacts ChainID sn a entropy (S fuel)
            (removelast artifacts) (removelast chain) opts applyOpts)
         (fun e => match e with
                   | Some err' =>
                       if negb (IsAlreadyExists err') then ret (Some err') else retry
                   | None => retry
                   end)
         (mkState w2 (log s ++ [EvPrepare key parent (Err err)])).
Proof.
  cbv zeta. intros Hu Hp Hnf.
  rewrite applyArtifacts_S.
  pose proof (prepareLoop_turn
                (fun arts ch =>
                   applyArtifacts ChainID sn a entropy (S fuel) arts ch opts applyOpts)
                fuel (a0 :: a1 :: rest) (c0 :: crest) (ChainID (removelast (c0 :: crest)))
                (ChainID (c0 :: crest)) opts s u w1 w2 _ Hu Hp) as Ht.
  cbv beta iota zeta in Ht. rewrite Hnf in Ht.
  change ((1 <? List.length (a0 :: a1 :: rest))%nat) with true in Ht.
  simpl andb in Ht. cbv iota in Ht.
  rewrite (bind_from _ _ _ _ _ Ht).
  rewrite bind_assoc_run. apply bind_then.
  intros [err' | ] s'; [ | reflexivity ].
  destruct (negb (IsAlreadyExists err')); reflexivity.
Qed.

(** With no artifacts left (after the ancestors were built, or when one
    artifact was given), a Not-Found answer to the prepare is returned. *)
Lemma prepareLoop_gives_up
  (recur : list Artifact -> list digest.Digest -> M W (option error))
  (fuel : nat) (artifacts : list Artifact) (chain : list digest.Digest)
  (parent chainID : digest.Digest) (opts : list Opt)
  (s : state W) (u : string) (w1 w2 : W) (err : error) :
  (List.length artifacts <= 1)%nat ->
  uniquePart entropy s = (Done u, mkState w1 (log s)) ->
  Prepare sn (UnpackKey u chainID) parent opts w1 = (Err err, w2) ->
  IsNotFound err = true ->
  prepareLoop sn entropy recur (S fuel) artifacts chain parent chainID opts s
  = (Done (Return (Wrapf "failed to prepare extraction snapshot %q: %w"
                         [UnpackKey u chainID] err)),
     mkState w2 (log s ++ [EvPrepare (UnpackKey u chainID) parent (Err err)])).
Proof.
  intros Hlen Hu Hp Hnf.
  rewrite (prepareLoop_turn recur fuel artifacts chain parent chainID opts s u w1 w2 _ Hu Hp).
  cbv zeta.
  assert (Hlt : (1 <? List.length artifacts)%nat = false) by (apply Nat.ltb_ge; exact Hlen).
  rewrite Hlt, andb_false_r.
  destruct (IsAlreadyExists err) eqn:Hae; [ | reflexivity ].
  rewrite (AlreadyExists_not_NotFound err Hae) in Hnf. discriminate.
Qed.

(** C5, amended.  [applyArtifacts] given at least two artifacts, at a
    prepare of the last layer that the snapshotter answers with Not-Found:
    it first runs itself on all but the last artifact and all but the last
    digest of the chain; if that returns nil or an Already-Exists error it
    goes back to the loop with no artifacts left, so that the prepare is
    tried again under a new key and the layer extracted is the last of the
    artifacts given; another error of the recursive build is returned as it
    is.  In a loop that has at most one artifact (after that build, or when
    a single artifact was passed, as [ApplyArtifactWithOpts] does) a
    Not-Found answer is not repaired: the loop returns "failed to prepare
    extraction snapshot".  On the example of the design, run on the world
    in memory: with a Snapshot for [d0] only, [ApplyArtifactsWithOpts] on
    [d0, d1, d2] returns the chain ID and leaves the Snapshots of [d0],
    [d0, d1] and [d0, d1, d2], each on the one before, having extracted
    [d1] and [d2] only. *)
Theorem missing_parent_is_built_when_several_artifacts
  (recur : list Artifact -> list digest.Digest -> M W (option error))
  (fuel : nat) (a0 a1 : Artifact) (rest artifacts : list Artifact)
  (c0 : digest.Digest) (crest chain : list digest.Digest)
  (parent chainID : digest.Digest)
  (opts : list Opt) (applyOpts : list diff.ApplyOpt)
  (s : state W) (u : string) (w1 w2 : W) (err : error) :
  IsNotFound err = true ->
  uniquePart entropy s = (Done u, mkState w1 (log s)) ->
  (Prepare sn (UnpackKey u (ChainID (c0 :: crest))) (ChainID (removelast (c0 :: crest)))
           opts w1 = (Err err, w2) ->
   applyArtifacts ChainID sn a entropy (S (S fuel)) (a0 :: a1 :: rest) (c0 :: crest)
                  opts applyOpts s
   = bind (applyArtifacts ChainID sn a entropy (S fuel)
             (removelast (a0 :: a1 :: rest)) (removelast (c0 :: crest)) opts applyOpts)
          (fun e =>
             let retry :=
               bind (prepareLoop sn entropy
                       (fun arts ch => applyArtifacts ChainID sn a entropy (S fuel)
                                                      arts ch opts applyOpts)
                       fuel [] (c0 :: crest) (ChainID (removelast (c0 :: crest)))
                       (ChainID (c0 :: crest)) opts)
                    (fun x => match x with
                              | Return e' => ret (Some e')
                              | Break k m =>
                                  extractAndCommit sn a (last (a1 :: rest) a0)
                                    (ChainID (c0 :: crest)) k m opts applyOpts
                              end) in
             match e with
             | Some err' => if negb (IsAlreadyExists err') then ret (Some err') else retry
             | None => retry
             end)
          (mkState w2 (log s ++ [EvPrepare (UnpackKey u (ChainID (c0 :: crest)))
                                           (ChainID (removelast (c0 :: crest)))
                                           (Err err)]))) /\
  ((List.length artifacts <= 1)%nat ->
   Prepare sn (UnpackKey u chainID) parent opts w1 = (Err err, w2) ->
   prepareLoop sn entropy recur (S fuel) artifacts chain parent chainID opts s
   = (Done (Return (Wrapf "failed to prepare extraction snapshot %q: %w"
                          [UnpackKey u chainID] err)),
      mkState w2 (log s ++ [EvPrepare (UnpackKey u chainID) parent (Err err)]))) /\
  (let w0 := Mem.mkWorld [Mem.mkEntry (Mem.ChainID ["d0"]) Mem.Committed ""] 0
               [("d0", "a"); ("d1", "b"); ("d2", "c")] "" "" [] [] in
   let run := ApplyArtifactsWithOpts Mem.ChainID Mem.store (Apply (Mem.host false))
                Mem.entropy 6 [Mem.layer "d0"; Mem.layer "d1"; Mem.layer "d2"] []
                (Mem.start w0) in
   fst run = Done (Ok (Mem.ChainID ["d0"; "d1"; "d2"])) /\
   map Mem.name (Mem.snaps (world (snd run)))
   = [Mem.ChainID ["d0"]; Mem.ChainID ["d0"; "d1"]; Mem.ChainID ["d0"; "d1"; "d2"]] /\
   map Mem.parent (Mem.snaps (world (snd run)))
   = [""; Mem.ChainID ["d0"]; Mem.ChainID ["d0"; "d1"]] /\
   map (fun ev => match ev with EvApply desc _ _ => Digest desc | _ => "" end)
       (filter isApply (log (snd run)))
   = ["d1"; "d2"]).
Proof.
  intros Hnf Hu. split; [ | split ].
  - intros Hp.
    exact (applyArtifacts_builds_parent fuel a0 a1 rest c0 crest opts applyOpts s u w1 w2 err
             Hu Hp Hnf).
  - intros Hlen Hp.
    exact (prepareLoop_gives_up recur fuel artifacts chain parent chainID opts s u w1 w2 err
             Hlen Hu Hp Hnf).
  - cbv zeta. repeat split.
Qed.

Lemma prepares_are_builder_events (l : list event) :
  forallb isPrepare l = true ->
  forallb builderEvent l = true /\ existsb committedEvent l = false.
Proof.
  induction l as [ | ev l IH]; simpl; [ auto | ].
  intros H. apply andb_true_iff in H. destruct H as [Hev Hl].
  destruct (IH Hl) as [IH1 IH2]. rewrite IH1, IH2.
  destruct ev; try discriminate. auto.
Qed.

(** A loop that has at most one artifact makes only prepares. *)
Lemma prepareLoop_single
  (recur : list Artifact -> list digest.Digest -> M W (option error)) (fuel : nat) :
  forall (artifacts : list Artifact) (chain : list digest.Digest)
         (parent chainID : digest.Digest) (opts : list Opt) (s : state W),
    (List.length artifacts <= 1)%nat ->
    exists pre,
      forallb isPrepare pre = true /\
      match prepareLoop sn entropy recur fuel artifacts chain parent chainID opts s with
      | (Done (Break key mounts), s') =>
          log s' = log s ++ pre ++ [EvPrepare key parent (Ok mounts)]
      | (_, s') => log s' = log s ++ pre
      end.
Proof.
  induction fuel as [ | fuel IH]; intros artifacts chain parent chainID opts s Hlen.
  - exists []. simpl. rewrite app_nil_r. auto.
  - destruct (uniquePart_run s) as (u & w1 & Hu).
    destruct (Prepare sn (UnpackKey u chainID) parent opts w1) as [r w2] eqn:Hp.
    rewrite (prepareLoop_turn recur fuel artifacts chain parent chainID opts s u w1 w2 r Hu Hp).
    cbv zeta.
    destruct r as [mounts | err].
    + exists []. split; reflexivity.
    + assert (Hlt : (1 <? List.length artifacts)%nat = false) by (apply Nat.ltb_ge; exact Hlen).
      rewrite Hlt, andb_false_r.
      destruct (IsAlreadyExists err).
      * destruct (IH artifacts chain parent chainID opts
                     (mkState w2 (log s ++ [EvPrepare (UnpackKey u chainID) parent (Err err)]))
                     Hlen) as (pre & Hpre & Hrun).
        exists (EvPrepare (UnpackKey u chainID) parent (Err err) :: pre).
        split; [ exact Hpre | ].
        destruct (prepareLoop sn entropy recur fuel artifacts chain parent chainID opts _)
          as [[[key mounts | e] | msg | ] s'];
          rewrite Hrun; simpl log; rewrite <- ?app_assoc; reflexivity.
      * exists [EvPrepare (UnpackKey u chainID) parent (Err err)]. split; reflexivity.
Qed.

(** The calls of [applyArtifacts] on a single artifact, by how it ends. *)
Lemma applyArtifacts_single
  (fuel : nat) (artifact : Artifact) (chain : list digest.Digest)
  (opts : list Opt) (applyOpts : list diff.ApplyOpt) (s : state W) :
  exists evs,
    log (snd (applyArtifacts ChainID sn a entropy fuel [artifact] chain opts applyOpts s))
    = log s ++ evs /\
    forallb builderEvent evs = true /\
    match fst (applyArtifacts ChainID sn a entropy fuel [artifact] chain opts applyOpts s) with
    | Done None =>
        exists pre key mounts diff,
          evs = pre ++ [EvPrepare key (ChainID (removelast chain)) (Ok mounts);
                        EvApply (Blob artifact) mounts (Ok diff);
                        EvCommit (ChainID chain) key None] /\
          Digest diff = Digest (Blob artifact) /\
          forallb isPrepare pre = true
    | _ => existsb committedEvent evs = false
    end.
Proof.
  destruct fuel as [ | fuel].
  { exists []. simpl. rewrite app_nil_r. auto. }
  destruct chain as [ | c0 crest].
  { exists []. simpl. rewrite app_nil_r. auto. }
  rewrite applyArtifacts_S.
  destruct (prepareLoop_single
              (fun arts ch => applyArtifacts ChainID sn a entropy fuel arts ch opts applyOpts)
              fuel [artifact] (c0 :: crest) (ChainID (removelast (c0 :: crest)))
              (ChainID (c0 :: crest)) opts s (le_n 1)) as (pre & Hpre & Hloop).
  destruct (prepares_are_builder_events pre Hpre) as [Hb Hc].
  unfold bind at 1 2.
  destruct (prepareLoop sn entropy _ fuel [artifact] (c0 :: crest) _ _ opts s)
    as [[[key mounts | e] | msg | ] s1].
  2-4: exists pre; simpl; auto.
  change (last [] artifact) with artifact.
  pose proof (extractBody_run artifact (ChainID (c0 :: crest)) key mounts opts applyOpts s1)
    as Hbody.
  cbv zeta in Hbody.
  destruct (a (Blob artifact) mounts applyOpts (world s1)) as [[diff | err] w1].
  - destruct (String.eqb (Digest diff) (Digest (Blob artifact))) eqn:Hd; simpl negb in Hbody;
      cbv iota in Hbody.
    + destruct (Commit sn (ChainID (c0 :: crest)) key opts w1) as [[err | ] w2];
        rewrite (extractAndCommit_run _ _ _ _ _ _ _ _ _ Hbody).
      * simpl world. destruct (Remove sn key w2) as [rerr w'].
        eexists. simpl fst. simpl snd. simpl log. rewrite Hloop.
        rewrite <- !app_assoc. split; [ reflexivity | ].
        rewrite !forallb_app, !existsb_app, Hb, Hc. simpl. auto.
      * eexists. simpl fst. simpl snd. simpl log. rewrite Hloop.
        rewrite <- !app_assoc. split; [ reflexivity | ].
        rewrite !forallb_app, Hb. split; [ reflexivity | ].
        exists pre, key, mounts, diff.
        split; [ reflexivity | ]. split; [ apply String.eqb_eq; exact Hd | exact Hpre ].
    + rewrite (extractAndCommit_run _ _ _ _ _ _ _ _ _ Hbody).
      simpl world. destruct (Remove sn key w1) as [rerr w'].
      eexists. simpl fst. simpl snd. simpl log. rewrite Hloop.
      rewrite <- !app_assoc. split; [ reflexivity | ].
      rewrite !forallb_app, !existsb_app, Hb, Hc. simpl. auto.
  - rewrite (extractAndCommit_run _ _ _ _ _ _ _ _ _ Hbody).
    simpl world. destruct (Remove sn key w1) as [rerr w'].
    eexists. simpl fst. simpl snd. simpl log. rewrite Hloop.
    rewrite <- !app_assoc. split; [ reflexivity | ].
    rewrite !forallb_app, !existsb_app, Hb, Hc. simpl. auto.
Qed.

(** The calls of [ApplyArtifactWithOpts], by how it ends. *)
Lemma ApplyArtifactWithOpts_shape
  (fuel : nat) (artifact : Artifact) (chain : list digest.Digest)
  (opts : list Opt) (applyOpts : list diff.ApplyOpt) (s : state W) :
  let chainID := ChainID (chain ++ [Digest (Blob artifact)]) in
  let run := ApplyArtifactWithOpts ChainID sn a entropy fuel artifact chain opts applyOpts s in
  exists evs,
    log (snd run) = log s ++ evs /\
    forallb builderEvent evs = true /\
    match fst run with
    | Done (true, None) =>
        exists e0 pre key mounts diff,
          evs = EvStat chainID (Some e0)
                  :: pre ++ [EvPrepare key (ChainID chain) (Ok mounts);
                             EvApply (Blob artifact) mounts (Ok diff);
                             EvCommit chainID key None] /\
          IsNotFound e0 = true /\
          Digest diff = Digest (Blob artifact) /\
          forallb isPrepare pre = true
    | Done (true, Some _) => False
    | _ => existsb committedEvent evs = false
    end.
Proof.
  cbv zeta.
  destruct (Stat sn (ChainID (chain ++ [Digest (Blob artifact)])) (world s))
    as [[e0 | ] w1] eqn:Hs.
  - destruct (IsNotFound e0) eqn:Hnf.
    + rewrite (ApplyArtifactWithOpts_after_stat fuel artifact chain opts applyOpts s e0 w1 Hs Hnf).
      destruct (applyArtifacts_single fuel artifact (chain ++ [Digest (Blob artifact)])
                  opts applyOpts
                  (mkState w1 (log s ++ [EvStat (ChainID (chain ++ [Digest (Blob artifact)]))
                                                (Some e0)])))
        as (evs & Hlog & Hb & Hend).
      rewrite removelast_last in Hend.
      unfold bind.
      destruct (applyArtifacts ChainID sn a entropy fuel [artifact]
                  (chain ++ [Digest (Blob artifact)]) opts applyOpts _)
        as [[[err | ] | msg | ] s2]; simpl fst in Hend; simpl snd in Hlog; simpl log in Hlog.
      * exists (EvStat (ChainID (chain ++ [Digest (Blob artifact)])) (Some e0) :: evs).
        destruct (negb (IsAlreadyExists err)); simpl fst; simpl snd;
          rewrite Hlog, <- app_assoc; simpl; auto.
      * exists (EvStat (ChainID (chain ++ [Digest (Blob artifact)])) (Some e0) :: evs).
        simpl fst. simpl snd. rewrite Hlog, <- app_assoc.
        split; [ reflexivity | ]. split; [ exact Hb | ].
        destruct Hend as (pre & key & mounts & diff & Hevs & Hd & Hpre).
        exists e0, pre, key, mounts, diff. rewrite Hevs. auto.
      * exists (EvStat (ChainID (chain ++ [Digest (Blob artifact)])) (Some e0) :: evs).
        simpl fst. simpl snd. rewrite Hlog, <- app_assoc. simpl. auto.
      * exists (EvStat (ChainID (chain ++ [Digest (Blob artifact)])) (Some e0) :: evs).
        simpl fst. simpl snd. rewrite Hlog, <- app_assoc. simpl. auto.
    + unfold ApplyArtifactWithOpts, snStat.
      rewrite (bind_run _ (call_run _ _ s Hs)). rewrite Hnf. simpl.
      eexists. split; [ reflexivity | ]. auto.
  - unfold ApplyArtifactWithOpts, snStat.
    rewrite (bind_run _ (call_run _ _ s Hs)). simpl.
    eexists. split; [ reflexivity | ]. auto.
Qed.

End BuilderFacts.

(** ** The comparison of the digests over the Diff Applier *)

(** The successful answer of [Apply] is the layer descriptor with the
    digest and the size of the descriptor it was given (applier.go:65-69). *)
Lemma Apply_copies_the_descriptor
  (W Reader : Type) (host : ApplierHost W Reader)
  (desc : Descriptor) (mounts : list Mount) (opts : list diff.ApplyOpt)
  (w w' : W) (d : Descriptor) :
  Apply host desc mounts opts w = (Ok d, w') ->
  d = mkDescriptor MediaTypeImageLayer (Digest desc) (Size desc) [].
Proof.
  unfold Apply. intros H.
  destruct (applyConfigOpts opts desc []); [ | discriminate ].
  destruct (Fetch host desc w) as [[rc | e] w1]; [ | discriminate ].
  destruct (apply host mounts desc rc w1) as [[e | ] w2]; [ discriminate | ].
  destruct (CopyDiscard host rc w2) as [[e | ] w3]; [ discriminate | ].
  inversion H; subst. reflexivity.
Qed.

Section ComparisonPasses.

Context {W Opt : Type}.
Variable ChainID : list digest.Digest -> digest.Digest.
Variable sn : Snapshotter W Opt.
Variable a : Applier W.
Variable entropy : Entropy W.

(** The applier answers with the digest it was given. *)
Hypothesis a_copies : forall desc mounts applyOpts w d w',
  a desc mounts applyOpts w = (Ok d, w') -> Digest d = Digest desc.

Lemma extractAndCommit_comparison_passes
  (artifact : Artifact) (chainID : digest.Digest) (key : string)
  (mounts : list Mount) (opts : list Opt) (applyOpts : list diff.ApplyOpt)
  (s : state W) (err : error) :
  fst (extractAndCommit sn a artifact chainID key mounts opts applyOpts s) = Done (Some err) ->
  forall d, err <> wrongDiff d.
Proof.
  pose proof (extractBody_run sn a artifact chainID key mounts opts applyOpts s) as Hb.
  cbv zeta in Hb.
  destruct (a (Blob artifact) mounts applyOpts (world s)) as [[diff | e] w1] eqn:Hrun.
  - rewrite (a_copies _ _ _ _ _ _ Hrun), String.eqb_refl in Hb. simpl negb in Hb. cbv iota in Hb.
    destruct (Commit sn chainID key opts w1) as [[e | ] w2];
      rewrite (extractAndCommit_run sn a _ _ _ _ _ _ _ _ _ Hb).
    + simpl world. destruct (Remove sn key w2) as [rerr w'].
      simpl fst. intros Heq d. inversion Heq; subst err. discriminate.
    + discriminate.
  - rewrite (extractAndCommit_run sn a _ _ _ _ _ _ _ _ _ Hb).
    simpl world. destruct (Remove sn key w1) as [rerr w'].
    simpl fst. intros Heq d. inversion Heq; subst err. discriminate.
Qed.

Lemma prepareLoop_comparison_passes
  (recur : list Artifact -> list digest.Digest -> M W (option error))
  (Hrecur : forall arts ch s err,
      fst (recur arts ch s) = Done (Some err) -> forall d, err <> wrongDiff d)
  (fuel : nat) :
  forall (artifacts : list Artifact) (chain : list digest.Digest)
         (parent chainID : digest.Digest) (opts : list Opt) (s : state W) (err : error),
    fst (prepareLoop sn entropy recur fuel artifacts chain parent chainID opts s)
    = Done (Return err) ->
    forall d, err <> wrongDiff d.
Proof.
  induction fuel as [ | fuel IH]; intros artifacts chain parent chainID opts s err.
  - discriminate.
  - destruct (uniquePart_run entropy s) as (u & w1 & Hu).
    destruct (Prepare sn (UnpackKey u chainID) parent opts w1) as [r w2] eqn:Hp.
    rewrite (prepareLoop_turn sn entropy recur fuel artifacts chain parent chainID opts
               s u w1 w2 r Hu Hp).
    cbv zeta.
    destruct r as [mounts | e]; [ discriminate | ].
    destruct (IsNotFound e && (1 <? List.length artifacts)%nat).
    + unfold bind.
      pose proof (Hrecur (removelast artifacts) (removelast chain)
                    (mkState w2 (log s ++ [EvPrepare (UnpackKey u chainID) parent (Err e)])))
        as Hr.
      destruct (recur (removelast artifacts) (removelast chain) _) as [[[e' | ] | msg | ] s3];
        simpl fst in Hr; try discriminate.
      * destruct (negb (IsAlreadyExists e')).
        -- unfold ret. simpl fst. intros Heq. inversion Heq; subst err.
           apply Hr. reflexivity.
        -- apply IH.
      * apply IH.
    + destruct (IsAlreadyExists e).
      * apply IH.
      * simpl fst. intros Heq d. inversion Heq; subst err. discriminate.
Qed.

Lemma applyArtifacts_comparison_passes (fuel : nat) :
  forall (artifacts : list Artifact) (chain : list digest.Digest)
         (opts : list Opt) (applyOpts : list diff.ApplyOpt) (s : state W) (err : error),
    fst (applyArtifacts ChainID sn a entropy fuel artifacts chain opts applyOpts s)
    = Done (Some err) ->
    forall d, err <> wrongDiff d.
Proof.
  induction fuel as [ | fuel IH]; intros artifacts chain opts applyOpts s err.
  - discriminate.
  - destruct chain as [ | c0 crest]; [ discriminate | ].
    destruct artifacts as [ | a0 rest]; [ discriminate | ].
    rewrite applyArtifacts_S.
    pose proof (prepareLoop_comparison_passes
                  (fun arts ch => applyArtifacts ChainID sn a entropy fuel arts ch opts applyOpts)
                  (fun arts ch s' => IH arts ch opts applyOpts s')
                  fuel (a0 :: rest) (c0 :: crest) (ChainID (removelast (c0 :: crest)))
                  (ChainID (c0 :: crest)) opts s) as Hloop.
    unfold bind.
    destruct (prepareLoop sn entropy _ fuel (a0 :: rest) (c0 :: crest) _ _ opts s)
      as [[[key mounts | e] | msg | ] s1]; simpl fst in Hloop; try discriminate.
    + apply extractAndCommit_comparison_passes.
    + unfold ret. simpl fst. intros Heq. inversion Heq; subst err.
      apply Hloop. reflexivity.
Qed.

End ComparisonPasses.

(** C1 fails on the code, whatever the host, and with it whatever the
    content source serves and the file store accepts: no successful
    [Apply] returns a digest other than the digest of its descriptor, and
    no build whose applier is [Apply] ends in the error of the comparison.
    The comparison has nothing to detect: it compares the digest of the
    layer with a copy of itself. *)
Lemma comparison_over_Apply_detects_nothing :
  ~ Apply_can_return_another_digest /\ ~ comparison_can_fail_over_Apply.
Proof.
  split.
  - intros (W & Reader & host & desc & mounts & opts & w & w' & d & Hrun & Hdiff).
    apply Hdiff. rewrite (Apply_copies_the_descriptor _ _ _ _ _ _ _ _ _ Hrun). reflexivity.
  - intros (W & Opt & Reader & ChainID & sn & host & entropy & fuel & artifacts & chain &
            opts & applyOpts & s & d & Hrun).
    refine (applyArtifacts_comparison_passes ChainID sn (Apply host) entropy _
              fuel artifacts chain opts applyOpts s _ Hrun d eq_refl).
    intros desc mounts aopts w d' w' Hok.
    rewrite (Apply_copies_the_descriptor _ _ _ _ _ _ _ _ _ Hok). reflexivity.
Qed.

(** C1, amended.  A successful [Apply] returns a layer descriptor whose
    digest and size are those declared by the input descriptor: the digest
    is copied, not computed from the stream.  With [Apply] for its
    applier, then, the Chain Builder never returns the error of its
    comparison of the digests: the comparison always passes. *)
Theorem Apply_returns_declared_digest
  (W Reader : Type) (host : ApplierHost W Reader)
  (desc : Descriptor) (mounts : list Mount) (opts : list diff.ApplyOpt)
  (w w' : W) (d : Descriptor) :
  Apply host desc mounts opts w = (Ok d, w') ->
  d = mkDescriptor MediaTypeImageLayer (Digest desc) (Size desc) [] /\
  Digest d = Digest desc /\
  forall (Opt : Type) (ChainID : list digest.Digest -> digest.Digest)
         (sn : Snapshotter W Opt) (entropy : Entropy W) (fuel : nat)
         (artifacts : list Artifact) (chain : list digest.Digest)
         (sopts : list Opt) (applyOpts : list diff.ApplyOpt) (s : state W) (err : error),
    fst (applyArtifacts ChainID sn (Apply host) entropy fuel artifacts chain sopts applyOpts s)
    = Done (Some err) ->
    forall wrong, err <> wrongDiff wrong.
Proof.
  intros H.
  rewrite (Apply_copies_the_descriptor _ _ _ _ _ _ _ _ _ H).
  split; [ reflexivity | ]. split; [ reflexivity | ].
  intros Opt ChainID sn entropy fuel artifacts chain sopts applyOpts s err.
  apply applyArtifacts_comparison_passes.
  intros desc0 mounts0 aopts w0 d0 w0' Hok.
  rewrite (Apply_copies_the_descriptor _ _ _ _ _ _ _ _ _ Hok). reflexivity.
Qed.

Lemma Apply_returns_declared_digest_witness :
  let w := Mem.mkWorld [] 0 [("sha256:aa", "layer bytes")] "" "" [] [] in
  let desc := mkDescriptor "application/octet-stream" "sha256:aa" 11 [] in
  exists d w',
    Apply (Mem.host false) desc [] [] w = (Ok d, w') /\
    d = mkDescriptor MediaTypeImageLayer "sha256:aa" 11 [] /\
    Digest d = "sha256:aa".
Proof.
  eexists. eexists.
  split; [ reflexivity | ].
  refine (let H := Apply_returns_declared_digest _ _ (Mem.host false)
            (mkDescriptor "application/octet-stream" "sha256:aa" 11 []) [] []
            (Mem.mkWorld [] 0 [("sha256:aa", "layer bytes")] "" "" [] []) _ _ eq_refl in
          conj (proj1 H) (proj1 (proj2 H))).
Defined.

(** ** The label discipline of the Unpack driver *)

Lemma labelsFollowCommit_app (l l' : list event) :
  forall prev,
    labelsFollowCommit prev (l ++ l')
    = labelsFollowCommit prev l && labelsFollowCommit (lastEvent prev l) l'.
Proof.
  induction l as [ | ev l IH]; intros prev; [ reflexivity | ].
  simpl labelsFollowCommit. rewrite IH, andb_assoc. f_equal.
  destruct l as [ | ev' l]; [ reflexivity | ].
  unfold lastEvent. rewrite last_cons. reflexivity.
Qed.

Lemma labelsFollowCommit_builder (l : list event) :
  forallb builderEvent l = true -> forall prev, labelsFollowCommit prev l = true.
Proof.
  induction l as [ | ev l IH]; simpl; [ reflexivity | ].
  intros H prev. apply andb_true_iff in H. destruct H as [Hev Hl].
  rewrite (IH Hl). destruct ev; try discriminate; reflexivity.
Qed.

Lemma lastEvent_snoc (prev : option event) (l : list event) (ev : event) :
  lastEvent prev (l ++ [ev]) = Some ev.
Proof.
  destruct l as [ | x l]; [ reflexivity | ].
  simpl. f_equal. revert x. induction l as [ | y l IH]; intros x; [ reflexivity | ].
  simpl app. rewrite last_cons. apply IH.
Qed.

Lemma labelSafe_ret {W A : Type} (x : A) : labelSafe (@ret W A x).
Proof. intros s. exists []. simpl. rewrite app_nil_r. auto. Qed.

Lemma labelSafe_bind {W A B : Type} (c : M W A) (k : A -> M W B) :
  labelSafe c -> (forall x, labelSafe (k x)) -> labelSafe (bind c k).
Proof.
  intros Hc Hk s. destruct (Hc s) as (evs & Hlog & Hsafe).
  unfold bind. destruct (c s) as [[x | msg | ] s1]; simpl snd in Hlog.
  - destruct (Hk x s1) as (evs' & Hlog' & Hsafe').
    exists (evs ++ evs'). rewrite Hlog', Hlog, app_assoc. split; [ reflexivity | ].
    intros prev. rewrite labelsFollowCommit_app, Hsafe, Hsafe'. reflexivity.
  - exists evs. auto.
  - exists evs. auto.
Qed.

Lemma labelSafe_call {W A : Type} (f : W -> A * W) (ev : A -> event) :
  (forall x prev, labelsFollowCommit prev [ev x] = true) ->
  labelSafe (call f ev).
Proof.
  intros Hev s. unfold call. destruct (f (world s)) as [x w'].
  exists [ev x]. split; [ reflexivity | intros prev; apply Hev ].
Qed.

(** ** The Image Unpack Driver *)

Section ImageFacts.

Context {W Opt Reader : Type}.
Variable ChainID : list digest.Digest -> digest.Digest.
Variable client : Client W Opt.
Variable host : ApplierHost W Reader.
Variable entropy : Entropy W.

Lemma unpackLayers_labelSafe (fuel : nat) (sn : Snapshotter W Opt) (a : Applier W)
  (config : UnpackConfig Opt) (artifacts : list Artifact) :
  forall chain, labelSafe (unpackLayers ChainID client entropy fuel sn a config artifacts chain).
Proof.
  induction artifacts as [ | artifact rest IH]; intros chain.
  - apply labelSafe_ret.
  - intros s. simpl unpackLayers.
    destruct (ApplyArtifactWithOpts_shape ChainID sn a entropy fuel artifact chain
                (SnapshotOpts config) (ApplyOpts config) s) as (evs & Hlog & Hb & Hend).
    cbv zeta in Hlog, Hend. unfold bind at 1.
    destruct (ApplyArtifactWithOpts ChainID sn a entropy fuel artifact chain
                (SnapshotOpts config) (ApplyOpts config) s)
      as [[[applied [err | ]] | msg | ] s1]; simpl snd in Hlog; simpl fst in Hend.
    + exists evs. split; [ exact Hlog | ]. apply labelsFollowCommit_builder. exact Hb.
    + destruct applied.
      * destruct Hend as (e0 & pre & key & mounts & diff & Hevs & _).
        unfold bind, call.
        destruct (Update client _ "labels.containerd.io/uncompressed" (world s1))
          as [[err | ] w2].
        -- eexists. simpl snd. simpl log. rewrite Hlog, <- app_assoc.
           split; [ reflexivity | ]. intros prev.
           rewrite labelsFollowCommit_app, (labelsFollowCommit_builder evs Hb).
           rewrite Hevs.
           change (EvStat (ChainID (chain ++ [Digest (Blob artifact)])) (Some e0)
                     :: pre ++ [EvPrepare key (ChainID chain) (Ok mounts);
                                EvApply (Blob artifact) mounts (Ok diff);
                                EvCommit (ChainID (chain ++ [Digest (Blob artifact)])) key None])
             with ((EvStat (ChainID (chain ++ [Digest (Blob artifact)])) (Some e0) :: pre)
                     ++ [EvPrepare key (ChainID chain) (Ok mounts);
                         EvApply (Blob artifact) mounts (Ok diff)]
                     ++ [EvCommit (ChainID (chain ++ [Digest (Blob artifact)])) key None]).
           rewrite !app_assoc, lastEvent_snoc. reflexivity.
        -- destruct (IH (chain ++ [Digest (Blob artifact)])
                        (mkState w2 (log s1 ++ [EvUpdate
                           (content.mkInfo (Digest (Blob artifact))
                              [("containerd.io/uncompressed", Digest (Blob artifact))])
                           "labels.containerd.io/uncompressed" None])))
             as (evs' & Hlog' & Hsafe').
           eexists. rewrite Hlog'. simpl log. rewrite Hlog, <- !app_assoc.
           split; [ reflexivity | ]. intros prev.
           rewrite labelsFollowCommit_app, (labelsFollowCommit_builder evs Hb).
           rewrite Hevs.
           change (EvStat (ChainID (chain ++ [Digest (Blob artifact)])) (Some e0)
                     :: pre ++ [EvPrepare key (ChainID chain) (Ok mounts);
                                EvApply (Blob artifact) mounts (Ok diff);
                                EvCommit (ChainID (chain ++ [Digest (Blob artifact)])) key None])
             with ((EvStat (ChainID (chain ++ [Digest (Blob artifact)])) (Some e0) :: pre)
                     ++ [EvPrepare key (ChainID chain) (Ok mounts);
                         EvApply (Blob artifact) mounts (Ok diff)]
                     ++ [EvCommit (ChainID (chain ++ [Digest (Blob artifact)])) key None]).
           rewrite !app_assoc, lastEvent_snoc. simpl. apply Hsafe'.
      * destruct (IH (chain ++ [Digest (Blob artifact)]) s1) as (evs' & Hlog' & Hsafe').
        exists (evs ++ evs'). rewrite Hlog', Hlog, app_assoc. split; [ reflexivity | ].
        intros prev.
        rewrite labelsFollowCommit_app, (labelsFollowCommit_builder evs Hb), Hsafe'.
        reflexivity.
    + exists evs. split; [ exact Hlog | ]. apply labelsFollowCommit_builder. exact Hb.
    + exists evs. split; [ exact Hlog | ]. apply labelsFollowCommit_builder. exact Hb.
Qed.

(** The loop of [Unpack] ends with the chain it was given followed by the
    digests of the artifacts, in order. *)
Lemma unpackLayers_chain (fuel : nat) (sn : Snapshotter W Opt) (a : Applier W)
  (config : UnpackConfig Opt) (artifacts : list Artifact) :
  forall chain s chain' s',
    unpackLayers ChainID client entropy fuel sn a config artifacts chain s
    = (Done (Ok chain'), s') ->
    chain' = chain ++ map (fun x => Digest (Blob x)) artifacts.
Proof.
  induction artifacts as [ | artifact rest IH]; intros chain s chain' s' H.
  - inversion H. rewrite app_nil_r. reflexivity.
  - simpl unpackLayers in H. unfold bind at 1 in H.
    destruct (ApplyArtifactWithOpts ChainID sn a entropy fuel artifact chain
                (SnapshotOpts config) (ApplyOpts config) s)
      as [[[applied [err | ]] | msg | ] s1]; try discriminate.
    simpl map. change (Digest (Blob artifact) :: map (fun x => Digest (Blob x)) rest)
      with ([Digest (Blob artifact)] ++ map (fun x => Digest (Blob x)) rest).
    rewrite app_assoc.
    destruct applied.
    + unfold bind, call in H.
      destruct (Update client _ "labels.containerd.io/uncompressed" (world s1))
        as [[err | ] w2]; [ discriminate | ].
      eapply IH; eassumption.
    + eapply IH; eassumption.
Qed.

Lemma resolveSnapshotterName_labelSafe (name : string) :
  labelSafe (resolveSnapshotterName client name).
Proof.
  unfold resolveSnapshotterName. destruct (String.eqb name "").
  - apply labelSafe_bind.
    + apply labelSafe_call. reflexivity.
    + intros [label | err]; [ | apply labelSafe_ret ].
      destruct (negb (String.eqb label "")); apply labelSafe_ret.
  - apply labelSafe_ret.
Qed.

Lemma getSnapshotter_labelSafe (name : string) :
  labelSafe (getSnapshotter client name).
Proof.
  unfold getSnapshotter. apply labelSafe_bind.
  - apply resolveSnapshotterName_labelSafe.
  - intros [name' | err]; [ | apply labelSafe_ret ].
    destruct (SnapshotService client name'); apply labelSafe_ret.
Qed.

Lemma Unpack_labelSafe (fuel : nat) (snapshotterName : string)
  (opts : list (UnpackOpt Opt)) :
  labelSafe (Unpack ChainID client host entropy fuel snapshotterName opts).
Proof.
  unfold Unpack. apply labelSafe_bind; [ apply labelSafe_call; reflexivity | ].
  intros [err | ]; [ apply labelSafe_ret | ].
  apply labelSafe_bind.
  2:{ intros r. apply labelSafe_bind; [ apply labelSafe_call; reflexivity | ].
      intros _. apply labelSafe_ret. }
  unfold unpackLeased.
  destruct (unpackConfigOpts opts (mkUnpackConfig [] [] false)) as [config | err];
    [ | apply labelSafe_ret ].
  apply labelSafe_bind; [ apply labelSafe_call; reflexivity | ].
  intros [manifest | err]; [ | apply labelSafe_ret ].
  apply labelSafe_bind; [ apply resolveSnapshotterName_labelSafe | ].
  intros [name' | err]; [ | apply labelSafe_ret ].
  apply labelSafe_bind; [ apply getSnapshotter_labelSafe | ].
  intros [sn | err]; [ | apply labelSafe_ret ].
  apply labelSafe_bind.
  { destruct (CheckPlatformSupported config);
      [ apply labelSafe_call; reflexivity | apply labelSafe_ret ]. }
  intros [err | ]; [ apply labelSafe_ret | ].
  apply labelSafe_bind; [ apply unpackLayers_labelSafe | ].
  intros [chain | err]; [ | apply labelSafe_ret ].
  apply labelSafe_bind; [ apply labelSafe_call; reflexivity | ].
  intros [desc | err]; [ | apply labelSafe_ret ].
  apply labelSafe_call. intros e prev. reflexivity.
Qed.



End ImageFacts.

(** C10, amended.  Of a call of [ApplyArtifactWithOpts], however it ends:
    - its result is (true, nil) only when its own calls end with an
      extraction that reported the declared digest followed by the
      successful commit of the view under the chain ID, after a stat that
      answered Not-Found; with any other result, and when it is cut off, no
      commit of the call succeeded; it never returns true with an error;
    - it returns (false, nil) when the stat finds the snapshot, and when
      [applyArtifacts] returns an Already-Exists error (as after a commit
      that lost the race); an Already-Exists answer to a prepare is not
      among these, the prepare is tried again.
    And in the calls of any run of [Unpack], the uncompressed label is
    written only right after a successful commit, that is only after a call
    that returned true. *)
Theorem applied_only_after_own_commit
  (W Opt Reader : Type) (ChainID : list digest.Digest -> digest.Digest)
  (client : Client W Opt) (host : ApplierHost W Reader) (entropy : Entropy W)
  (sn : Snapshotter W Opt) (a : Applier W)
  (fuel : nat) (artifact : Artifact) (chain : list digest.Digest)
  (opts : list Opt) (applyOpts : list diff.ApplyOpt)
  (snapshotterName : string) (unpackOpts : list (UnpackOpt Opt)) (s : state W) :
  let chainID := ChainID (chain ++ [Digest (Blob artifact)]) in
  let run := ApplyArtifactWithOpts ChainID sn a entropy fuel artifact chain opts applyOpts s in
  (exists evs,
     log (snd run) = log s ++ evs /\
     forallb builderEvent evs = true /\
     match fst run with
     | Done (true, None) =>
         exists e0 pre key mounts diff,
           evs = EvStat chainID (Some e0)
                   :: pre ++ [EvPrepare key (ChainID chain) (Ok mounts);
                              EvApply (Blob artifact) mounts (Ok diff);
                              EvCommit chainID key None] /\
           IsNotFound e0 = true /\
           Digest diff = Digest (Blob artifact) /\
           forallb isPrepare pre = true
     | Done (true, Some _) => False
     | _ => existsb committedEvent evs = false
     end) /\
  (forall w1, Stat sn chainID (world s) = (None, w1) -> fst run = Done (false, None)) /\
  (forall e0 w1 err s2,
     Stat sn chainID (world s) = (Some e0, w1) ->
     IsNotFound e0 = true ->
     applyArtifacts ChainID sn a entropy fuel [artifact] (chain ++ [Digest (Blob artifact)])
                    opts applyOpts (mkState w1 (log s ++ [EvStat chainID (Some e0)]))
     = (Done (Some err), s2) ->
     IsAlreadyExists err = true ->
     fst run = Done (false, None)) /\
  (exists evs,
     log (snd (Unpack ChainID client host entropy fuel snapshotterName unpackOpts s))
     = log s ++ evs /\
     labelsFollowCommit None evs = true).
Proof.
  cbv zeta. split; [ | split; [ | split ] ].
  - exact (ApplyArtifactWithOpts_shape ChainID sn a entropy fuel artifact chain opts
             applyOpts s).
  - intros w1 Hs. unfold ApplyArtifactWithOpts, snStat.
    rewrite (bind_run _ (call_run _ _ s Hs)). reflexivity.
  - intros e0 w1 err s2 Hs Hnf Hrun Hae.
    rewrite (ApplyArtifactWithOpts_after_stat ChainID sn a entropy fuel artifact chain opts
               applyOpts s e0 w1 Hs Hnf).
    rewrite (bind_run _ Hrun), Hae. reflexivity.
  - destruct (Unpack_labelSafe ChainID client host entropy fuel snapshotterName unpackOpts s)
      as (evs & Hlog & Hsafe).
    exists evs. auto.
Qed.

(** ** Chain IDs *)

Lemma chainFrom_snoc (FromBytes : string -> digest.Digest) (rest : list digest.Digest) :
  forall acc d,
    identity.chainFrom FromBytes acc (rest ++ [d])
    = FromBytes (identity.chainFrom FromBytes acc rest ++ " " ++ d)%string.
Proof.
  induction rest as [ | x rest IH]; intros acc d; simpl; [ reflexivity | apply IH ].
Qed.

Lemma chainFrom_nonempty (FromBytes : string -> digest.Digest) (rest : list digest.Digest) :
  (forall x, FromBytes x <> "") ->
  forall acc, acc <> "" -> identity.chainFrom FromBytes acc rest <> "".
Proof.
  intros Hhash. induction rest as [ | x rest IH]; intros acc Hacc; simpl; auto.
Qed.

Lemma chainFrom_fold (FromBytes : string -> digest.Digest) (rest : list digest.Digest) :
  (forall x, FromBytes x <> "") ->
  forall acc, acc <> "" ->
    identity.chainFrom FromBytes acc rest
    = fold_left (identity.chainStep FromBytes) rest acc.
Proof.
  intros Hhash. induction rest as [ | x rest IH]; intros acc Hacc; simpl; [ reflexivity | ].
  rewrite IH by apply Hhash. f_equal. unfold identity.chainStep.
  apply String.eqb_neq in Hacc. rewrite Hacc. reflexivity.
Qed.

(** The chain ID of a chain of two layers or more: the hash of the chain ID
    of all but the last layer, a space, and the last digest. *)
Lemma ChainID_snoc (FromBytes : string -> digest.Digest)
  (c0 : digest.Digest) (crest : list digest.Digest) (d : digest.Digest) :
  identity.ChainID FromBytes ((c0 :: crest) ++ [d])
  = FromBytes (identity.ChainID FromBytes (c0 :: crest) ++ " " ++ d)%string.
Proof. simpl. apply chainFrom_snoc. Qed.

Lemma removelast_app_last {A : Type} (x : A) (l : list A) :
  x :: l = removelast (x :: l) ++ [last l x].
Proof.
  rewrite <- (last_cons x l x). apply app_removelast_last. discriminate.
Qed.

(** C7.  The chain ID is a function of the ordered digests alone: two lists
    of artifacts with the same digests in the same order have the same
    chain ID whatever else their descriptors say, and so have two equal
    chains.  It is a fold: the chain ID of no layer is the empty digest,
    that of one layer is the layer's digest, and that of a longer chain is
    the hash of the chain ID of all but the last layer (the parent that
    [applyArtifacts] prepares on), a space and the last digest; with a hash
    that never yields the empty digest and a first digest that is not
    empty, the chain ID of any chain that is not empty is [chainStep] of its
    parent's chain ID and its last digest, and it is the left fold of
    [chainStep] over the digests from the empty digest.  The chain that
    [Unpack] hashes
    for the root filesystem is the digests of its artifacts, in order. *)
Theorem ChainID_is_a_fold_of_the_ordered_digests
  (W Opt : Type) (FromBytes : string -> digest.Digest)
  (client : Client W Opt) (entropy : Entropy W)
  (sn : Snapshotter W Opt) (a : Applier W) (config : UnpackConfig Opt)
  (fuel : nat) (artifacts artifacts' : list Artifact)
  (c0 : digest.Digest) (crest chain chain' : list digest.Digest) (s s' : state W) :
  let ChainID := identity.ChainID FromBytes in
  let digests := map (fun x => Digest (Blob x)) in
  (digests artifacts = digests artifacts' ->
   ChainID (digests artifacts) = ChainID (digests artifacts')) /\
  (chain = chain' -> ChainID chain = ChainID chain') /\
  ChainID [] = "" /\
  ChainID [c0] = c0 /\
  (crest <> [] ->
   ChainID (c0 :: crest)
   = FromBytes (ChainID (removelast (c0 :: crest)) ++ " " ++ last crest c0)%string) /\
  ((forall x, FromBytes x <> "") -> c0 <> "" ->
   ChainID (c0 :: crest)
   = identity.chainStep FromBytes (ChainID (removelast (c0 :: crest))) (last crest c0) /\
   ChainID (c0 :: crest) = fold_left (identity.chainStep FromBytes) (c0 :: crest) "") /\
  (unpackLayers ChainID client entropy fuel sn a config artifacts [] s = (Done (Ok chain), s') ->
   ChainID chain = ChainID (digests artifacts)).
Proof.
  cbv zeta.
  assert (Hstep : crest <> [] ->
            identity.ChainID FromBytes (c0 :: crest)
            = FromBytes (identity.ChainID FromBytes (removelast (c0 :: crest))
                           ++ " " ++ last crest c0)%string).
  { intros Hne.
    rewrite (removelast_app_last c0 crest) at 1.
    destruct crest as [ | c1 crest']; [ contradiction | ].
    change (removelast (c0 :: c1 :: crest')) with (c0 :: removelast (c1 :: crest')).
    apply ChainID_snoc. }
  split; [ | split; [ | split; [ | split; [ | split; [ | split ] ] ] ] ].
  - intros ->. reflexivity.
  - intros ->. reflexivity.
  - reflexivity.
  - reflexivity.
  - exact Hstep.
  - intros Hhash Hc0. split.
    2:{ simpl. apply chainFrom_fold; assumption. }
    destruct crest as [ | c1 crest'].
    + reflexivity.
    + rewrite Hstep by discriminate. unfold identity.chainStep.
      change (removelast (c0 :: c1 :: crest')) with (c0 :: removelast (c1 :: crest')).
      destruct (String.eqb (identity.ChainID FromBytes (c0 :: removelast (c1 :: crest'))) "")
        eqn:E; [ | reflexivity ].
      apply String.eqb_eq in E. exfalso.
      exact (chainFrom_nonempty FromBytes (removelast (c1 :: crest')) Hhash c0 Hc0 E).
  - intros Hrun.
    rewrite (unpackLayers_chain (identity.ChainID FromBytes) client entropy fuel sn a config
               artifacts [] s chain s' Hrun).
    reflexivity.
Qed.

(** * The engine on concrete inputs *)

(** C3 on a second apply: after a first apply built the one-layer chain,
    both entry points only stat. *)
Lemma apply_returns_at_once_when_present_witness :
  let w0 := Mem.mkWorld [] 0 [("d0", "a")] "" "" [] [] in
  let A := Apply (Mem.host false) in
  let first := ApplyArtifactsWithOpts Mem.ChainID Mem.store A Mem.entropy 3
                 [Mem.layer "d0"] [] (Mem.start w0) in
  let s1 := snd first in
  fst first = Done (Ok "d0") /\
  Mem.committed (Mem.snaps (world s1)) "d0" = true /\
  ApplyArtifactsWithOpts Mem.ChainID Mem.store A Mem.entropy 3 [Mem.layer "d0"] [] s1
  = (Done (Ok "d0"), mkState (world s1) (log s1 ++ [EvStat "d0" None])) /\
  ApplyArtifactWithOpts Mem.ChainID Mem.store A Mem.entropy 3 (Mem.layer "d0") [] [] [] s1
  = (Done (false, None), mkState (world s1) (log s1 ++ [EvStat "d0" None])).
Proof.
  cbv zeta.
  split; [ reflexivity | ]. split; [ reflexivity | ].
  pose proof (apply_returns_at_once_when_present Mem.ChainID Mem.store
                (Apply (Mem.host false)) Mem.entropy 3 [Mem.layer "d0"] (Mem.layer "d0")
                [] [] []
                (snd (ApplyArtifactsWithOpts Mem.ChainID Mem.store (Apply (Mem.host false))
                        Mem.entropy 3 [Mem.layer "d0"] [] 
                        (Mem.start (Mem.mkWorld [] 0 [("d0", "a")] "" "" [] []))))
                (world (snd (ApplyArtifactsWithOpts Mem.ChainID Mem.store
                               (Apply (Mem.host false)) Mem.entropy 3 [Mem.layer "d0"] []
                               (Mem.start (Mem.mkWorld [] 0 [("d0", "a")] "" "" [] []))))))
    as [Hall Hone].
  split; [ apply Hall; reflexivity | apply Hone; reflexivity ].
Defined.

(** C2 on an applier that reports another digest than the declared one. *)
Lemma digest_mismatch_aborts_the_layer_witness :
  let a := Mem.reporting "sha256:other" in
  let run := applyArtifacts Mem.ChainID Mem.store a Mem.entropy 3
               [Mem.layer "d0"] ["d0"] [] [] (Mem.start Mem.empty) in
  fst run = Done (Some (Errorf "wrong diff id calculated on extraction %q" ["sha256:other"])) /\
  Mem.snaps (world (snd run)) = [] /\
  log (snd run)
  = [EvPrepare "extract-0-AAAA d0" "" (Ok (Mem.viewMounts "extract-0-AAAA d0"));
     EvApply (Blob (Mem.layer "d0")) (Mem.viewMounts "extract-0-AAAA d0")
             (Ok (mkDescriptor MediaTypeImageLayer "sha256:other" 1 []));
     EvRemove "extract-0-AAAA d0" None].
Proof.
  cbv zeta.
  pose (loop := prepareLoop Mem.store Mem.entropy
                  (fun arts ch => applyArtifacts Mem.ChainID Mem.store
                                    (Mem.reporting "sha256:other") Mem.entropy 2 arts ch [] [])
                  2 [Mem.layer "d0"] ["d0"] (Mem.ChainID (removelast ["d0"]))
                  (Mem.ChainID ["d0"]) [] (Mem.start Mem.empty)).
  assert (Hloop : loop = (Done (Break "extract-0-AAAA d0" (Mem.viewMounts "extract-0-AAAA d0")),
                          snd loop)) by reflexivity.
  assert (Hneq : Digest (mkDescriptor MediaTypeImageLayer "sha256:other" 1 [])
                 <> Digest (Blob (last [] (Mem.layer "d0")))) by discriminate.
  destruct (digest_mismatch_aborts_the_layer Mem.ChainID Mem.store
              (Mem.reporting "sha256:other") Mem.entropy 2 (Mem.layer "d0") [] "d0" [] [] []
              (Mem.start Mem.empty) (snd loop) "extract-0-AAAA d0"
              (Mem.viewMounts "extract-0-AAAA d0")
              (mkDescriptor MediaTypeImageLayer "sha256:other" 1 [])
              (world (snd loop))
              (snd (Remove Mem.store "extract-0-AAAA d0" (world (snd loop))))
              None Hloop eq_refl Hneq eq_refl) as (Hrun & _).
  split; [ exact (f_equal fst Hrun) | ].
  split; [ exact (f_equal (fun x => Mem.snaps (world (snd x))) Hrun) | ].
  exact (f_equal (fun x => log (snd x)) Hrun).
Defined.

(** C5 fails for the single-layer entry point: with a Snapshot for [d0]
    only, requesting [d2] on top of the chain [d0, d1] ends with the
    prepare's Not-Found; nothing is built for [d0, d1] or [d0, d1, d2]. *)
Lemma single_layer_apply_does_not_build_the_parent :
  let w0 := Mem.mkWorld [Mem.mkEntry (Mem.ChainID ["d0"]) Mem.Committed ""] 0
              [("d0", "a"); ("d1", "b"); ("d2", "c")] "" "" [] [] in
  let run := ApplyArtifactWithOpts Mem.ChainID Mem.store (Apply (Mem.host false))
               Mem.entropy 5 (Mem.layer "d2") ["d0"; "d1"] [] [] (Mem.start w0) in
  Mem.committed (Mem.snaps w0) (Mem.ChainID ["d0"]) = true /\
  Mem.committed (Mem.snaps w0) (Mem.ChainID ["d0"; "d1"]) = false /\
  fst run = Done (false,
                  Some (Wrapf "failed to prepare extraction snapshot %q: %w"
                              ["extract-0-AAAA id:id:d0 d1 d2"] (Sentinel ErrNotFound))) /\
  log (snd run)
  = [EvStat "id:id:d0 d1 d2" (Some (Sentinel ErrNotFound));
     EvPrepare "extract-0-AAAA id:id:d0 d1 d2" "id:d0 d1" (Err (Sentinel ErrNotFound))] /\
  Mem.committed (Mem.snaps (world (snd run))) (Mem.ChainID ["d0"; "d1"]) = false /\
  Mem.committed (Mem.snaps (world (snd run))) (Mem.ChainID ["d0"; "d1"; "d2"]) = false.
Proof. cbv zeta. repeat split. Qed.

(** C5, amended, on the example of the design: with a Snapshot for [d0]
    only, [ApplyArtifactsWithOpts] on [d0, d1, d2] finds the parent of the
    last layer missing, builds [d0, d1] on the existing [d0], and then
    [d0, d1, d2]. *)
Lemma missing_parent_is_built_when_several_artifacts_witness :
  let w0 := Mem.mkWorld [Mem.mkEntry (Mem.ChainID ["d0"]) Mem.Committed ""] 0
              [("d0", "a"); ("d1", "b"); ("d2", "c")] "" "" [] [] in
  let A := Apply (Mem.host false) in
  let layers := [Mem.layer "d0"; Mem.layer "d1"; Mem.layer "d2"] in
  let run := ApplyArtifactsWithOpts Mem.ChainID Mem.store A Mem.entropy 6 layers []
               (Mem.start w0) in
  fst run = Done (Ok (Mem.ChainID ["d0"; "d1"; "d2"])) /\
  Mem.committed (Mem.snaps (world (snd run))) (Mem.ChainID ["d0"; "d1"]) = true /\
  Mem.committed (Mem.snaps (world (snd run))) (Mem.ChainID ["d0"; "d1"; "d2"]) = true /\
  map (fun e => Mem.parent e) (Mem.snaps (world (snd run))) = [""; "d0"; "id:d0 d1"] /\
  List.length (filter isApply (log (snd run))) = 2%nat /\
  exists k,
    applyArtifacts Mem.ChainID Mem.store A Mem.entropy 5 layers ["d0"; "d1"; "d2"] [] []
                   (Mem.start w0)
    = bind (applyArtifacts Mem.ChainID Mem.store A Mem.entropy 4
              [Mem.layer "d0"; Mem.layer "d1"] ["d0"; "d1"] [] [])
           k
           (mkState (Mem.mkWorld (Mem.snaps w0) 1 (Mem.blobs w0) "" "" [] [])
                    [EvPrepare "extract-0-AAAA id:id:d0 d1 d2" "id:d0 d1"
                               (Err (Sentinel ErrNotFound))]).
Proof.
  cbv zeta. do 5 (split; [ reflexivity | ]).
  eexists.
  exact (proj1 (missing_parent_is_built_when_several_artifacts Mem.ChainID Mem.store
                  (Apply (Mem.host false)) Mem.entropy (fun _ _ => ret None) 3
                  (Mem.layer "d0") (Mem.layer "d1") [Mem.layer "d2"] []
                  "d0" ["d1"; "d2"] [] "" "" [] []
                  (Mem.start (Mem.mkWorld [Mem.mkEntry (Mem.ChainID ["d0"]) Mem.Committed ""] 0
                                [("d0", "a"); ("d1", "b"); ("d2", "c")] "" "" [] []))
                  "0-AAAA"
                  (Mem.mkWorld [Mem.mkEntry (Mem.ChainID ["d0"]) Mem.Committed ""] 1
                                [("d0", "a"); ("d1", "b"); ("d2", "c")] "" "" [] [])
                  (Mem.mkWorld [Mem.mkEntry (Mem.ChainID ["d0"]) Mem.Committed ""] 1
                                [("d0", "a"); ("d1", "b"); ("d2", "c")] "" "" [] [])
                  (Sentinel ErrNotFound) eq_refl eq_refl) eq_refl).
Defined.

(** C6 fails for the prepare: with a stale view under the first key, the
    prepare is answered Already-Exists, and the apply does not stop there:
    it prepares again under a second key, extracts and commits. *)
Lemma already_exists_on_prepare_is_retried :
  let w0 := Mem.mkWorld [Mem.mkEntry "extract-0-AAAA d0" Mem.Active ""] 0
              [("d0", "a")] "" "" [] [] in
  let run := ApplyArtifactWithOpts Mem.ChainID Mem.store (Apply (Mem.host false))
               Mem.entropy 5 (Mem.layer "d0") [] [] [] (Mem.start w0) in
  filter isPrepare (log (snd run))
  = [EvPrepare "extract-0-AAAA d0" "" (Err (Sentinel ErrAlreadyExists));
     EvPrepare "extract-1-AAAA d0" "" (Ok (Mem.viewMounts "extract-1-AAAA d0"))] /\
  List.length (filter isApply (log (snd run))) = 1%nat /\
  filter isCommit (log (snd run)) = [EvCommit "d0" "extract-1-AAAA d0" None] /\
  Mem.committed (Mem.snaps (world (snd run))) "d0" = true.
Proof. cbv zeta. repeat split. Qed.

(** C6, amended, on two runs: a prepare answered Already-Exists takes
    another turn of the loop; a commit that loses the race to another
    builder makes [ApplyArtifactWithOpts] return (false, nil), the view
    being removed. *)
Lemma already_exists_is_retried_or_success_witness :
  let stale := Mem.mkWorld [Mem.mkEntry "extract-0-AAAA d0" Mem.Active ""] 0
                 [("d0", "a")] "" "" [] [] in
  let recur := fun (_ : list Artifact) (_ : list digest.Digest) =>
                 @ret Mem.World (option error) None in
  let w0 := Mem.mkWorld [] 0 [("d0", "a")] "" "" [] [] in
  let run := ApplyArtifactWithOpts Mem.ChainID Mem.store (Mem.racing "d0") Mem.entropy 5
               (Mem.layer "d0") [] [] [] (Mem.start w0) in
  prepareLoop Mem.store Mem.entropy recur 2 [Mem.layer "d0"] ["d0"] "" "d0" []
              (Mem.start stale)
  = prepareLoop Mem.store Mem.entropy recur 1 [Mem.layer "d0"] ["d0"] "" "d0" []
      (mkState (Mem.mkWorld (Mem.snaps stale) 1 (Mem.blobs stale) "" "" [] [])
               [EvPrepare "extract-0-AAAA d0" "" (Err (Sentinel ErrAlreadyExists))]) /\
  fst run = Done (false, None) /\
  filter isCommit (log (snd run))
  = [EvCommit "d0" "extract-0-AAAA d0" (Some (Sentinel ErrAlreadyExists))] /\
  Mem.active (Mem.snaps (world (snd run))) "extract-0-AAAA d0" = false.
Proof.
  cbv zeta. split.
  - exact (proj1 (already_exists_is_retried_or_success Mem.ChainID Mem.store
                    (Mem.racing "d0") Mem.entropy (fun _ _ => ret None) 1
                    [] (Mem.layer "d0") ["d0"] "" "d0" "" [] [] []
                    (Mem.start (Mem.mkWorld [Mem.mkEntry "extract-0-AAAA d0" Mem.Active ""] 0
                                  [("d0", "a")] "" "" [] []))
                    (Mem.start Mem.empty) "0-AAAA"
                    (Mem.mkWorld [Mem.mkEntry "extract-0-AAAA d0" Mem.Active ""] 1
                                 [("d0", "a")] "" "" [] [])
                    (Mem.mkWorld [Mem.mkEntry "extract-0-AAAA d0" Mem.Active ""] 1
                                 [("d0", "a")] "" "" [] [])
                    emptyDesc (Sentinel ErrAlreadyExists) (Sentinel ErrNotFound) eq_refl)
                 eq_refl eq_refl).
  - pose (w0 := Mem.mkWorld [] 0 [("d0", "a")] "" "" [] []).
    pose (inner := applyArtifacts Mem.ChainID Mem.store (Mem.racing "d0") Mem.entropy 5
                     [Mem.layer "d0"] ([] ++ ["d0"]) [] []
                     (mkState w0 [EvStat "d0" (Some (Sentinel ErrNotFound))])).
    pose (err := Wrapf "failed to commit snapshot %s: %w" ["extract-0-AAAA d0"]
                       (Sentinel ErrAlreadyExists)).
    assert (Hinner : inner = (Done (Some err), snd inner)) by reflexivity.
    pose proof (proj1 (proj2 (proj2
                  (already_exists_is_retried_or_success Mem.ChainID Mem.store
                     (Mem.racing "d0") Mem.entropy (fun _ _ => ret None) 5
                     [] (Mem.layer "d0") [] "" "d0" "" [] [] []
                     (Mem.start w0) (snd inner) "" w0 w0 emptyDesc err
                     (Sentinel ErrNotFound) eq_refl))) eq_refl eq_refl Hinner) as Hrun.
    split; [ exact (f_equal fst Hrun) | ].
    split; [ exact (f_equal (fun x => filter isCommit (log (snd x))) Hrun) | ].
    exact (f_equal (fun x => Mem.active (Mem.snaps (world (snd x))) "extract-0-AAAA d0") Hrun).
Defined.

(** A commit that loses the race while an ancestor is built: the build of
    two layers during which another builder commits the chain of the first.
    The commit of the first layer is answered Already-Exists and its view
    is removed; the loop then prepares the second layer on the chain the
    other builder committed, extracts it and commits it. *)
Lemma ancestor_commit_already_exists_goes_on :
  let run := ApplyArtifactsWithOpts Mem.ChainID Mem.store (Mem.racing "d0") Mem.entropy 6
               [Mem.layer "d0"; Mem.layer "d1"] [] (Mem.start Mem.empty) in
  fst run = Done (Ok "id:d0 d1") /\
  filter isCommit (log (snd run))
  = [EvCommit "d0" "extract-1-AAAA d0" (Some (Sentinel ErrAlreadyExists));
     EvCommit "id:d0 d1" "extract-2-AAAA id:d0 d1" None] /\
  nth_error (log (snd run)) 5 = Some (EvRemove "extract-1-AAAA d0" None) /\
  nth_error (log (snd run)) 6
  = Some (EvPrepare "extract-2-AAAA id:d0 d1" "d0"
            (Ok [mkMount "bind" "/snapshots/extract-2-AAAA id:d0 d1" ["rw"; "rbind"]])) /\
  List.length (log (snd run)) = 9%nat.
Proof. cbv zeta. vm_compute. repeat split. Qed.

(** C10 fails where it says that a race lost at the prepare gives
    (false, nil): after an Already-Exists answer to the first prepare the
    call goes on and returns (true, nil). *)
Lemma applied_after_already_exists_on_prepare :
  let w0 := Mem.mkWorld [Mem.mkEntry "extract-0-AAAA d7" Mem.Active ""] 0
              [("d7", "g")] "" "" [] [] in
  let run := ApplyArtifactWithOpts Mem.ChainID Mem.store (Apply (Mem.host false))
               Mem.entropy 5 (Mem.layer "d7") [] [] [] (Mem.start w0) in
  nth_error (log (snd run)) 1
  = Some (EvPrepare "extract-0-AAAA d7" "" (Err (Sentinel ErrAlreadyExists))) /\
  fst run = Done (true, None).
Proof. cbv zeta. repeat split. Qed.

(** C10, amended, on a layer whose snapshot exists: (false, nil), and
    nothing was committed by the call. *)
Lemma applied_only_after_own_commit_witness :
  let w0 := Mem.mkWorld [Mem.mkEntry "d0" Mem.Committed ""] 0 [("d0", "a")] "" "" [] [] in
  let run := ApplyArtifactWithOpts Mem.ChainID Mem.store (Apply (Mem.host false))
               Mem.entropy 5 (Mem.layer "d0") [] [] [] (Mem.start w0) in
  fst run = Done (false, None) /\ filter isCommit (log (snd run)) = [].
Proof.
  cbv zeta. split; [ | reflexivity ].
  exact (proj1 (proj2
           (applied_only_after_own_commit Mem.World unit unit Mem.ChainID
              (Mem.client [Blob (Mem.layer "d0")]) (Mem.host false) Mem.entropy
              Mem.store (Apply (Mem.host false)) 5 (Mem.layer "d0") [] [] [] "" []
              (Mem.start (Mem.mkWorld [Mem.mkEntry "d0" Mem.Committed ""] 0
                            [("d0", "a")] "" "" [] []))))
         (Mem.mkWorld [Mem.mkEntry "d0" Mem.Committed ""] 0 [("d0", "a")] "" "" [] [])
         eq_refl).
Defined.

(** C7 on a chain of two layers. *)
Lemma ChainID_is_a_fold_of_the_ordered_digests_witness :
  identity.ChainID Mem.FromBytes ["sha256:a"; "sha256:b"]
  = identity.chainStep Mem.FromBytes (identity.ChainID Mem.FromBytes ["sha256:a"]) "sha256:b" /\
  identity.ChainID Mem.FromBytes ["sha256:a"; "sha256:b"] = "id:sha256:a sha256:b".
Proof.
  split; [ | reflexivity ].
  refine (proj1 (proj1 (proj2 (proj2 (proj2 (proj2 (proj2
            (ChainID_is_a_fold_of_the_ordered_digests Mem.World unit Mem.FromBytes
               (Mem.client []) Mem.entropy Mem.store (Apply (Mem.host false))
               (mkUnpackConfig [] [] false) 0 [] [] "sha256:a" ["sha256:b"] [] []
               (Mem.start Mem.empty) (Mem.start Mem.empty))))))) _ _)).
  - intros x H. discriminate H.
  - discriminate.
Defined.


(** C4 on a Diff Applier that fails after a successful prepare: the error
    is reported, the view is removed, and the log leaves no view open. *)
Lemma failure_after_prepare_removes_the_view_witness :
  let a := Mem.failing (Opaque "unexpected EOF") in
  let run := applyArtifacts Mem.ChainID Mem.store a Mem.entropy 3
               [Mem.layer "d0"] ["d0"] [] [] (Mem.start Mem.empty) in
  fst run = Done (Some (Wrapf "failed to extract layer %s: %w" ["d0"]
                              (Opaque "unexpected EOF"))) /\
  Mem.snaps (world (snd run)) = [] /\
  filter isPrepare (log (snd run))
  = [EvPrepare "extract-0-AAAA d0" "" (Ok (Mem.viewMounts "extract-0-AAAA d0"))] /\
  viewsClosed (log (snd run)) = true.
Proof.
  cbv zeta. do 3 (split; [ reflexivity | ]).
  destruct (proj2 (failure_after_prepare_removes_the_view Mem.ChainID Mem.store
                     (Mem.failing (Opaque "unexpected EOF")) Mem.entropy 3
                     [Mem.layer "d0"] ["d0"] (Mem.layer "d0") "d0" "extract-0-AAAA d0"
                     (Mem.viewMounts "extract-0-AAAA d0") [] [] (Mem.start Mem.empty)))
    as (evs & Hlog & Hclosed).
  simpl app in Hlog. rewrite Hlog. exact Hclosed.
Defined.

(** * Further properties of the code *)

(** ** How long a build takes, and when it does not end *)

Section BuilderRuns.

Context {W Opt : Type}.
Variable ChainID : list digest.Digest -> digest.Digest.
Variable sn : Snapshotter W Opt.
Variable a : Applier W.
Variable entropy : Entropy W.

Lemma prepareLoop_ends_single
  (recur : list Artifact -> list digest.Digest -> M W (option error))
  (fuel : nat) (artifacts : list Artifact) (chain : list digest.Digest)
  (parent chainID : digest.Digest) (opts : list Opt) (s : state W) :
  neverCollides sn ->
  (List.length artifacts <= 1)%nat ->
  fst (prepareLoop sn entropy recur (S fuel) artifacts chain parent chainID opts s)
  <> OutOfFuel.
Proof.
  intros Hnever Hlen.
  destruct (uniquePart_run entropy s) as (u & w1 & Hu).
  destruct (Prepare sn (UnpackKey u chainID) parent opts w1) as [r w2] eqn:Hp.
  rewrite (prepareLoop_turn sn entropy recur fuel artifacts chain parent chainID opts
             s u w1 w2 r Hu Hp).
  cbv zeta. destruct r as [mounts | err]; [ discriminate | ].
  assert (Hlt : (1 <? List.length artifacts)%nat = false) by (apply Nat.ltb_ge; exact Hlen).
  rewrite Hlt, andb_false_r, (Hnever _ _ _ _ _ _ Hp). discriminate.
Qed.

Lemma prepareLoop_ends
  (recur : list Artifact -> list digest.Digest -> M W (option error))
  (fuel : nat) (artifacts : list Artifact) (chain : list digest.Digest)
  (parent chainID : digest.Digest) (opts : list Opt) (s : state W) :
  neverCollides sn ->
  (forall s', fst (recur (removelast artifacts) (removelast chain) s') <> OutOfFuel) ->
  (1 <= List.length artifacts)%nat ->
  (List.length artifacts <= fuel)%nat ->
  fst (prepareLoop sn entropy recur fuel artifacts chain parent chainID opts s)
  <> OutOfFuel.
Proof.
  intros Hnever Hrecur Hone Hfuel.
  destruct fuel as [ | fuel]; [ exfalso; inversion Hfuel as [Hz | ]; rewrite Hz in Hone;
                                inversion Hone | ].
  destruct (uniquePart_run entropy s) as (u & w1 & Hu).
  destruct (Prepare sn (UnpackKey u chainID) parent opts w1) as [r w2] eqn:Hp.
  rewrite (prepareLoop_turn sn entropy recur fuel artifacts chain parent chainID opts
             s u w1 w2 r Hu Hp).
  cbv zeta. destruct r as [mounts | err]; [ discriminate | ].
  rewrite (Hnever _ _ _ _ _ _ Hp).
  destruct (IsNotFound err && (1 <? List.length artifacts)%nat) eqn:Hrec; [ | discriminate ].
  apply andb_true_iff in Hrec. destruct Hrec as [_ Hlt]. apply Nat.ltb_lt in Hlt.
  unfold bind at 1.
  specialize (Hrecur (mkState w2 (log s ++ [EvPrepare (UnpackKey u chainID) parent (Err err)]))).
  destruct (recur (removelast artifacts) (removelast chain) _) as [[e | msg | ] s3];
    [ | discriminate | contradiction ].
  destruct fuel as [ | fuel].
  { exfalso. apply (Nat.lt_irrefl 1). eapply Nat.lt_le_trans; eassumption. }
  destruct e as [err' | ].
  - destruct (negb (IsAlreadyExists err')); [ discriminate | ].
    apply prepareLoop_ends_single; [ exact Hnever | apply Nat.le_0_l ].
  - apply prepareLoop_ends_single; [ exact Hnever | apply Nat.le_0_l ].
Qed.

Lemma applyArtifacts_ends (fuel : nat) :
  neverCollides sn ->
  forall (artifacts : list Artifact) (chain : list digest.Digest)
         (opts : list Opt) (applyOpts : list diff.ApplyOpt) (s : state W),
    (List.length artifacts < fuel)%nat ->
    fst (applyArtifacts ChainID sn a entropy fuel artifacts chain opts applyOpts s)
    <> OutOfFuel.
Proof.
  intros Hnever. induction fuel as [ | fuel IH]; intros artifacts chain opts applyOpts s Hlen.
  - inversion Hlen.
  - destruct chain as [ | c0 crest]; [ discriminate | ].
    destruct artifacts as [ | a0 rest]; [ discriminate | ].
    rewrite applyArtifacts_S. unfold bind.
    pose proof (prepareLoop_ends
                  (fun arts ch => applyArtifacts ChainID sn a entropy fuel arts ch opts applyOpts)
                  fuel (a0 :: rest) (c0 :: crest) (ChainID (removelast (c0 :: crest)))
                  (ChainID (c0 :: crest)) opts s Hnever) as Hloop.
    destruct (prepareLoop sn entropy _ fuel (a0 :: rest) (c0 :: crest) _ _ opts s)
      as [[[key mounts | e] | msg | ] s1].
    + destruct (extractAndCommit_closes sn a (last rest a0) (ChainID (c0 :: crest)) key mounts
                  opts applyOpts s1) as (r & s' & tail & Hx & _).
      rewrite Hx. discriminate.
    + discriminate.
    + discriminate.
    + exfalso. apply Hloop; [ | simpl; apply le_n_S, Nat.le_0_l | apply le_S_n; exact Hlen
                            | reflexivity ].
      intros s'. apply IH.
      assert (Hrl : List.length (removelast (a0 :: rest)) = List.length rest).
      { rewrite removelast_firstn_len, length_firstn. simpl. apply Nat.min_l, Nat.le_succ_diag_r. }
      rewrite Hrl. apply le_S_n. exact Hlen.
Qed.

(** X1.  With a snapshotter that never answers a prepare with Already-Exists, a
    build is never cut off once the fuel exceeds the number of artifacts:
    [applyArtifacts] on [n] artifacts ends within [n + 1] units, in each of
    its calls the loop takes at most two turns, and so do the two entry
    points ([ApplyArtifactWithOpts] within two units). *)
Theorem build_ends_when_no_prepare_collides
  (fuel : nat) (artifacts : list Artifact) (artifact : Artifact)
  (chain : list digest.Digest) (opts : list Opt) (applyOpts : list diff.ApplyOpt)
  (s : state W) :
  neverCollides sn ->
  ((List.length artifacts < fuel)%nat ->
   fst (applyArtifacts ChainID sn a entropy fuel artifacts chain opts applyOpts s)
   <> OutOfFuel /\
   fst (ApplyArtifactsWithOpts ChainID sn a entropy fuel artifacts applyOpts s)
   <> OutOfFuel) /\
  ((2 <= fuel)%nat ->
   fst (ApplyArtifactWithOpts ChainID sn a entropy fuel artifact chain opts applyOpts s)
   <> OutOfFuel).
Proof.
  intros Hnever. split.
  - intros Hlen. split; [ apply applyArtifacts_ends; assumption | ].
    unfold ApplyArtifactsWithOpts, bind, snStat, call.
    destruct (Stat sn _ (world s)) as [[e0 | ] w1]; [ | discriminate ].
    destruct (negb (IsNotFound e0)); [ discriminate | ].
    pose proof (applyArtifacts_ends fuel Hnever artifacts
                  (map (fun x => Digest (Blob x)) artifacts) [] applyOpts
                  (mkState w1 (log s ++ [EvStat (ChainID (map (fun x => Digest (Blob x))
                                                             artifacts)) (Some e0)])) Hlen)
      as Hrun.
    destruct (applyArtifacts ChainID sn a entropy fuel artifacts _ [] applyOpts _)
      as [[[err | ] | msg | ] s2]; try discriminate.
    + destruct (negb (IsAlreadyExists err)); discriminate.
    + contradiction.
  - intros Hfuel.
    unfold ApplyArtifactWithOpts, bind, snStat, call.
    destruct (Stat sn _ (world s)) as [[e0 | ] w1]; [ | discriminate ].
    destruct (negb (IsNotFound e0)); [ discriminate | ].
    pose proof (applyArtifacts_ends fuel Hnever [artifact]
                  (chain ++ [Digest (Blob artifact)]) opts applyOpts
                  (mkState w1 (log s ++ [EvStat (ChainID (chain ++ [Digest (Blob artifact)]))
                                                (Some e0)])) Hfuel)
      as Hrun.
    destruct (applyArtifacts ChainID sn a entropy fuel [artifact] _ opts applyOpts _)
      as [[[err | ] | msg | ] s2]; try discriminate.
    + destruct (negb (IsAlreadyExists err)); discriminate.
    + contradiction.
Qed.

Lemma prepareLoop_spins
  (recur : list Artifact -> list digest.Digest -> M W (option error)) (fuel : nat) :
  alwaysCollides sn ->
  forall (artifacts : list Artifact) (chain : list digest.Digest)
         (parent chainID : digest.Digest) (opts : list Opt) (s : state W),
    exists pre,
      fst (prepareLoop sn entropy recur fuel artifacts chain parent chainID opts s)
      = OutOfFuel /\
      log (snd (prepareLoop sn entropy recur fuel artifacts chain parent chainID opts s))
      = log s ++ pre /\
      List.length pre = fuel /\
      Forall (fun ev => exists u e, ev = EvPrepare (UnpackKey u chainID) parent (Err e) /\
                                    IsAlreadyExists e = true) pre.
Proof.
  intros Halways. induction fuel as [ | fuel IH]; intros artifacts chain parent chainID opts s.
  - exists []. simpl. rewrite app_nil_r. auto.
  - destruct (uniquePart_run entropy s) as (u & w1 & Hu).
    destruct (Halways (UnpackKey u chainID) parent opts w1) as (e & w2 & Hp & Hae).
    rewrite (prepareLoop_retries sn entropy recur fuel artifacts chain parent chainID opts
               s u w1 w2 e Hu Hp Hae).
    destruct (IH artifacts chain parent chainID opts
                 (mkState w2 (log s ++ [EvPrepare (UnpackKey u chainID) parent (Err e)])))
      as (pre & Hout & Hlog & Hlen & Hall).
    exists (EvPrepare (UnpackKey u chainID) parent (Err e) :: pre).
    split; [ exact Hout | ]. split; [ | split ].
    + rewrite Hlog. simpl log. rewrite <- app_assoc. reflexivity.
    + simpl. rewrite Hlen. reflexivity.
    + constructor; [ exists u, e; auto | exact Hall ].
Qed.

(** X2.  With a snapshotter that answers every prepare with Already-Exists, a
    build that is started never ends: the loop of [applyArtifacts] draws a
    new key and prepares again, without bound and without any other call.
    After a stat that answered Not-Found, both entry points are cut off
    whatever the fuel, and the calls they made besides the stat are refused
    prepares of the same chain ID on the same parent, as many as the fuel
    allowed; nothing is extracted, committed or removed. *)
Theorem build_spins_when_every_prepare_collides
  (a0 : Artifact) (rest : list Artifact) (artifact : Artifact)
  (chain : list digest.Digest) (opts : list Opt) (applyOpts : list diff.ApplyOpt)
  (s : state W) (e0 : error) (w1 : W) :
  alwaysCollides sn ->
  IsNotFound e0 = true ->
  (let digests := map (fun x => Digest (Blob x)) (a0 :: rest) in
   Stat sn (ChainID digests) (world s) = (Some e0, w1) ->
   forall fuel,
     let run := ApplyArtifactsWithOpts ChainID sn a entropy fuel (a0 :: rest) applyOpts s in
     exists pre,
       fst run = OutOfFuel /\
       log (snd run) = log s ++ EvStat (ChainID digests) (Some e0) :: pre /\
       List.length pre = Nat.pred fuel /\
       Forall (fun ev => exists u e,
                 ev = EvPrepare (UnpackKey u (ChainID digests))
                                (ChainID (removelast digests)) (Err e) /\
                 IsAlreadyExists e = true) pre) /\
  (let digests := chain ++ [Digest (Blob artifact)] in
   Stat sn (ChainID digests) (world s) = (Some e0, w1) ->
   forall fuel,
     let run := ApplyArtifactWithOpts ChainID sn a entropy fuel artifact chain
                                      opts applyOpts s in
     exists pre,
       fst run = OutOfFuel /\
       log (snd run) = log s ++ EvStat (ChainID digests) (Some e0) :: pre /\
       List.length pre = Nat.pred fuel /\
       Forall (fun ev => exists u e,
                 ev = EvPrepare (UnpackKey u (ChainID digests))
                                (ChainID (removelast digests)) (Err e) /\
                 IsAlreadyExists e = true) pre).
Proof.
  intros Halways Hnf.
  assert (Hcore : forall fuel (arts : list Artifact) (b0 : Artifact) (brest : list Artifact)
                         (c0 : digest.Digest) (crest : list digest.Digest)
                         (o : list Opt) (s0 : state W),
             arts = b0 :: brest ->
             exists pre,
               fst (applyArtifacts ChainID sn a entropy fuel arts (c0 :: crest) o applyOpts s0)
               = OutOfFuel /\
               log (snd (applyArtifacts ChainID sn a entropy fuel arts (c0 :: crest) o
                                        applyOpts s0))
               = log s0 ++ pre /\
               List.length pre = Nat.pred fuel /\
               Forall (fun ev => exists u e,
                         ev = EvPrepare (UnpackKey u (ChainID (c0 :: crest)))
                                        (ChainID (removelast (c0 :: crest))) (Err e) /\
                         IsAlreadyExists e = true) pre).
  { intros fuel arts b0 brest c0 crest o s0 ->.
    destruct fuel as [ | fuel].
    - exists []. simpl. rewrite app_nil_r. auto.
    - rewrite applyArtifacts_S.
      destruct (prepareLoop_spins
                  (fun arts ch => applyArtifacts ChainID sn a entropy fuel arts ch o applyOpts)
                  fuel Halways (b0 :: brest) (c0 :: crest)
                  (ChainID (removelast (c0 :: crest))) (ChainID (c0 :: crest)) o s0)
        as (pre & Hout & Hlog & Hlen & Hall).
      exists pre. unfold bind.
      destruct (prepareLoop sn entropy _ fuel (b0 :: brest) (c0 :: crest) _ _ o s0)
        as [[x | msg | ] s1]; try discriminate.
      simpl in Hlog. simpl. auto. }
  split.
  - intros digests Hstat fuel run. unfold run.
    rewrite (ApplyArtifactsWithOpts_after_stat ChainID sn a entropy fuel (a0 :: rest)
               applyOpts s e0 w1 Hstat Hnf).
    unfold digests. simpl map.
    destruct (Hcore fuel (a0 :: rest) a0 rest (Digest (Blob a0))
                    (map (fun x => Digest (Blob x)) rest) []
                    (mkState w1 (log s ++ [EvStat (ChainID (Digest (Blob a0)
                                                     :: map (fun x => Digest (Blob x)) rest))
                                                  (Some e0)])) eq_refl)
      as (pre & Hout & Hlog & Hlen & Hall).
    exists pre. unfold bind. simpl map in *.
    destruct (applyArtifacts ChainID sn a entropy fuel (a0 :: rest) _ [] applyOpts _)
      as [[x | msg | ] s1]; try discriminate.
    simpl in Hlog. simpl. rewrite Hlog, <- app_assoc. auto.
  - intros digests Hstat fuel run. unfold run.
    rewrite (ApplyArtifactWithOpts_after_stat ChainID sn a entropy fuel artifact chain
               opts applyOpts s e0 w1 Hstat Hnf).
    fold digests.
    destruct digests as [ | c0 crest] eqn:Hd.
    { exfalso. destruct chain; discriminate. }
    destruct (Hcore fuel [artifact] artifact [] c0 crest opts
                    (mkState w1 (log s ++ [EvStat (ChainID (c0 :: crest)) (Some e0)])) eq_refl)
      as (pre & Hout & Hlog & Hlen & Hall).
    exists pre. unfold bind.
    destruct (applyArtifacts ChainID sn a entropy fuel [artifact] _ opts applyOpts _)
      as [[x | msg | ] s1]; try discriminate.
    simpl in Hlog. simpl. rewrite Hlog, <- app_assoc. auto.
Qed.

(** ** Panics *)

Lemma prepareLoop_no_panic
  (recur : list Artifact -> list digest.Digest -> M W (option error))
  (msg : string) (fuel : nat) :
  forall (artifacts : list Artifact) (chain : list digest.Digest)
         (parent chainID : digest.Digest) (opts : list Opt) (s : state W),
    ((1 < List.length artifacts)%nat ->
     forall s', fst (recur (removelast artifacts) (removelast chain) s') <> Panic msg) ->
    fst (prepareLoop sn entropy recur fuel artifacts chain parent chainID opts s)
    <> Panic msg.
Proof.
  induction fuel as [ | fuel IH]; intros artifacts chain parent chainID opts s Hrecur.
  - discriminate.
  - destruct (uniquePart_run entropy s) as (u & w1 & Hu).
    destruct (Prepare sn (UnpackKey u chainID) parent opts w1) as [r w2] eqn:Hp.
    rewrite (prepareLoop_turn sn entropy recur fuel artifacts chain parent chainID opts
               s u w1 w2 r Hu Hp).
    cbv zeta. destruct r as [mounts | err]; [ discriminate | ].
    destruct (IsNotFound err && (1 <? List.length artifacts)%nat) eqn:Hrec.
    + apply andb_true_iff in Hrec. destruct Hrec as [_ Hlt]. apply Nat.ltb_lt in Hlt.
      unfold bind at 1.
      specialize (Hrecur Hlt (mkState w2 (log s ++ [EvPrepare (UnpackKey u chainID) parent
                                                              (Err err)]))).
      destruct (recur (removelast artifacts) (removelast chain) _) as [[e | msg' | ] s3];
        [ | simpl in *; intros Heq; apply Hrecur; inversion Heq; reflexivity | discriminate ].
      assert (Hnil : fst (prepareLoop sn entropy recur fuel [] chain parent chainID opts s3)
                     <> Panic msg).
      { apply IH. intros Hlt0. inversion Hlt0. }
      destruct e as [err' | ]; [ | exact Hnil ].
      destruct (negb (IsAlreadyExists err')); [ discriminate | exact Hnil ].
    + destruct (IsAlreadyExists err); [ | discriminate ].
      apply IH. exact Hrecur.
Qed.

Lemma removelast_length {A : Type} (l : list A) :
  List.length (removelast l) = Nat.pred (List.length l).
Proof.
  induction l as [ | x l IH]; [ reflexivity | ].
  destruct l as [ | y l]; [ reflexivity | ].
  change (removelast (x :: y :: l)) with (x :: removelast (y :: l)).
  simpl List.length in *. rewrite IH. reflexivity.
Qed.

Lemma applyArtifacts_no_panic (msg : string) (fuel : nat) :
  forall (artifacts : list Artifact) (chain : list digest.Digest)
         (opts : list Opt) (applyOpts : list diff.ApplyOpt) (s : state W),
    (1 <= List.length artifacts)%nat ->
    (List.length artifacts <= List.length chain)%nat ->
    fst (applyArtifacts ChainID sn a entropy fuel artifacts chain opts applyOpts s)
    <> Panic msg.
Proof.
  induction fuel as [ | fuel IH]; intros artifacts chain opts applyOpts s Hone Hlen.
  - discriminate.
  - destruct artifacts as [ | a0 rest]; [ inversion Hone | ].
    destruct chain as [ | c0 crest]; [ inversion Hlen | ].
    rewrite applyArtifacts_S. unfold bind.
    pose proof (prepareLoop_no_panic
                  (fun arts ch => applyArtifacts ChainID sn a entropy fuel arts ch opts applyOpts)
                  msg fuel (a0 :: rest) (c0 :: crest) (ChainID (removelast (c0 :: crest)))
                  (ChainID (c0 :: crest)) opts s) as Hloop.
    destruct (prepareLoop sn entropy _ fuel (a0 :: rest) (c0 :: crest) _ _ opts s)
      as [[[key mounts | e] | msg' | ] s1].
    + destruct (extractAndCommit_closes sn a (last rest a0) (ChainID (c0 :: crest)) key mounts
                  opts applyOpts s1) as (r & s' & tail & Hx & _).
      rewrite Hx. discriminate.
    + discriminate.
    + simpl fst. intros Heq.
      apply Hloop; [ | simpl fst; inversion Heq; reflexivity ].
      intros Hlt s'. apply IH.
      * rewrite removelast_length. simpl List.length in *. simpl Nat.pred.
        apply le_S_n. exact Hlt.
      * rewrite !removelast_length. simpl List.length in *. simpl Nat.pred.
        apply le_S_n. exact Hlen.
    + discriminate.
Qed.

Lemma ApplyArtifactWithOpts_no_panic
  (fuel : nat) (artifact : Artifact) (chain : list digest.Digest) (opts : list Opt)
  (applyOpts : list diff.ApplyOpt) (s : state W) (msg : string) :
  fst (ApplyArtifactWithOpts ChainID sn a entropy fuel artifact chain opts applyOpts s)
  <> Panic msg.
Proof.
  unfold ApplyArtifactWithOpts, bind, snStat, call.
  destruct (Stat sn _ (world s)) as [[e0 | ] w1]; [ | discriminate ].
  destruct (negb (IsNotFound e0)); [ discriminate | ].
  pose proof (applyArtifacts_no_panic msg fuel [artifact]
                (chain ++ [Digest (Blob artifact)]) opts applyOpts
                (mkState w1 (log s ++ [EvStat (ChainID (chain ++ [Digest (Blob artifact)]))
                                              (Some e0)]))) as Hrun.
  destruct (applyArtifacts ChainID sn a entropy fuel [artifact] _ opts applyOpts _)
    as [[[err | ] | msg' | ] s2]; try discriminate.
  - destruct (negb (IsAlreadyExists err)); discriminate.
  - simpl fst. intros Heq.
    apply Hrun; [ apply le_n | | simpl fst; inversion Heq; reflexivity ].
    rewrite length_app. simpl. rewrite Nat.add_comm. apply le_n_S, Nat.le_0_l.
Qed.

(** X3.  The only run-time panic of the Chain Builder is the one of an empty
    list of artifacts.  [ApplyArtifactWithOpts] never panics, and
    [ApplyArtifactsWithOpts] never panics on a list that is not empty,
    whatever the snapshotter and the Diff Applier answer; on the empty list,
    when the stat of the empty chain ID answers Not-Found,
    [ApplyArtifactsWithOpts] panics on the slice [chain[:len(chain)-1]]
    before any other call. *)
Theorem builder_panics_only_on_no_artifacts
  (fuel : nat) (artifacts : list Artifact) (artifact : Artifact)
  (chain : list digest.Digest) (opts : list Opt) (applyOpts : list diff.ApplyOpt)
  (s : state W) (msg : string) :
  fst (ApplyArtifactWithOpts ChainID sn a entropy fuel artifact chain opts applyOpts s)
  <> Panic msg /\
  (artifacts <> [] ->
   fst (ApplyArtifactsWithOpts ChainID sn a entropy fuel artifacts applyOpts s)
   <> Panic msg) /\
  (forall e0 w1,
     Stat sn (ChainID []) (world s) = (Some e0, w1) ->
     IsNotFound e0 = true ->
     ApplyArtifactsWithOpts ChainID sn a entropy (S fuel) [] applyOpts s
     = (Panic "slice bounds out of range [:-1]",
        mkState w1 (log s ++ [EvStat (ChainID []) (Some e0)]))).
Proof.
  split; [ | split ].
  - apply ApplyArtifactWithOpts_no_panic.
  - intros Hne.
    unfold ApplyArtifactsWithOpts, bind, snStat, call.
    destruct (Stat sn _ (world s)) as [[e0 | ] w1]; [ | discriminate ].
    destruct (negb (IsNotFound e0)); [ discriminate | ].
    pose proof (applyArtifacts_no_panic msg fuel artifacts
                  (map (fun x => Digest (Blob x)) artifacts) [] applyOpts
                  (mkState w1 (log s ++ [EvStat (ChainID (map (fun x => Digest (Blob x))
                                                             artifacts)) (Some e0)]))) as Hrun.
    destruct (applyArtifacts ChainID sn a entropy fuel artifacts _ [] applyOpts _)
      as [[[err | ] | msg' | ] s2]; try discriminate.
    + destruct (negb (IsAlreadyExists err)); discriminate.
    + simpl fst. intros Heq.
      apply Hrun; [ | rewrite length_map; apply le_n | simpl fst; inversion Heq; reflexivity ].
      destruct artifacts; [ contradiction | simpl; apply le_n_S, Nat.le_0_l ].
  - intros e0 w1 Hstat Hnf.
    rewrite (ApplyArtifactsWithOpts_after_stat ChainID sn a entropy (S fuel) []
               applyOpts s e0 w1 Hstat Hnf).
    reflexivity.
Qed.

(** ** The calls of a build *)

Lemma piece_mono (artifacts more : list Artifact) (evs : list event) :
  piece ChainID artifacts evs -> piece ChainID (artifacts ++ more) evs.
Proof.
  intros H. destruct H as [key parent e | arts rest u mounts tail Heq Hne Htail].
  - apply piece_refused.
  - apply (@piece_attempt ChainID (artifacts ++ more) arts (rest ++ more) u mounts tail);
      [ rewrite Heq, <- app_assoc; reflexivity | exact Hne | exact Htail ].
Qed.

Lemma removelast_map {A B : Type} (f : A -> B) (l : list A) :
  removelast (map f l) = map f (removelast l).
Proof.
  induction l as [ | x l IH]; [ reflexivity | ].
  destruct l as [ | y l]; [ reflexivity | ].
  change (removelast (map f (x :: y :: l))) with (f x :: removelast (map f (y :: l))).
  rewrite IH. reflexivity.
Qed.

(** The calls of one extraction, after the prepare of its view. *)
Lemma extractAndCommit_tail
  (artifact : Artifact) (chainID : digest.Digest) (key : string)
  (mounts : list Mount) (opts : list Opt) (applyOpts : list diff.ApplyOpt)
  (s : state W) :
  exists r s' tail,
    extractAndCommit sn a artifact chainID key mounts opts applyOpts s = (Done r, s') /\
    log s' = log s ++ tail /\
    attemptTail key chainID (Blob artifact) mounts tail /\
    applied tail = [Blob artifact].
Proof.
  pose proof (extractBody_run sn a artifact chainID key mounts opts applyOpts s) as Hb.
  cbv zeta in Hb.
  destruct (a (Blob artifact) mounts applyOpts (world s)) as [[diff | err] w1].
  - destruct (negb (String.eqb (Digest diff) (Digest (Blob artifact)))) eqn:Hd.
    + rewrite (extractAndCommit_run sn a _ _ _ _ _ _ _ _ _ Hb). simpl world.
      destruct (Remove sn key w1) as [rerr w'].
      do 3 eexists. split; [ reflexivity | ]. simpl log. rewrite <- app_assoc.
      split; [ reflexivity | ]. split; [ | reflexivity ].
      apply tail_mismatch. apply String.eqb_neq.
      destruct (String.eqb (Digest diff) (Digest (Blob artifact))); [ discriminate | reflexivity ].
    + assert (Heq : Digest diff = Digest (Blob artifact)).
      { apply String.eqb_eq.
        destruct (String.eqb (Digest diff) (Digest (Blob artifact)));
          [ reflexivity | discriminate ]. }
      destruct (Commit sn chainID key opts w1) as [[err | ] w2];
        rewrite (extractAndCommit_run sn a _ _ _ _ _ _ _ _ _ Hb).
      * simpl world. destruct (Remove sn key w2) as [rerr w'].
        do 3 eexists. split; [ reflexivity | ]. simpl log. rewrite <- app_assoc.
        split; [ reflexivity | ]. split; [ | reflexivity ].
        apply tail_lost. exact Heq.
      * do 3 eexists. split; [ reflexivity | ].
        split; [ reflexivity | ]. split; [ | reflexivity ].
        apply tail_committed. exact Heq.
  - rewrite (extractAndCommit_run sn a _ _ _ _ _ _ _ _ _ Hb). simpl world.
    destruct (Remove sn key w1) as [rerr w'].
    do 3 eexists. split; [ reflexivity | ]. simpl log. rewrite <- app_assoc.
    split; [ reflexivity | ]. split; [ | reflexivity ].
    apply tail_failed.
Qed.

(** The loop adds pieces that satisfy [P] to the log, as long as its
    recursive call does, and ends on the successful prepare it hands on. *)
Lemma prepareLoop_in_pieces
  (P : list event -> Prop)
  (recur : list Artifact -> list digest.Digest -> M W (option error))
  (arts0 : list Artifact) (chain : list digest.Digest)
  (parent chainID : digest.Digest) (opts : list Opt) :
  (forall key e, P [EvPrepare key parent (Err e)]) ->
  (forall s, exists ps,
     log (snd (recur (removelast arts0) (removelast chain) s)) = log s ++ concat ps /\
     Forall P ps) ->
  forall (fuel : nat) (artifacts : list Artifact) (s : state W),
    artifacts = arts0 \/ artifacts = [] ->
    exists ps,
      Forall P ps /\
      match prepareLoop sn entropy recur fuel artifacts chain parent chainID opts s with
      | (Done (Break key mounts), s') =>
          log s' = log s ++ concat ps ++ [EvPrepare key parent (Ok mounts)] /\
          exists u, key = UnpackKey u chainID
      | (_, s') => log s' = log s ++ concat ps
      end.
Proof.
  intros Hrefused Hrecur.
  induction fuel as [ | fuel IH]; intros artifacts s Harts.
  - exists []. simpl. rewrite app_nil_r. auto.
  - destruct (uniquePart_run entropy s) as (u & w1 & Hu).
    destruct (Prepare sn (UnpackKey u chainID) parent opts w1) as [r w2] eqn:Hp.
    rewrite (prepareLoop_turn sn entropy recur fuel artifacts chain parent chainID opts
               s u w1 w2 r Hu Hp).
    cbv zeta.
    set (s2 := mkState w2 (log s ++ [EvPrepare (UnpackKey u chainID) parent r])).
    destruct r as [mounts | err].
    + exists []. split; [ constructor | ]. split; [ reflexivity | eauto ].
    + assert (Hnext : forall arts (s3 : state W) ps3,
                 arts = arts0 \/ arts = [] ->
                 log s3 = log s2 ++ concat ps3 -> Forall P ps3 ->
                 exists ps,
                   Forall P ps /\
                   match prepareLoop sn entropy recur fuel arts chain parent chainID opts s3 with
                   | (Done (Break key mounts), s') =>
                       log s' = log s ++ concat ps ++ [EvPrepare key parent (Ok mounts)] /\
                       exists u, key = UnpackKey u chainID
                   | (_, s') => log s' = log s ++ concat ps
                   end).
      { intros arts s3 ps3 Ha Hlog Hall.
        destruct (IH arts s3 Ha) as (ps4 & Hall4 & H4).
        exists (([EvPrepare (UnpackKey u chainID) parent (Err err)] :: ps3) ++ ps4).
        split.
        - apply Forall_app. split; [ constructor; [ apply Hrefused | exact Hall ] | exact Hall4 ].
        - rewrite concat_app.
          destruct (prepareLoop sn entropy recur fuel arts chain parent chainID opts s3)
            as [[[key mounts | e] | msg | ] s'];
            [ destruct H4 as [H4 Hkey]; split; [ | exact Hkey ] | | | ];
            rewrite H4, Hlog; unfold s2; simpl log; simpl concat;
            rewrite <- ?app_assoc; reflexivity. }
      destruct (IsNotFound err && (1 <? List.length artifacts)%nat) eqn:Hrec.
      * apply andb_true_iff in Hrec. destruct Hrec as [_ Hlt]. apply Nat.ltb_lt in Hlt.
        assert (Heq : artifacts = arts0).
        { destruct Harts as [Ha | Ha]; [ exact Ha | ]. rewrite Ha in Hlt. inversion Hlt. }
        rewrite Heq. unfold bind.
        destruct (Hrecur s2) as (ps3 & Hlog3 & Hall3).
        destruct (recur (removelast arts0) (removelast chain) s2) as [[e | msg | ] s3];
          simpl snd in Hlog3.
        -- destruct e as [err' | ].
           ++ destruct (negb (IsAlreadyExists err')).
              ** exists ([EvPrepare (UnpackKey u chainID) parent (Err err)] :: ps3).
                 split; [ constructor; [ apply Hrefused | exact Hall3 ] | ].
                 unfold ret. rewrite Hlog3. unfold s2. simpl log. simpl concat.
                 rewrite <- app_assoc. reflexivity.
              ** apply (Hnext [] s3 ps3); auto.
           ++ apply (Hnext [] s3 ps3); auto.
        -- exists ([EvPrepare (UnpackKey u chainID) parent (Err err)] :: ps3).
           split; [ constructor; [ apply Hrefused | exact Hall3 ] | ].
           rewrite Hlog3. unfold s2. simpl log. simpl concat.
           rewrite <- app_assoc. reflexivity.
        -- exists ([EvPrepare (UnpackKey u chainID) parent (Err err)] :: ps3).
           split; [ constructor; [ apply Hrefused | exact Hall3 ] | ].
           rewrite Hlog3. unfold s2. simpl log. simpl concat.
           rewrite <- app_assoc. reflexivity.
      * destruct (IsAlreadyExists err).
        -- apply (Hnext artifacts s2 []); [ exact Harts | rewrite app_nil_r; reflexivity
                                          | constructor ].
        -- exists [[EvPrepare (UnpackKey u chainID) parent (Err err)]].
           split; [ constructor; [ apply Hrefused | constructor ] | reflexivity ].
Qed.

Lemma applyArtifacts_in_pieces (fuel : nat) :
  forall (artifacts : list Artifact) (opts : list Opt) (applyOpts : list diff.ApplyOpt)
         (s : state W),
    exists ps,
      log (snd (applyArtifacts ChainID sn a entropy fuel artifacts
                  (map (fun x => Digest (Blob x)) artifacts) opts applyOpts s))
      = log s ++ concat ps /\
      Forall (piece ChainID artifacts) ps.
Proof.
  induction fuel as [ | fuel IH]; intros artifacts opts applyOpts s.
  - exists []. simpl. rewrite app_nil_r. auto.
  - destruct artifacts as [ | a0 rest].
    { exists []. simpl. rewrite app_nil_r. auto. }
    simpl map. rewrite applyArtifacts_S.
    set (d0 := Digest (Blob a0)).
    set (drest := map (fun x => Digest (Blob x)) rest).
    destruct (prepareLoop_in_pieces (piece ChainID (a0 :: rest))
                (fun arts ch => applyArtifacts ChainID sn a entropy fuel arts ch opts applyOpts)
                (a0 :: rest) (d0 :: drest) (ChainID (removelast (d0 :: drest)))
                (ChainID (d0 :: drest)) opts)
      with (fuel := fuel) (artifacts := a0 :: rest) (s := s)
      as (ps & Hall & Hloop).
    + intros key e. apply piece_refused.
    + intros s'. change (d0 :: drest) with (map (fun x => Digest (Blob x)) (a0 :: rest)).
      rewrite removelast_map.
      destruct (IH (removelast (a0 :: rest)) opts applyOpts s') as (ps' & Hlog' & Hall').
      exists ps'. split; [ exact Hlog' | ].
      rewrite (removelast_app_last a0 rest).
      eapply Forall_impl; [ | exact Hall' ].
      intros evs Hp. apply piece_mono. exact Hp.
    + left. reflexivity.
    + unfold bind.
      destruct (prepareLoop sn entropy _ fuel (a0 :: rest) (d0 :: drest) _ _ opts s)
        as [[[key mounts | e] | msg | ] s1].
      * destruct Hloop as [Hlog (u & Hkey)].
        destruct (extractAndCommit_tail (last rest a0) (ChainID (d0 :: drest)) key mounts
                    opts applyOpts s1) as (r & s' & tail & Hx & Hlog' & Htail & _).
        rewrite Hx. simpl snd.
        exists (ps ++ [EvPrepare key (ChainID (removelast (d0 :: drest))) (Ok mounts) :: tail]).
        split.
        -- rewrite Hlog', Hlog, concat_app. simpl concat.
           rewrite app_nil_r, <- !app_assoc. reflexivity.
        -- apply Forall_app. split; [ exact Hall | ].
           constructor; [ | constructor ].
           subst key.
           change (d0 :: drest) with (map (fun x => Digest (Blob x)) (a0 :: rest)) in *.
           apply (@piece_attempt ChainID (a0 :: rest) (a0 :: rest) [] u mounts tail).
           ++ rewrite app_nil_r. reflexivity.
           ++ discriminate.
           ++ rewrite last_cons. exact Htail.
      * exists ps. split; [ exact Hloop | exact Hall ].
      * exists ps. split; [ exact Hloop | exact Hall ].
      * exists ps. split; [ exact Hloop | exact Hall ].
Qed.

(** X4.  The calls of [ApplyArtifactsWithOpts], however it ends.  After one
    stat of the chain ID of all the artifacts, the calls come in pieces:
    each is a prepare that the snapshotter refused, or a build attempt for
    a prefix of the artifacts that is not empty: the successful prepare of
    a view keyed by the chain ID of the prefix on the chain ID of the
    prefix without its last layer, the extraction of that last layer onto
    the mounts of the view, and then either the commit of the view under
    the chain ID of the prefix, or the removal of the view (after an
    extraction that failed or reported another digest, or after a commit
    that failed).  When the stat does not answer Not-Found there is no
    piece at all. *)
Theorem build_calls_come_in_pieces
  (fuel : nat) (artifacts : list Artifact) (applyOpts : list diff.ApplyOpt) (s : state W) :
  let chainID := ChainID (map (fun x => Digest (Blob x)) artifacts) in
  exists e ps,
    log (snd (ApplyArtifactsWithOpts ChainID sn a entropy fuel artifacts applyOpts s))
    = log s ++ EvStat chainID e :: concat ps /\
    Forall (piece ChainID artifacts) ps /\
    (match e with Some err => IsNotFound err = false | None => True end -> ps = []).
Proof.
  intros chainID.
  destruct (Stat sn chainID (world s)) as [e w1] eqn:Hstat.
  exists e.
  destruct e as [e0 | ].
  - destruct (IsNotFound e0) eqn:Hnf.
    + rewrite (ApplyArtifactsWithOpts_after_stat ChainID sn a entropy fuel artifacts
                 applyOpts s e0 w1 Hstat Hnf).
      destruct (applyArtifacts_in_pieces fuel artifacts [] applyOpts
                  (mkState w1 (log s ++ [EvStat chainID (Some e0)])))
        as (ps & Hlog & Hall).
      exists ps. split; [ | split; [ exact Hall | discriminate ] ].
      unfold bind. fold chainID.
      destruct (applyArtifacts ChainID sn a entropy fuel artifacts _ [] applyOpts _)
        as [[[err | ] | msg | ] s2]; simpl snd in *;
        try destruct (negb (IsAlreadyExists err));
        simpl snd; rewrite Hlog; simpl log; rewrite <- app_assoc; reflexivity.
    + exists []. split; [ | split; [ constructor | reflexivity ] ].
      unfold ApplyArtifactsWithOpts. fold chainID. unfold snStat.
      rewrite (bind_run _ (call_run _ _ s Hstat)). rewrite Hnf. reflexivity.
  - exists []. split; [ | split; [ constructor | reflexivity ] ].
    unfold ApplyArtifactsWithOpts. fold chainID. unfold snStat.
    rewrite (bind_run _ (call_run _ _ s Hstat)). reflexivity.
Qed.

(** ** The order of the extractions *)

Lemma subseq_nil_l {A : Type} (l : list A) : subseq [] l.
Proof. induction l; constructor; assumption. Qed.

Lemma subseq_refl {A : Type} (l : list A) : subseq l l.
Proof. induction l; constructor; assumption. Qed.

Lemma subseq_app {A : Type} (l1 l1' l2 l2' : list A) :
  subseq l1 l1' -> subseq l2 l2' -> subseq (l1 ++ l2) (l1' ++ l2').
Proof.
  intros H1 H2. induction H1; simpl; [ exact H2 | | ]; constructor; assumption.
Qed.

Lemma applied_app (l l' : list event) : applied (l ++ l') = applied l ++ applied l'.
Proof. apply flat_map_app. Qed.

Lemma prepareLoop_applied
  (recur : list Artifact -> list digest.Digest -> M W (option error))
  (arts0 : list Artifact) (chain : list digest.Digest)
  (parent chainID : digest.Digest) (opts : list Opt) (descs : list Descriptor) :
  (forall s, exists evs,
     log (snd (recur (removelast arts0) (removelast chain) s)) = log s ++ evs /\
     subseq (applied evs) descs) ->
  forall (fuel : nat) (artifacts : list Artifact) (s : state W),
    artifacts = arts0 \/ artifacts = [] ->
    exists evs,
      subseq (applied evs) descs /\
      (artifacts = [] -> applied evs = []) /\
      match prepareLoop sn entropy recur fuel artifacts chain parent chainID opts s with
      | (Done (Break key mounts), s') =>
          log s' = log s ++ evs ++ [EvPrepare key parent (Ok mounts)]
      | (_, s') => log s' = log s ++ evs
      end.
Proof.
  intros Hrecur.
  induction fuel as [ | fuel IH]; intros artifacts s Harts.
  - exists []. simpl. rewrite app_nil_r. split; [ apply subseq_nil_l | auto ].
  - destruct (uniquePart_run entropy s) as (u & w1 & Hu).
    destruct (Prepare sn (UnpackKey u chainID) parent opts w1) as [r w2] eqn:Hp.
    rewrite (prepareLoop_turn sn entropy recur fuel artifacts chain parent chainID opts
               s u w1 w2 r Hu Hp).
    cbv zeta.
    set (s2 := mkState w2 (log s ++ [EvPrepare (UnpackKey u chainID) parent r])).
    destruct r as [mounts | err].
    + exists []. split; [ apply subseq_nil_l | ]. split; reflexivity.
    + destruct (IsNotFound err && (1 <? List.length artifacts)%nat) eqn:Hrec.
      * apply andb_true_iff in Hrec. destruct Hrec as [_ Hlt]. apply Nat.ltb_lt in Hlt.
        assert (Heq : artifacts = arts0).
        { destruct Harts as [Ha | Ha]; [ exact Ha | ]. rewrite Ha in Hlt. inversion Hlt. }
        assert (Hne : artifacts <> []).
        { intros Ha. rewrite Ha in Hlt. inversion Hlt. }
        rewrite Heq. unfold bind.
        destruct (Hrecur s2) as (evs3 & Hlog3 & Hsub3).
        assert (Hnext : exists evs,
                   subseq (applied evs) descs /\
                   match prepareLoop sn entropy recur fuel [] chain parent chainID opts
                           (snd (recur (removelast arts0) (removelast chain) s2)) with
                   | (Done (Break key mounts), s') =>
                       log s' = log s ++ evs ++ [EvPrepare key parent (Ok mounts)]
                   | (_, s') => log s' = log s ++ evs
                   end).
        { destruct (IH [] (snd (recur (removelast arts0) (removelast chain) s2)))
            as (evs4 & _ & Hnil4 & H4); [ right; reflexivity | ].
          exists (EvPrepare (UnpackKey u chainID) parent (Err err) :: evs3 ++ evs4).
          split.
          - change (applied (EvPrepare (UnpackKey u chainID) parent (Err err) :: evs3 ++ evs4))
              with (applied (evs3 ++ evs4)).
            rewrite applied_app, (Hnil4 eq_refl), app_nil_r. exact Hsub3.
          - destruct (prepareLoop sn entropy recur fuel [] chain parent chainID opts _)
              as [[[key mounts | e] | msg | ] s'];
              rewrite H4, Hlog3; unfold s2; simpl log;
              rewrite <- ?app_assoc; simpl app; rewrite <- ?app_assoc; reflexivity. }
        destruct (recur (removelast arts0) (removelast chain) s2) as [[e | msg | ] s3];
          simpl snd in *.
        -- destruct e as [err' | ].
           ++ destruct (negb (IsAlreadyExists err')).
              ** exists (EvPrepare (UnpackKey u chainID) parent (Err err) :: evs3).
                 split; [ exact Hsub3 | ]. split; [ intros Ha; subst; contradiction | ].
                 unfold ret. rewrite Hlog3. unfold s2. simpl log.
                 rewrite <- app_assoc. reflexivity.
              ** destruct Hnext as (evs & Hsub & Hlog).
                 exists evs. split; [ exact Hsub | ].
                 split; [ intros Ha; subst; contradiction | exact Hlog ].
           ++ destruct Hnext as (evs & Hsub & Hlog).
              exists evs. split; [ exact Hsub | ].
              split; [ intros Ha; subst; contradiction | exact Hlog ].
        -- exists (EvPrepare (UnpackKey u chainID) parent (Err err) :: evs3).
           split; [ exact Hsub3 | ]. split; [ intros Ha; subst; contradiction | ].
           rewrite Hlog3. unfold s2. simpl log. rewrite <- app_assoc. reflexivity.
        -- exists (EvPrepare (UnpackKey u chainID) parent (Err err) :: evs3).
           split; [ exact Hsub3 | ]. split; [ intros Ha; subst; contradiction | ].
           rewrite Hlog3. unfold s2. simpl log. rewrite <- app_assoc. reflexivity.
      * destruct (IsAlreadyExists err).
        -- destruct (IH artifacts s2 Harts) as (evs4 & Hsub4 & Hnil4 & H4).
           exists (EvPrepare (UnpackKey u chainID) parent (Err err) :: evs4).
           split; [ exact Hsub4 | ]. split; [ exact Hnil4 | ].
           destruct (prepareLoop sn entropy recur fuel artifacts chain parent chainID opts s2)
             as [[[key mounts | e] | msg | ] s'];
             rewrite H4; unfold s2; simpl log; rewrite <- ?app_assoc; reflexivity.
        -- exists [EvPrepare (UnpackKey u chainID) parent (Err err)].
           split; [ apply subseq_nil_l | ]. split; reflexivity.
Qed.

Lemma applyArtifacts_applied (fuel : nat) :
  forall (artifacts : list Artifact) (chain : list digest.Digest)
         (opts : list Opt) (applyOpts : list diff.ApplyOpt) (s : state W),
    exists evs,
      log (snd (applyArtifacts ChainID sn a entropy fuel artifacts chain opts applyOpts s))
      = log s ++ evs /\
      subseq (applied evs) (map Blob artifacts).
Proof.
  induction fuel as [ | fuel IH]; intros artifacts chain opts applyOpts s.
  - exists []. simpl. rewrite app_nil_r. split; [ reflexivity | apply subseq_nil_l ].
  - destruct chain as [ | c0 crest].
    { exists []. simpl. rewrite app_nil_r. split; [ reflexivity | apply subseq_nil_l ]. }
    destruct artifacts as [ | a0 rest].
    { exists []. simpl. rewrite app_nil_r. split; [ reflexivity | apply subseq_nil_l ]. }
    rewrite applyArtifacts_S.
    destruct (prepareLoop_applied
                (fun arts ch => applyArtifacts ChainID sn a entropy fuel arts ch opts applyOpts)
                (a0 :: rest) (c0 :: crest) (ChainID (removelast (c0 :: crest)))
                (ChainID (c0 :: crest)) opts (map Blob (removelast (a0 :: rest)))
                (fun s' => IH (removelast (a0 :: rest)) (removelast (c0 :: crest))
                              opts applyOpts s')
                fuel (a0 :: rest) s (or_introl eq_refl))
      as (evs & Hsub & _ & Hloop).
    assert (Hall : map Blob (a0 :: rest)
                   = map Blob (removelast (a0 :: rest)) ++ [Blob (last rest a0)]).
    { rewrite (removelast_app_last a0 rest) at 1. rewrite map_app. reflexivity. }
    assert (Hskip : subseq (applied evs) (map Blob (a0 :: rest))).
    { rewrite Hall. rewrite <- (app_nil_r (applied evs)).
      apply subseq_app; [ exact Hsub | apply subseq_nil_l ]. }
    unfold bind.
    destruct (prepareLoop sn entropy _ fuel (a0 :: rest) (c0 :: crest) _ _ opts s)
      as [[[key mounts | e] | msg | ] s1].
    + destruct (extractAndCommit_tail (last rest a0) (ChainID (c0 :: crest)) key mounts
                  opts applyOpts s1) as (r & s' & tail & Hx & Hlog' & _ & Happ).
      rewrite Hx. simpl snd.
      exists (evs ++ EvPrepare key (ChainID (removelast (c0 :: crest))) (Ok mounts) :: tail).
      split.
      * rewrite Hlog', Hloop, <- !app_assoc. reflexivity.
      * rewrite applied_app.
        change (applied (EvPrepare key (ChainID (removelast (c0 :: crest))) (Ok mounts) :: tail))
          with (applied tail).
        rewrite Happ, Hall. apply subseq_app; [ exact Hsub | apply subseq_refl ].
    + exists evs. split; [ exact Hloop | exact Hskip ].
    + exists evs. split; [ exact Hloop | exact Hskip ].
    + exists evs. split; [ exact Hloop | exact Hskip ].
Qed.

(** X5.  In one call of [ApplyArtifactsWithOpts], however it ends, the layers
    handed to the Diff Applier are layers of the request, base first and
    each position at most once: the descriptors of the extraction calls, in
    the order of the calls, are the blobs of the artifacts with some left
    out.  The same holds of [applyArtifacts] on any chain. *)
Theorem layers_are_extracted_in_order_at_most_once
  (fuel : nat) (artifacts : list Artifact) (chain : list digest.Digest)
  (opts : list Opt) (applyOpts : list diff.ApplyOpt) (s : state W) :
  (exists evs,
     log (snd (ApplyArtifactsWithOpts ChainID sn a entropy fuel artifacts applyOpts s))
     = log s ++ evs /\
     subseq (applied evs) (map Blob artifacts)) /\
  (exists evs,
     log (snd (applyArtifacts ChainID sn a entropy fuel artifacts chain opts applyOpts s))
     = log s ++ evs /\
     subseq (applied evs) (map Blob artifacts)).
Proof.
  split; [ | apply applyArtifacts_applied ].
  unfold ApplyArtifactsWithOpts, bind, snStat, call.
  destruct (Stat sn _ (world s)) as [[e0 | ] w1].
  - destruct (negb (IsNotFound e0)).
    + eexists. split; [ reflexivity | apply subseq_nil_l ].
    + destruct (applyArtifacts_applied fuel artifacts
                  (map (fun x => Digest (Blob x)) artifacts) [] applyOpts
                  (mkState w1 (log s ++ [EvStat (ChainID (map (fun x => Digest (Blob x))
                                                             artifacts)) (Some e0)])))
        as (evs & Hlog & Hsub).
      exists (EvStat (ChainID (map (fun x => Digest (Blob x)) artifacts)) (Some e0) :: evs).
      split; [ | exact Hsub ].
      destruct (applyArtifacts ChainID sn a entropy fuel artifacts _ [] applyOpts _)
        as [[[err | ] | msg | ] s2]; simpl snd in *;
        try destruct (negb (IsAlreadyExists err));
        simpl snd; rewrite Hlog; simpl log; rewrite <- app_assoc; reflexivity.
  - eexists. split; [ reflexivity | apply subseq_nil_l ].
Qed.

(** ** The errors a build returns *)

Lemma extractAndCommit_explains
  (artifact : Artifact) (chainID : digest.Digest) (key : string)
  (mounts : list Mount) (opts : list Opt) (applyOpts : list diff.ApplyOpt)
  (s : state W) :
  exists r s' tail,
    extractAndCommit sn a artifact chainID key mounts opts applyOpts s = (Done r, s') /\
    log s' = log s ++ tail /\
    forall err, r = Some err -> exists ev, In ev tail /\ explains ev err.
Proof.
  pose proof (extractBody_run sn a artifact chainID key mounts opts applyOpts s) as Hb.
  cbv zeta in Hb.
  destruct (a (Blob artifact) mounts applyOpts (world s)) as [[diff | err] w1].
  - destruct (negb (String.eqb (Digest diff) (Digest (Blob artifact)))) eqn:Hd.
    + rewrite (extractAndCommit_run sn a _ _ _ _ _ _ _ _ _ Hb). simpl world.
      destruct (Remove sn key w1) as [rerr w'].
      do 3 eexists. split; [ reflexivity | ]. simpl log. rewrite <- app_assoc.
      split; [ reflexivity | ].
      intros err Heq. inversion Heq; subst err.
      eexists. split; [ left; reflexivity | ].
      apply wrong_diff. apply String.eqb_neq.
      destruct (String.eqb (Digest diff) (Digest (Blob artifact))); [ discriminate | reflexivity ].
    + destruct (Commit sn chainID key opts w1) as [[err | ] w2];
        rewrite (extractAndCommit_run sn a _ _ _ _ _ _ _ _ _ Hb).
      * simpl world. destruct (Remove sn key w2) as [rerr w'].
        do 3 eexists. split; [ reflexivity | ]. simpl log. rewrite <- app_assoc.
        split; [ reflexivity | ].
        intros err' Heq. inversion Heq; subst err'.
        eexists. split; [ right; left; reflexivity | ]. apply commit_failed.
      * do 3 eexists. split; [ reflexivity | ].
        split; [ reflexivity | ]. discriminate.
  - rewrite (extractAndCommit_run sn a _ _ _ _ _ _ _ _ _ Hb). simpl world.
    destruct (Remove sn key w1) as [rerr w'].
    do 3 eexists. split; [ reflexivity | ]. simpl log. rewrite <- app_assoc.
    split; [ reflexivity | ].
    intros err' Heq. inversion Heq; subst err'.
    eexists. split; [ left; reflexivity | ]. apply extract_failed.
Qed.

Lemma prepareLoop_explains
  (recur : list Artifact -> list digest.Digest -> M W (option error))
  (Hrecur : forall arts ch s, exists evs,
      log (snd (recur arts ch s)) = log s ++ evs /\
      forall err, fst (recur arts ch s) = Done (Some err) ->
                  exists ev, In ev evs /\ explains ev err)
  (fuel : nat) :
  forall (artifacts : list Artifact) (chain : list digest.Digest)
         (parent chainID : digest.Digest) (opts : list Opt) (s : state W),
    exists evs,
      log (snd (prepareLoop sn entropy recur fuel artifacts chain parent chainID opts s))
      = log s ++ evs /\
      forall err,
        fst (prepareLoop sn entropy recur fuel artifacts chain parent chainID opts s)
        = Done (Return err) ->
        exists ev, In ev evs /\ explains ev err.
Proof.
  induction fuel as [ | fuel IH]; intros artifacts chain parent chainID opts s.
  - exists []. simpl. rewrite app_nil_r. split; [ reflexivity | discriminate ].
  - destruct (uniquePart_run entropy s) as (u & w1 & Hu).
    destruct (Prepare sn (UnpackKey u chainID) parent opts w1) as [r w2] eqn:Hp.
    rewrite (prepareLoop_turn sn entropy recur fuel artifacts chain parent chainID opts
               s u w1 w2 r Hu Hp).
    cbv zeta.
    set (s2 := mkState w2 (log s ++ [EvPrepare (UnpackKey u chainID) parent r])).
    destruct r as [mounts | err].
    + eexists. split; [ reflexivity | discriminate ].
    + assert (Hnext : forall arts (s3 : state W) evs3,
                 log s3 = log s2 ++ evs3 ->
                 exists evs,
                   log (snd (prepareLoop sn entropy recur fuel arts chain parent chainID
                                         opts s3))
                   = log s ++ evs /\
                   forall err0,
                     fst (prepareLoop sn entropy recur fuel arts chain parent chainID opts s3)
                     = Done (Return err0) ->
                     exists ev, In ev evs /\ explains ev err0).
      { intros arts s3 evs3 Hlog.
        destruct (IH arts chain parent chainID opts s3) as (evs4 & H4 & Hex4).
        exists ((EvPrepare (UnpackKey u chainID) parent (Err err) :: evs3) ++ evs4).
        split.
        - rewrite H4, Hlog. unfold s2. simpl log. rewrite <- !app_assoc. reflexivity.
        - intros err0 Hret. destruct (Hex4 err0 Hret) as (ev & Hin & Hexp).
          exists ev. split; [ apply in_or_app; right; exact Hin | exact Hexp ]. }
      destruct (IsNotFound err && (1 <? List.length artifacts)%nat).
      * unfold bind.
        destruct (Hrecur (removelast artifacts) (removelast chain) s2) as (evs3 & Hlog3 & Hex3).
        destruct (recur (removelast artifacts) (removelast chain) s2) as [[e | msg | ] s3];
          simpl snd in Hlog3; simpl fst in Hex3.
        -- destruct e as [err' | ].
           ++ destruct (negb (IsAlreadyExists err')).
              ** exists (EvPrepare (UnpackKey u chainID) parent (Err err) :: evs3).
                 split.
                 --- unfold ret. simpl snd. rewrite Hlog3. unfold s2. simpl log.
                     rewrite <- app_assoc. reflexivity.
                 --- unfold ret. simpl fst. intros err0 Heq. inversion Heq; subst err0.
                     destruct (Hex3 err' eq_refl) as (ev & Hin & Hexp).
                     exists ev. split; [ right; exact Hin | exact Hexp ].
              ** eapply Hnext; eassumption.
           ++ eapply Hnext; eassumption.
        -- exists (EvPrepare (UnpackKey u chainID) parent (Err err) :: evs3).
           split; [ | discriminate ].
           simpl snd. rewrite Hlog3. unfold s2. simpl log. rewrite <- app_assoc. reflexivity.
        -- exists (EvPrepare (UnpackKey u chainID) parent (Err err) :: evs3).
           split; [ | discriminate ].
           simpl snd. rewrite Hlog3. unfold s2. simpl log. rewrite <- app_assoc. reflexivity.
      * destruct (IsAlreadyExists err) eqn:Hae.
        -- apply (Hnext artifacts s2 []). rewrite app_nil_r. reflexivity.
        -- exists [EvPrepare (UnpackKey u chainID) parent (Err err)].
           split; [ reflexivity | ].
           simpl fst. intros err0 Heq. inversion Heq; subst err0.
           eexists. split; [ left; reflexivity | ]. apply prepare_failed. exact Hae.
Qed.

Lemma applyArtifacts_explains (fuel : nat) :
  forall (artifacts : list Artifact) (chain : list digest.Digest)
         (opts : list Opt) (applyOpts : list diff.ApplyOpt) (s : state W),
    exists evs,
      log (snd (applyArtifacts ChainID sn a entropy fuel artifacts chain opts applyOpts s))
      = log s ++ evs /\
      forall err,
        fst (applyArtifacts ChainID sn a entropy fuel artifacts chain opts applyOpts s)
        = Done (Some err) ->
        exists ev, In ev evs /\ explains ev err.
Proof.
  induction fuel as [ | fuel IH]; intros artifacts chain opts applyOpts s.
  - exists []. simpl. rewrite app_nil_r. split; [ reflexivity | discriminate ].
  - destruct chain as [ | c0 crest].
    { exists []. simpl. rewrite app_nil_r. split; [ reflexivity | discriminate ]. }
    destruct artifacts as [ | a0 rest].
    { exists []. simpl. rewrite app_nil_r. split; [ reflexivity | discriminate ]. }
    rewrite applyArtifacts_S.
    destruct (prepareLoop_explains
                (fun arts ch => applyArtifacts ChainID sn a entropy fuel arts ch opts applyOpts)
                (fun arts ch s' => IH arts ch opts applyOpts s')
                fuel (a0 :: rest) (c0 :: crest) (ChainID (removelast (c0 :: crest)))
                (ChainID (c0 :: crest)) opts s)
      as (evs & Hlog & Hex).
    unfold bind.
    destruct (prepareLoop sn entropy _ fuel (a0 :: rest) (c0 :: crest) _ _ opts s)
      as [[[key mounts | e] | msg | ] s1]; simpl snd in Hlog; simpl fst in Hex.
    + destruct (extractAndCommit_explains (last rest a0) (ChainID (c0 :: crest)) key mounts
                  opts applyOpts s1) as (r & s' & tail & Hx & Hlog' & Hex').
      rewrite Hx. simpl snd. simpl fst.
      exists (evs ++ tail). split.
      * rewrite Hlog', Hlog, <- app_assoc. reflexivity.
      * intros err Heq. inversion Heq as [Hr].
        destruct (Hex' err Hr) as (ev & Hin & Hexp).
        exists ev. split; [ apply in_or_app; right; exact Hin | exact Hexp ].
    + exists evs. split; [ exact Hlog | ].
      unfold ret. simpl fst. intros err Heq. inversion Heq; subst err.
      apply Hex. reflexivity.
    + exists evs. split; [ exact Hlog | discriminate ].
    + exists evs. split; [ exact Hlog | discriminate ].
Qed.

(** X6.  Every error the Chain Builder returns names a call of the run that
    failed and wraps its answer.  An error of [ApplyArtifactsWithOpts] or
    [ApplyArtifactWithOpts] is either "failed to stat snapshot" around the
    answer of the stat, which was not Not-Found; or it is not an
    Already-Exists error and is made of the answer of one of the calls of
    the run: "failed to prepare extraction snapshot" around a prepare
    answer that was not Already-Exists, "failed to extract layer" around
    the error of the Diff Applier, "wrong diff id calculated on extraction"
    with the digest the Diff Applier reported, or "failed to commit
    snapshot" around the answer of the commit.  A single-layer apply that
    returns an error did not apply. *)
Theorem build_errors_wrap_the_failed_call
  (fuel : nat) (artifacts : list Artifact) (artifact : Artifact)
  (chain : list digest.Digest) (opts : list Opt) (applyOpts : list diff.ApplyOpt)
  (s : state W) :
  (let chainID := ChainID (map (fun x => Digest (Blob x)) artifacts) in
   let run := ApplyArtifactsWithOpts ChainID sn a entropy fuel artifacts applyOpts s in
   exists evs,
     log (snd run) = log s ++ evs /\
     forall err,
       fst run = Done (Err err) ->
       (exists e, In (EvStat chainID (Some e)) evs /\ IsNotFound e = false /\
                  err = Wrapf "failed to stat snapshot %s: %w" [chainID] e) \/
       (IsAlreadyExists err = false /\ exists ev, In ev evs /\ explains ev err)) /\
  (let chainID := ChainID (chain ++ [Digest (Blob artifact)]) in
   let run := ApplyArtifactWithOpts ChainID sn a entropy fuel artifact chain
                                    opts applyOpts s in
   exists evs,
     log (snd run) = log s ++ evs /\
     forall applied err,
       fst run = Done (applied, Some err) ->
       applied = false /\
       ((exists e, In (EvStat chainID (Some e)) evs /\ IsNotFound e = false /\
                   err = Wrapf "failed to stat snapshot %s: %w" [chainID] e) \/
        (IsAlreadyExists err = false /\ exists ev, In ev evs /\ explains ev err))).
Proof.
  split; intros chainID run; unfold run.
  - destruct (Stat sn chainID (world s)) as [[e0 | ] w1] eqn:Hstat.
    + destruct (IsNotFound e0) eqn:Hnf.
      * rewrite (ApplyArtifactsWithOpts_after_stat ChainID sn a entropy fuel artifacts
                   applyOpts s e0 w1 Hstat Hnf).
        fold chainID.
        destruct (applyArtifacts_explains fuel artifacts
                    (map (fun x => Digest (Blob x)) artifacts) [] applyOpts
                    (mkState w1 (log s ++ [EvStat chainID (Some e0)])))
          as (evs & Hlog & Hex).
        exists (EvStat chainID (Some e0) :: evs). unfold bind.
        destruct (applyArtifacts ChainID sn a entropy fuel artifacts _ [] applyOpts _)
          as [[[err | ] | msg | ] s2]; simpl snd in Hlog; simpl fst in Hex.
        -- destruct (IsAlreadyExists err) eqn:Hae; simpl negb; cbv iota; unfold ret;
             simpl snd; simpl fst;
             (split; [ rewrite Hlog; simpl log; rewrite <- app_assoc; reflexivity | ]).
           ++ discriminate.
           ++ intros err0 Heq. inversion Heq; subst err0. right.
              split; [ exact Hae | ].
              destruct (Hex err eq_refl) as (ev & Hin & Hexp).
              exists ev. split; [ right; exact Hin | exact Hexp ].
        -- unfold ret. simpl snd. simpl fst.
           split; [ rewrite Hlog; simpl log; rewrite <- app_assoc; reflexivity | discriminate ].
        -- simpl snd. simpl fst.
           split; [ rewrite Hlog; simpl log; rewrite <- app_assoc; reflexivity | discriminate ].
        -- simpl snd. simpl fst.
           split; [ rewrite Hlog; simpl log; rewrite <- app_assoc; reflexivity | discriminate ].
      * assert (Hrun : ApplyArtifactsWithOpts ChainID sn a entropy fuel artifacts applyOpts s
                       = (Done (Err (Wrapf "failed to stat snapshot %s: %w" [chainID] e0)),
                          mkState w1 (log s ++ [EvStat chainID (Some e0)]))).
        { unfold ApplyArtifactsWithOpts. fold chainID. unfold snStat.
          rewrite (bind_run _ (call_run _ _ s Hstat)). rewrite Hnf. reflexivity. }
        rewrite Hrun.
        exists [EvStat chainID (Some e0)]. simpl snd. simpl fst.
        split; [ reflexivity | ].
        intros err Heq. inversion Heq; subst err. left.
        exists e0. split; [ left; reflexivity | auto ].
    + assert (Hrun : ApplyArtifactsWithOpts ChainID sn a entropy fuel artifacts applyOpts s
                     = (Done (Ok chainID), mkState w1 (log s ++ [EvStat chainID None]))).
      { unfold ApplyArtifactsWithOpts. fold chainID. unfold snStat.
        rewrite (bind_run _ (call_run _ _ s Hstat)). reflexivity. }
      rewrite Hrun.
      exists [EvStat chainID None]. simpl snd. simpl fst.
      split; [ reflexivity | discriminate ].
  - destruct (Stat sn chainID (world s)) as [[e0 | ] w1] eqn:Hstat.
    + destruct (IsNotFound e0) eqn:Hnf.
      * rewrite (ApplyArtifactWithOpts_after_stat ChainID sn a entropy fuel artifact chain
                   opts applyOpts s e0 w1 Hstat Hnf).
        fold chainID.
        destruct (applyArtifacts_explains fuel [artifact]
                    (chain ++ [Digest (Blob artifact)]) opts applyOpts
                    (mkState w1 (log s ++ [EvStat chainID (Some e0)])))
          as (evs & Hlog & Hex).
        exists (EvStat chainID (Some e0) :: evs). unfold bind.
        destruct (applyArtifacts ChainID sn a entropy fuel [artifact] _ opts applyOpts _)
          as [[[err | ] | msg | ] s2]; simpl snd in Hlog; simpl fst in Hex.
        -- destruct (IsAlreadyExists err) eqn:Hae; simpl negb; cbv iota; unfold ret;
             simpl snd; simpl fst;
             (split; [ rewrite Hlog; simpl log; rewrite <- app_assoc; reflexivity | ]).
           ++ discriminate.
           ++ intros b err0 Heq. inversion Heq; subst b err0.
              split; [ reflexivity | ]. right.
              split; [ exact Hae | ].
              destruct (Hex err eq_refl) as (ev & Hin & Hexp).
              exists ev. split; [ right; exact Hin | exact Hexp ].
        -- unfold ret. simpl snd. simpl fst.
           split; [ rewrite Hlog; simpl log; rewrite <- app_assoc; reflexivity | discriminate ].
        -- simpl snd. simpl fst.
           split; [ rewrite Hlog; simpl log; rewrite <- app_assoc; reflexivity | discriminate ].
        -- simpl snd. simpl fst.
           split; [ rewrite Hlog; simpl log; rewrite <- app_assoc; reflexivity | discriminate ].
      * assert (Hrun : ApplyArtifactWithOpts ChainID sn a entropy fuel artifact chain
                                             opts applyOpts s
                       = (Done (false,
                                Some (Wrapf "failed to stat snapshot %s: %w" [chainID] e0)),
                          mkState w1 (log s ++ [EvStat chainID (Some e0)]))).
        { unfold ApplyArtifactWithOpts. fold chainID. unfold snStat.
          rewrite (bind_run _ (call_run _ _ s Hstat)). rewrite Hnf. reflexivity. }
        rewrite Hrun.
        exists [EvStat chainID (Some e0)]. simpl snd. simpl fst.
        split; [ reflexivity | ].
        intros b err Heq. inversion Heq; subst b err.
        split; [ reflexivity | ]. left.
        exists e0. split; [ left; reflexivity | auto ].
    + assert (Hrun : ApplyArtifactWithOpts ChainID sn a entropy fuel artifact chain
                                           opts applyOpts s
                     = (Done (false, None), mkState w1 (log s ++ [EvStat chainID None]))).
      { unfold ApplyArtifactWithOpts. fold chainID. unfold snStat.
        rewrite (bind_run _ (call_run _ _ s Hstat)). reflexivity. }
      rewrite Hrun.
      exists [EvStat chainID None]. simpl snd. simpl fst.
      split; [ reflexivity | discriminate ].
Qed.

(** ** An extraction error that is an Already-Exists error *)

Lemma applyArtifacts_nonempty
  (fuel : nat) (a0 : Artifact) (rest : list Artifact) (chain : list digest.Digest)
  (opts : list Opt) (applyOpts : list diff.ApplyOpt) :
  chain <> [] ->
  applyArtifacts ChainID sn a entropy (S fuel) (a0 :: rest) chain opts applyOpts
  = bind (prepareLoop sn entropy
            (fun arts ch => applyArtifacts ChainID sn a entropy fuel arts ch opts applyOpts)
            fuel (a0 :: rest) chain (ChainID (removelast chain)) (ChainID chain) opts)
         (fun x => match x with
                   | Return err => ret (Some err)
                   | Break key mounts =>
                       extractAndCommit sn a (last rest a0) (ChainID chain)
                                        key mounts opts applyOpts
                   end).
Proof. destruct chain as [ | c0 crest]; [ contradiction | reflexivity ]. Qed.

(** What [applyArtifacts] does after the [break] when the Diff Applier
    fails: the view is removed and the error of the Diff Applier is
    returned inside "failed to extract layer". *)
Lemma applyArtifacts_extraction_fails
  (fuel : nat) (a0 : Artifact) (rest : list Artifact) (chain : list digest.Digest)
  (opts : list Opt) (applyOpts : list diff.ApplyOpt)
  (s s1 : state W) (key : string) (mounts : list Mount) (e : error) (w1 : W) :
  chain <> [] ->
  prepareLoop sn entropy
    (fun arts ch => applyArtifacts ChainID sn a entropy fuel arts ch opts applyOpts)
    fuel (a0 :: rest) chain (ChainID (removelast chain)) (ChainID chain) opts s
  = (Done (Break key mounts), s1) ->
  a (Blob (last rest a0)) mounts applyOpts (world s1) = (Err e, w1) ->
  applyArtifacts ChainID sn a entropy (S fuel) (a0 :: rest) chain opts applyOpts s
  = (Done (Some (Wrapf "failed to extract layer %s: %w" [Digest (Blob (last rest a0))] e)),
     mkState (snd (Remove sn key w1))
             (log s1 ++ [EvApply (Blob (last rest a0)) mounts (Err e);
                         EvRemove key (fst (Remove sn key w1))])).
Proof.
  intros Hne Hloop Ha.
  rewrite (applyArtifacts_nonempty fuel a0 rest chain opts applyOpts Hne).
  rewrite (bind_run _ Hloop).
  pose proof (extractBody_run sn a (last rest a0) (ChainID chain) key mounts opts
                              applyOpts s1) as Hb.
  cbv zeta in Hb. rewrite Ha in Hb.
  rewrite (extractAndCommit_run sn a _ _ _ _ _ _ _ _ _ Hb). simpl world.
  destruct (Remove sn key w1) as [rerr w2]. simpl log. rewrite <- app_assoc. reflexivity.
Qed.

(** X7.  An error of the Diff Applier that is an Already-Exists error is not
    reported.  When the stat answers Not-Found, the loop prepares a view
    and the extraction onto it fails with such an error, the view is
    removed and nothing is committed, yet [ApplyArtifactsWithOpts] returns
    the chain ID without error and [ApplyArtifactWithOpts] returns (false,
    nil), as they do when the snapshot exists. *)
Theorem already_exists_from_the_applier_is_swallowed
  (fuel : nat) (a0 : Artifact) (rest : list Artifact) (artifact : Artifact)
  (chain : list digest.Digest) (opts : list Opt) (applyOpts : list diff.ApplyOpt)
  (s s1 : state W) (e0 e : error) (w0 w1 : W) (key : string) (mounts : list Mount) :
  IsNotFound e0 = true ->
  IsAlreadyExists e = true ->
  (let digests := map (fun x => Digest (Blob x)) (a0 :: rest) in
   Stat sn (ChainID digests) (world s) = (Some e0, w0) ->
   prepareLoop sn entropy
     (fun arts ch => applyArtifacts ChainID sn a entropy fuel arts ch [] applyOpts)
     fuel (a0 :: rest) digests (ChainID (removelast digests)) (ChainID digests) []
     (mkState w0 (log s ++ [EvStat (ChainID digests) (Some e0)]))
   = (Done (Break key mounts), s1) ->
   a (Blob (last rest a0)) mounts applyOpts (world s1) = (Err e, w1) ->
   ApplyArtifactsWithOpts ChainID sn a entropy (S fuel) (a0 :: rest) applyOpts s
   = (Done (Ok (ChainID digests)),
      mkState (snd (Remove sn key w1))
              (log s1 ++ [EvApply (Blob (last rest a0)) mounts (Err e);
                          EvRemove key (fst (Remove sn key w1))]))) /\
  (let digests := chain ++ [Digest (Blob artifact)] in
   Stat sn (ChainID digests) (world s) = (Some e0, w0) ->
   prepareLoop sn entropy
     (fun arts ch => applyArtifacts ChainID sn a entropy fuel arts ch opts applyOpts)
     fuel [artifact] digests (ChainID chain) (ChainID digests) opts
     (mkState w0 (log s ++ [EvStat (ChainID digests) (Some e0)]))
   = (Done (Break key mounts), s1) ->
   a (Blob artifact) mounts applyOpts (world s1) = (Err e, w1) ->
   ApplyArtifactWithOpts ChainID sn a entropy (S fuel) artifact chain opts applyOpts s
   = (Done (false, None),
      mkState (snd (Remove sn key w1))
              (log s1 ++ [EvApply (Blob artifact) mounts (Err e);
                          EvRemove key (fst (Remove sn key w1))]))).
Proof.
  intros Hnf Hae. split; intros digests Hstat Hloop Ha.
  - rewrite (ApplyArtifactsWithOpts_after_stat ChainID sn a entropy (S fuel) (a0 :: rest)
               applyOpts s e0 w0 Hstat Hnf).
    fold digests.
    assert (Hne : digests <> []) by (unfold digests; simpl; discriminate).
    rewrite (bind_run _ (applyArtifacts_extraction_fails fuel a0 rest digests [] applyOpts
                           _ s1 key mounts e w1 Hne Hloop Ha)).
    change (IsAlreadyExists (Wrapf "failed to extract layer %s: %w"
                                   [Digest (Blob (last rest a0))] e))
      with (IsAlreadyExists e).
    rewrite Hae. reflexivity.
  - rewrite (ApplyArtifactWithOpts_after_stat ChainID sn a entropy (S fuel) artifact chain
               opts applyOpts s e0 w0 Hstat Hnf).
    fold digests.
    assert (Hne : digests <> []) by (unfold digests; destruct chain; discriminate).
    assert (Hparent : removelast digests = chain) by apply removelast_last.
    rewrite <- Hparent in Hloop at 1.
    rewrite (bind_run _ (applyArtifacts_extraction_fails fuel artifact [] digests opts applyOpts
                           _ s1 key mounts e w1 Hne Hloop Ha)).
    change (IsAlreadyExists (Wrapf "failed to extract layer %s: %w"
                                   [Digest (Blob (last [] artifact))] e))
      with (IsAlreadyExists e).
    rewrite Hae. reflexivity.
Qed.

End BuilderRuns.

(** ** What a computation adds to the log *)

Lemma logs_ret {W A : Type} (Q : list event -> Prop) (x : A) :
  Q [] -> logs Q (@ret W A x).
Proof. intros HQ s. exists []. simpl. rewrite app_nil_r. auto. Qed.

Lemma logs_call {W A : Type} (Q : list event -> Prop) (f : W -> A * W) (ev : A -> event) :
  (forall x, Q [ev x]) -> logs Q (call f ev).
Proof.
  intros Hev s. unfold call. destruct (f (world s)) as [x w'].
  exists [ev x]. split; [ reflexivity | apply Hev ].
Qed.

Lemma logs_bind {W A B : Type} (Q1 Q2 Q : list event -> Prop)
  (c : M W A) (k : A -> M W B) :
  logs Q1 c -> (forall x, logs Q2 (k x)) ->
  (forall l, Q1 l -> Q l) ->
  (forall l1 l2, Q1 l1 -> Q2 l2 -> Q (l1 ++ l2)) ->
  logs Q (bind c k).
Proof.
  intros Hc Hk Hone Hboth s. destruct (Hc s) as (evs & Hlog & HQ).
  unfold bind. destruct (c s) as [[x | msg | ] s1]; simpl snd in Hlog.
  - destruct (Hk x s1) as (evs' & Hlog' & HQ').
    exists (evs ++ evs'). rewrite Hlog', Hlog, app_assoc. auto.
  - exists evs. auto.
  - exists evs. auto.
Qed.

Lemma logs_impl {W A : Type} (Q Q' : list event -> Prop) (c : M W A) :
  (forall l, Q l -> Q' l) -> logs Q c -> logs Q' c.
Proof.
  intros Himpl Hc s. destruct (Hc s) as (evs & Hlog & HQ). exists evs. auto.
Qed.

Lemma emits_ret {W A : Type} (P : event -> bool) (x : A) : emits P (@ret W A x).
Proof. apply logs_ret. reflexivity. Qed.

Lemma emits_call {W A : Type} (P : event -> bool) (f : W -> A * W) (ev : A -> event) :
  (forall x, P (ev x) = true) -> emits P (call f ev).
Proof. intros Hev. apply logs_call. intros x. simpl. rewrite Hev. reflexivity. Qed.

Lemma emits_bind {W A B : Type} (P : event -> bool) (c : M W A) (k : A -> M W B) :
  emits P c -> (forall x, emits P (k x)) -> emits P (bind c k).
Proof.
  intros Hc Hk.
  apply (logs_bind (fun l => forallb P l = true) (fun l => forallb P l = true));
    [ exact Hc | exact Hk | auto | ].
  intros l1 l2 H1 H2. rewrite forallb_app, H1, H2. reflexivity.
Qed.

Lemma emits_impl {W A : Type} (P P' : event -> bool) (c : M W A) :
  (forall ev, P ev = true -> P' ev = true) -> emits P c -> emits P' c.
Proof.
  intros Himpl. apply logs_impl. intros l Hl.
  apply forallb_forall. intros ev Hin. apply Himpl.
  exact (proj1 (forallb_forall P l) Hl ev Hin).
Qed.

Lemma bind_Done {W A B : Type} (c : M W A) (k : A -> M W B) (s s' : state W) (y : B) :
  bind c k s = (Done y, s') ->
  exists x s1, c s = (Done x, s1) /\ k x s1 = (Done y, s').
Proof.
  unfold bind. destruct (c s) as [[x | msg | ] s1]; try discriminate. eauto.
Qed.

Lemma call_Done {W A : Type} (f : W -> A * W) (ev : A -> event) (s s' : state W) (x : A) :
  call f ev s = (Done x, s') ->
  f (world s) = (x, world s') /\ log s' = log s ++ [ev x].
Proof.
  unfold call. destruct (f (world s)) as [x' w']. intros H. inversion H. auto.
Qed.

Lemma logs_Done {W A : Type} (Q : list event -> Prop) (c : M W A)
  (s s' : state W) (o : outcome A) :
  logs Q c -> c s = (o, s') -> exists evs, log s' = log s ++ evs /\ Q evs.
Proof.
  intros Hc Heq. destruct (Hc s) as (evs & Hlog & HQ). rewrite Heq in Hlog. eauto.
Qed.

Lemma neverPanics_ret {W A : Type} (x : A) : neverPanics (@ret W A x).
Proof. intros s msg. discriminate. Qed.

Lemma neverPanics_call {W A : Type} (f : W -> A * W) (ev : A -> event) :
  neverPanics (call f ev).
Proof. intros s msg. unfold call. destruct (f (world s)). discriminate. Qed.

Lemma neverPanics_bind {W A B : Type} (c : M W A) (k : A -> M W B) :
  neverPanics c -> (forall x, neverPanics (k x)) -> neverPanics (bind c k).
Proof.
  intros Hc Hk s msg. unfold bind. specialize (Hc s msg).
  destruct (c s) as [[x | msg' | ] s1].
  - apply Hk.
  - simpl fst in *. intros Heq. apply Hc. inversion Heq. reflexivity.
  - discriminate.
Qed.

(** ** What a success of the build means *)

Section BuilderSuccess.

Context {W Opt : Type}.
Variable ChainID : list digest.Digest -> digest.Digest.
Variable sn : Snapshotter W Opt.
Variable a : Applier W.
Variable entropy : Entropy W.

Lemma extractAndCommit_done
  (artifact : Artifact) (chainID : digest.Digest) (key : string)
  (mounts : list Mount) (opts : list Opt) (applyOpts : list diff.ApplyOpt)
  (s s' : state W) :
  extractAndCommit sn a artifact chainID key mounts opts applyOpts s = (Done None, s') ->
  exists diff,
    log s' = log s ++ [EvApply (Blob artifact) mounts (Ok diff); EvCommit chainID key None] /\
    Digest diff = Digest (Blob artifact).
Proof.
  intros H.
  pose proof (extractBody_run sn a artifact chainID key mounts opts applyOpts s) as Hb.
  cbv zeta in Hb.
  destruct (a (Blob artifact) mounts applyOpts (world s)) as [[diff | err] w1].
  - destruct (negb (String.eqb (Digest diff) (Digest (Blob artifact)))) eqn:Hd.
    + rewrite (extractAndCommit_run sn a _ _ _ _ _ _ _ _ _ Hb) in H.
      destruct (Remove sn key (world _)) in H. discriminate.
    + destruct (Commit sn chainID key opts w1) as [[err | ] w2];
        rewrite (extractAndCommit_run sn a _ _ _ _ _ _ _ _ _ Hb) in H.
      * destruct (Remove sn key (world _)) in H. discriminate.
      * inversion H; subst s'. exists diff. split; [ reflexivity | ].
        apply String.eqb_eq.
        destruct (String.eqb (Digest diff) (Digest (Blob artifact)));
          [ reflexivity | discriminate ].
  - rewrite (extractAndCommit_run sn a _ _ _ _ _ _ _ _ _ Hb) in H.
    destruct (Remove sn key (world _)) in H. discriminate.
Qed.

Lemma applyArtifacts_done
  (fuel : nat) (artifacts : list Artifact) (chain : list digest.Digest)
  (opts : list Opt) (applyOpts : list diff.ApplyOpt) (s s' : state W) :
  applyArtifacts ChainID sn a entropy fuel artifacts chain opts applyOpts s
  = (Done None, s') ->
  exists pre key mounts diff,
    log s' = log s ++ pre ++
               [EvPrepare key (ChainID (removelast chain)) (Ok mounts);
                EvApply (Blob (last artifacts (mkArtifact emptyDesc))) mounts (Ok diff);
                EvCommit (ChainID chain) key None] /\
    Digest diff = Digest (Blob (last artifacts (mkArtifact emptyDesc))).
Proof.
  intros H. destruct fuel as [ | fuel]; [ discriminate | ].
  destruct chain as [ | c0 crest]; [ discriminate | ].
  destruct artifacts as [ | a0 rest]; [ discriminate | ].
  rewrite applyArtifacts_S in H.
  destruct (prepareLoop_applied sn entropy
              (fun arts ch => applyArtifacts ChainID sn a entropy fuel arts ch opts applyOpts)
              (a0 :: rest) (c0 :: crest) (ChainID (removelast (c0 :: crest)))
              (ChainID (c0 :: crest)) opts (map Blob (removelast (a0 :: rest)))
              (fun s0 => applyArtifacts_applied ChainID sn a entropy fuel (removelast (a0 :: rest))
                           (removelast (c0 :: crest)) opts applyOpts s0)
              fuel (a0 :: rest) s (or_introl eq_refl))
    as (evs & _ & _ & Hloop).
  unfold bind in H.
  destruct (prepareLoop sn entropy _ fuel (a0 :: rest) (c0 :: crest) _ _ opts s)
    as [[[key mounts | e] | msg | ] s1]; try discriminate.
  destruct (extractAndCommit_done _ _ _ _ _ _ _ _ H) as (diff & Hlog & Hd).
  exists evs, key, mounts, diff. rewrite last_cons.
  split; [ | exact Hd ].
  rewrite Hlog, Hloop, <- !app_assoc. reflexivity.
Qed.

(** X8.  What it means that [ApplyArtifactsWithOpts] returns without error.
    The digest returned is the chain ID of the digests of the artifacts,
    and one of three things happened: the stat found the snapshot and
    nothing else was called; or the last two calls are the extraction of
    the last artifact, which reported the declared digest, and the commit
    of the view under that chain ID, which succeeded; or an extraction or
    a commit of the run answered an Already-Exists error, which the build
    takes for a snapshot made by someone else. *)
Theorem ApplyArtifactsWithOpts_succeeds_for_a_reason
  (fuel : nat) (artifacts : list Artifact) (applyOpts : list diff.ApplyOpt)
  (s s' : state W) (id : digest.Digest) :
  ApplyArtifactsWithOpts ChainID sn a entropy fuel artifacts applyOpts s
  = (Done (Ok id), s') ->
  let chainID := ChainID (map (fun x => Digest (Blob x)) artifacts) in
  let top := Blob (last artifacts (mkArtifact emptyDesc)) in
  id = chainID /\
  exists evs,
    log s' = log s ++ evs /\
    (evs = [EvStat chainID None] \/
     (exists pre key mounts diff,
        evs = pre ++ [EvApply top mounts (Ok diff); EvCommit chainID key None] /\
        Digest diff = Digest top) \/
     (exists e,
        IsAlreadyExists e = true /\
        ((exists desc mounts, In (EvApply desc mounts (Err e)) evs) \/
         (exists name key, In (EvCommit name key (Some e)) evs)))).
Proof.
  intros H chainID top.
  destruct (Stat sn chainID (world s)) as [[e0 | ] w1] eqn:Hstat.
  - destruct (IsNotFound e0) eqn:Hnf.
    + rewrite (ApplyArtifactsWithOpts_after_stat ChainID sn a entropy fuel artifacts
                 applyOpts s e0 w1 Hstat Hnf) in H.
      fold chainID in H.
      apply bind_Done in H. destruct H as (r & s1 & Hrun & H).
      destruct r as [err | ].
      * destruct (IsAlreadyExists err) eqn:Hae; simpl negb in H; cbv iota in H;
          unfold ret in H; inversion H; subst id s1.
        split; [ reflexivity | ].
        destruct (applyArtifacts_explains ChainID sn a entropy fuel artifacts
                    (map (fun x => Digest (Blob x)) artifacts) [] applyOpts
                    (mkState w1 (log s ++ [EvStat chainID (Some e0)])))
          as (evs & Hlog & Hex).
        rewrite Hrun in Hlog, Hex. simpl snd in Hlog. simpl fst in Hex.
        destruct (Hex err eq_refl) as (ev & Hin & Hexp).
        exists (EvStat chainID (Some e0) :: evs).
        split; [ rewrite Hlog; simpl log; rewrite <- app_assoc; reflexivity | ].
        right. right.
        destruct Hexp as [key parent e Hne | desc mounts e | desc diff mounts Hne
                         | name key e].
        -- change (IsAlreadyExists e = true) in Hae. rewrite Hne in Hae. discriminate.
        -- exists e. split; [ exact Hae | ]. left. exists desc, mounts. right. exact Hin.
        -- discriminate.
        -- exists e. split; [ exact Hae | ]. right. exists name, key. right. exact Hin.
      * unfold ret in H. inversion H; subst id s1.
        split; [ reflexivity | ].
        destruct (applyArtifacts_done fuel artifacts _ [] applyOpts _ _ Hrun)
          as (pre & key & mounts & diff & Hlog & Hd).
        eexists. split; [ rewrite Hlog; simpl log; rewrite <- app_assoc; reflexivity | ].
        right. left.
        exists (EvStat chainID (Some e0)
                  :: pre ++ [EvPrepare key (ChainID (removelast
                                                        (map (fun x => Digest (Blob x))
                                                             artifacts))) (Ok mounts)]),
          key, mounts, diff.
        split; [ | exact Hd ].
        simpl app. rewrite <- !app_assoc. reflexivity.
    + exfalso. unfold ApplyArtifactsWithOpts in H. fold chainID in H. unfold snStat in H.
      rewrite (bind_run _ (call_run _ _ s Hstat)) in H. rewrite Hnf in H. discriminate.
  - unfold ApplyArtifactsWithOpts in H. fold chainID in H. unfold snStat in H.
    rewrite (bind_run _ (call_run _ _ s Hstat)) in H. unfold ret in H.
    inversion H; subst id s'.
    split; [ reflexivity | ].
    exists [EvStat chainID None]. split; [ reflexivity | left; reflexivity ].
Qed.

End BuilderSuccess.

(** ** Runs of the Unpack driver *)

Section ImageRuns.

Context {W Opt Reader : Type}.
Variable ChainID : list digest.Digest -> digest.Digest.
Variable client : Client W Opt.
Variable host : ApplierHost W Reader.
Variable entropy : Entropy W.

Lemma ApplyArtifactWithOpts_emits
  (P : event -> bool) (sn : Snapshotter W Opt) (a : Applier W)
  (fuel : nat) (artifact : Artifact) (chain : list digest.Digest)
  (opts : list Opt) (applyOpts : list diff.ApplyOpt) :
  (forall ev, builderEvent ev = true -> P ev = true) ->
  emits P (ApplyArtifactWithOpts ChainID sn a entropy fuel artifact chain opts applyOpts).
Proof.
  intros HP. apply (emits_impl builderEvent); [ exact HP | ].
  intros s.
  destruct (ApplyArtifactWithOpts_shape ChainID sn a entropy fuel artifact chain
              opts applyOpts s) as (evs & Hlog & Hb & _).
  exists evs. auto.
Qed.

Lemma unpackLayers_emits
  (P : event -> bool) (fuel : nat) (sn : Snapshotter W Opt) (a : Applier W)
  (config : UnpackConfig Opt) (artifacts : list Artifact) :
  (forall ev, builderEvent ev = true -> P ev = true) ->
  (forall info fieldpath e, P (EvUpdate info fieldpath e) = true) ->
  forall chain, emits P (unpackLayers ChainID client entropy fuel sn a config artifacts chain).
Proof.
  intros Hb Hu. induction artifacts as [ | artifact rest IH]; intros chain.
  - apply emits_ret.
  - simpl unpackLayers. apply emits_bind; [ apply ApplyArtifactWithOpts_emits; exact Hb | ].
    intros [unpacked [err | ]]; [ apply emits_ret | ].
    destruct unpacked; [ | apply IH ].
    apply emits_bind; [ apply emits_call; intros e; apply Hu | ].
    intros [err | ]; [ apply emits_ret | apply IH ].
Qed.

Lemma resolveSnapshotterName_emits (P : event -> bool) (name : string) :
  (forall l r, P (EvGetLabel l r) = true) ->
  emits P (resolveSnapshotterName client name).
Proof.
  intros HP. unfold resolveSnapshotterName. destruct (String.eqb name "").
  - apply emits_bind; [ apply emits_call; intros r; apply HP | ].
    intros [label | err]; [ | apply emits_ret ].
    destruct (negb (String.eqb label "")); apply emits_ret.
  - apply emits_ret.
Qed.

(** A name that is given is taken as it is, without a call. *)
Lemma resolveSnapshotterName_given (name : string) (s : state W) :
  name <> "" -> resolveSnapshotterName client name s = (Done (Ok name), s).
Proof.
  intros Hne. unfold resolveSnapshotterName.
  apply String.eqb_neq in Hne. rewrite Hne. reflexivity.
Qed.

Lemma resolveSnapshotterName_nonempty (name n : string) (s s' : state W) :
  resolveSnapshotterName client name s = (Done (Ok n), s') -> n <> "".
Proof.
  unfold resolveSnapshotterName. destruct (String.eqb name "") eqn:Hname.
  - unfold bind, call.
    destruct (GetLabel client DefaultSnapshotterNSLabel (world s)) as [[label | err] w'];
      [ | discriminate ].
    destruct (String.eqb label "") eqn:Hlabel; simpl negb; cbv iota; unfold ret;
      intros H; inversion H; subst n.
    + discriminate.
    + apply String.eqb_neq. exact Hlabel.
  - unfold ret. intros H. inversion H; subst n. apply String.eqb_neq. exact Hname.
Qed.

Lemma getSnapshotter_given (name : string) (s : state W) :
  name <> "" ->
  getSnapshotter client name s
  = (Done match SnapshotService client name with
          | Some sn => Ok sn
          | None => Err (Wrapf "snapshotter %s was not found: %w" [name]
                               (Sentinel ErrNotFound))
          end, s).
Proof.
  intros Hne. unfold getSnapshotter.
  rewrite (bind_run _ (resolveSnapshotterName_given name s Hne)).
  destruct (SnapshotService client name); reflexivity.
Qed.

Lemma unpackLeased_emits (fuel : nat) (snapshotterName : string)
  (opts : list (UnpackOpt Opt)) (P : event -> bool) :
  (forall ev, isLease ev = false -> P ev = true) ->
  emits P (unpackLeased ChainID client host entropy fuel snapshotterName opts).
Proof.
  intros HP.
  assert (Hb : forall ev, builderEvent ev = true -> P ev = true).
  { intros ev Hev. apply HP. destruct ev; try discriminate; reflexivity. }
  unfold unpackLeased.
  destruct (unpackConfigOpts opts (mkUnpackConfig [] [] false)) as [config | err];
    [ | apply emits_ret ].
  apply emits_bind; [ apply emits_call; intros r; apply HP; reflexivity | ].
  intros [manifest | err]; [ | apply emits_ret ].
  apply emits_bind;
    [ apply resolveSnapshotterName_emits; intros l r; apply HP; reflexivity | ].
  intros [name' | err]; [ | apply emits_ret ].
  apply emits_bind.
  { unfold getSnapshotter. apply emits_bind;
      [ apply resolveSnapshotterName_emits; intros l r; apply HP; reflexivity | ].
    intros [name'' | err]; [ | apply emits_ret ].
    destruct (SnapshotService client name''); apply emits_ret. }
  intros [sn | err]; [ | apply emits_ret ].
  apply emits_bind.
  { destruct (CheckPlatformSupported config);
      [ apply emits_call; intros r; apply HP; reflexivity | apply emits_ret ]. }
  intros [err | ]; [ apply emits_ret | ].
  apply emits_bind;
    [ apply unpackLayers_emits; [ exact Hb | intros; apply HP; reflexivity ] | ].
  intros [chain | err]; [ | apply emits_ret ].
  apply emits_bind; [ apply emits_call; intros r; apply HP; reflexivity | ].
  intros [desc | err]; [ | apply emits_ret ].
  apply emits_call. intros e. apply HP. reflexivity.
Qed.

Lemma unpackLayers_no_panic (fuel : nat) (sn : Snapshotter W Opt) (a : Applier W)
  (config : UnpackConfig Opt) (artifacts : list Artifact) :
  forall chain,
    neverPanics (unpackLayers ChainID client entropy fuel sn a config artifacts chain).
Proof.
  induction artifacts as [ | artifact rest IH]; intros chain.
  - apply neverPanics_ret.
  - simpl unpackLayers. apply neverPanics_bind.
    + intros s msg. apply ApplyArtifactWithOpts_no_panic.
    + intros [unpacked [err | ]]; [ apply neverPanics_ret | ].
      destruct unpacked; [ | apply IH ].
      apply neverPanics_bind; [ apply neverPanics_call | ].
      intros [err | ]; [ apply neverPanics_ret | apply IH ].
Qed.

Lemma resolveSnapshotterName_no_panic (name : string) :
  neverPanics (resolveSnapshotterName client name).
Proof.
  unfold resolveSnapshotterName. destruct (String.eqb name "").
  - apply neverPanics_bind; [ apply neverPanics_call | ].
    intros [label | err]; [ | apply neverPanics_ret ].
    destruct (negb (String.eqb label "")); apply neverPanics_ret.
  - apply neverPanics_ret.
Qed.

Lemma unpackLeased_no_panic (fuel : nat) (snapshotterName : string)
  (opts : list (UnpackOpt Opt)) :
  neverPanics (unpackLeased ChainID client host entropy fuel snapshotterName opts).
Proof.
  unfold unpackLeased.
  destruct (unpackConfigOpts opts (mkUnpackConfig [] [] false)) as [config | err];
    [ | apply neverPanics_ret ].
  apply neverPanics_bind; [ apply neverPanics_call | ].
  intros [manifest | err]; [ | apply neverPanics_ret ].
  apply neverPanics_bind; [ apply resolveSnapshotterName_no_panic | ].
  intros [name' | err]; [ | apply neverPanics_ret ].
  apply neverPanics_bind.
  { unfold getSnapshotter. apply neverPanics_bind; [ apply resolveSnapshotterName_no_panic | ].
    intros [name'' | err]; [ | apply neverPanics_ret ].
    destruct (SnapshotService client name''); apply neverPanics_ret. }
  intros [sn | err]; [ | apply neverPanics_ret ].
  apply neverPanics_bind.
  { destruct (CheckPlatformSupported config);
      [ apply neverPanics_call | apply neverPanics_ret ]. }
  intros [err | ]; [ apply neverPanics_ret | ].
  apply neverPanics_bind; [ apply unpackLayers_no_panic | ].
  intros [chain | err]; [ | apply neverPanics_ret ].
  apply neverPanics_bind; [ apply neverPanics_call | ].
  intros [desc | err]; [ | apply neverPanics_ret ].
  apply neverPanics_call.
Qed.

(** X9.  [Unpack] holds its lease exactly for the work.  When the lease is
    refused, [Unpack] returns that error and makes no other call.  When it
    is granted, the lease is taken once and, whenever [Unpack] returns, with
    or without an error, its last call is the release of the lease and the
    world it leaves is the one the release left; no other call takes or
    releases a lease.  [Unpack] never panics. *)
Theorem Unpack_releases_the_lease_it_took
  (fuel : nat) (snapshotterName : string) (opts : list (UnpackOpt Opt)) (s : state W) :
  let run := Unpack ChainID client host entropy fuel snapshotterName opts s in
  (forall err w1,
     WithLease client (world s) = (Some err, w1) ->
     run = (Done (Some err), mkState w1 (log s ++ [EvLease (Some err)]))) /\
  (forall w1,
     WithLease client (world s) = (None, w1) ->
     exists mid,
       forallb (fun ev => negb (isLease ev)) mid = true /\
       match run with
       | (Done r, s') =>
           log s' = log s ++ EvLease None :: mid ++ [EvLeaseDone] /\
           exists w2, world s' = LeaseDone client w2
       | (_, s') => log s' = log s ++ EvLease None :: mid
       end) /\
  (forall msg, fst run <> Panic msg).
Proof.
  intros run. unfold run. split; [ | split ].
  - intros err w1 Hl. unfold Unpack.
    rewrite (bind_run _ (call_run _ _ s Hl)). reflexivity.
  - intros w1 Hl. unfold Unpack.
    rewrite (bind_run _ (call_run _ _ s Hl)).
    destruct (unpackLeased_emits fuel snapshotterName opts (fun ev => negb (isLease ev))
                (fun ev Hev => f_equal negb Hev)
                (mkState w1 (log s ++ [EvLease None])))
      as (mid & Hlog & Hmid).
    exists mid. split; [ exact Hmid | ].
    unfold bind at 1.
    destruct (unpackLeased ChainID client host entropy fuel snapshotterName opts _)
      as [[r | msg | ] s2]; simpl snd in Hlog.
    + unfold bind, call, ret. simpl. rewrite Hlog. simpl log.
      rewrite <- !app_assoc. split; [ reflexivity | eauto ].
    + rewrite Hlog. simpl log. rewrite <- app_assoc. reflexivity.
    + rewrite Hlog. simpl log. rewrite <- app_assoc. reflexivity.
  - assert (Hnp : neverPanics (Unpack ChainID client host entropy fuel
                                      snapshotterName opts)).
    { unfold Unpack. apply neverPanics_bind; [ apply neverPanics_call | ].
      intros [err | ]; [ apply neverPanics_ret | ].
      apply neverPanics_bind; [ apply unpackLeased_no_panic | ].
      intros r. apply neverPanics_bind; [ apply neverPanics_call | ].
      intros _. apply neverPanics_ret. }
    intros msg. apply Hnp.
Qed.

Lemma layer_digests_of_getArtifacts (manifest : Manifest) :
  map (fun x => Digest (Blob x)) (getArtifacts manifest) = map Digest (Layers manifest).
Proof. unfold getArtifacts. rewrite map_map. reflexivity. Qed.

(** What [unpackLeased] did when it returns without error. *)
Lemma unpackLeased_success (fuel : nat) (snapshotterName : string)
  (opts : list (UnpackOpt Opt)) (s s' : state W) :
  unpackLeased ChainID client host entropy fuel snapshotterName opts s = (Done None, s') ->
  exists manifest desc name' pre,
    let label := ("containerd.io/gc.ref.snapshot." ++ name')%string in
    log s' = log s ++ pre ++
               [EvUpdate (content.mkInfo (Digest desc)
                            [(label, ChainID (map Digest (Layers manifest)))])
                         ("labels." ++ label)%string None] /\
    In (EvManifest (Ok manifest)) pre /\
    In (EvConfig (Ok desc)) pre /\
    name' <> "" /\
    (snapshotterName <> "" -> name' = snapshotterName) /\
    SnapshotService client name' <> None.
Proof.
  intros H. unfold unpackLeased in H.
  destruct (unpackConfigOpts opts (mkUnpackConfig [] [] false)) as [config | err0];
    [ | discriminate ].
  apply bind_Done in H. destruct H as (m & s1 & Hm & H).
  unfold getManifest in Hm. apply call_Done in Hm. destruct Hm as [_ Hlog1].
  destruct m as [manifest | err1]; [ | discriminate ].
  apply bind_Done in H. destruct H as (n & s2 & Hn & H).
  destruct n as [name' | err2]; [ | discriminate ].
  destruct (resolveSnapshotterName_labelSafe client snapshotterName s1) as (evs2 & Hlog2 & _).
  rewrite Hn in Hlog2. simpl snd in Hlog2.
  pose proof (resolveSnapshotterName_nonempty snapshotterName name' s1 s2 Hn) as Hne.
  apply bind_Done in H. destruct H as (g & s3 & Hg & H).
  destruct g as [sn | err3]; [ | discriminate ].
  rewrite (getSnapshotter_given name' s2 Hne) in Hg.
  assert (Hsvc : SnapshotService client name' <> None).
  { destruct (SnapshotService client name'); [ discriminate | discriminate ]. }
  assert (Hs3 : s3 = s2) by (inversion Hg; reflexivity). subst s3.
  apply bind_Done in H. destruct H as (c & s4 & Hc & H).
  assert (Hlog4 : exists evs4, log s4 = log s2 ++ evs4).
  { destruct (CheckPlatformSupported config).
    - apply call_Done in Hc. destruct Hc as [_ Hc]. eauto.
    - inversion Hc. exists []. rewrite app_nil_r. reflexivity. }
  destruct Hlog4 as (evs4 & Hlog4).
  destruct c as [err4 | ]; [ discriminate | ].
  apply bind_Done in H. destruct H as (l & s5 & Hl & H).
  destruct (unpackLayers_labelSafe ChainID client entropy fuel sn (Apply host) config
              (getArtifacts manifest) [] s4) as (evs5 & Hlog5 & _).
  rewrite Hl in Hlog5. simpl snd in Hlog5.
  destruct l as [chain | err5]; [ | discriminate ].
  pose proof (unpackLayers_chain ChainID client entropy fuel sn (Apply host) config
                (getArtifacts manifest) [] s4 chain s5 Hl) as Hchain.
  simpl app in Hchain. rewrite layer_digests_of_getArtifacts in Hchain. subst chain.
  apply bind_Done in H. destruct H as (d & s6 & Hd & H).
  apply call_Done in Hd. destruct Hd as [_ Hlog6].
  destruct d as [desc | err6]; [ | discriminate ].
  apply call_Done in H. destruct H as [_ Hlog7].
  exists manifest, desc, name',
    (EvManifest (Ok manifest) :: evs2 ++ evs4 ++ evs5 ++ [EvConfig (Ok desc)]).
  cbv zeta. split; [ | split; [ | split; [ | split; [ | split ] ] ] ].
  - rewrite Hlog7, Hlog6, Hlog5, Hlog4, Hlog2, Hlog1.
    simpl app. rewrite <- !app_assoc. simpl app. reflexivity.
  - left. reflexivity.
  - right. apply in_or_app. right. apply in_or_app. right. apply in_or_app. right.
    left. reflexivity.
  - exact Hne.
  - intros Hgiven. rewrite (resolveSnapshotterName_given snapshotterName s1 Hgiven) in Hn.
    inversion Hn. reflexivity.
  - exact Hsvc.
Qed.

(** X10.  When [Unpack] returns without error, its last call before the release
    of the lease is the update of the config blob that succeeded: it
    writes the label "containerd.io/gc.ref.snapshot.<name>", where <name>
    is the snapshotter name as resolved (the name given when one is given,
    never empty, and one the client has a snapshot service for), and the
    value is the chain ID of the layer digests of the manifest read in the
    same call, in order: the key [IsUnpacked] stats for that manifest. *)
Theorem Unpack_success_records_the_chain_of_the_manifest
  (fuel : nat) (snapshotterName : string) (opts : list (UnpackOpt Opt)) (s s' : state W) :
  Unpack ChainID client host entropy fuel snapshotterName opts s = (Done None, s') ->
  exists manifest desc name' pre,
    let label := ("containerd.io/gc.ref.snapshot." ++ name')%string in
    log s' = log s ++ EvLease None :: pre ++
               [EvUpdate (content.mkInfo (Digest desc)
                            [(label, ChainID (map Digest (Layers manifest)))])
                         ("labels." ++ label)%string None;
                EvLeaseDone] /\
    In (EvManifest (Ok manifest)) pre /\
    In (EvConfig (Ok desc)) pre /\
    name' <> "" /\
    (snapshotterName <> "" -> name' = snapshotterName) /\
    SnapshotService client name' <> None.
Proof.
  intros H. unfold Unpack in H.
  apply bind_Done in H. destruct H as (e & s1 & Hlease & H).
  apply call_Done in Hlease. destruct Hlease as [_ Hlog1].
  destruct e as [err | ]; [ discriminate | ].
  apply bind_Done in H. destruct H as (r & s2 & Hleased & H).
  apply bind_Done in H. destruct H as (u & s3 & Hdone & H).
  apply call_Done in Hdone. destruct Hdone as [_ Hlog3].
  unfold ret in H. inversion H. subst r s3.
  destruct (unpackLeased_success fuel snapshotterName opts s1 s2 Hleased)
    as (manifest & desc & name' & pre & Hlog2 & Hm & Hc & Hne & Hgiven & Hsvc).
  exists manifest, desc, name', pre. cbv zeta in *.
  split; [ | auto ].
  rewrite Hlog3, Hlog2, Hlog1. rewrite <- !app_assoc. reflexivity.
Qed.

(** ** The namespace label *)

Lemma no_such_events (P : event -> bool) (l : list event) :
  forallb (fun ev => negb (P ev)) l = true -> filter P l = [].
Proof.
  induction l as [ | ev l IH]; simpl; [ reflexivity | ].
  destruct (P ev); simpl; [ discriminate | exact IH ].
Qed.

Lemma logs_bind_result {A B : Type} (R : A -> Prop) (Q1 Q2 Q : list event -> Prop)
  (c : M W A) (k : A -> M W B) :
  logs Q1 c ->
  (forall s x s', c s = (Done x, s') -> R x) ->
  (forall x, R x -> logs Q2 (k x)) ->
  (forall l, Q1 l -> Q l) ->
  (forall l1 l2, Q1 l1 -> Q2 l2 -> Q (l1 ++ l2)) ->
  logs Q (bind c k).
Proof.
  intros Hc HR Hk Hone Hboth s. destruct (Hc s) as (evs & Hlog & HQ).
  unfold bind. pose proof (HR s) as HRs.
  destruct (c s) as [[x | msg | ] s1]; simpl snd in Hlog.
  - destruct (Hk x (HRs x s1 eq_refl) s1) as (evs' & Hlog' & HQ').
    exists (evs ++ evs'). rewrite Hlog', Hlog, app_assoc. auto.
  - exists evs. auto.
  - exists evs. auto.
Qed.

(** X11.  The snapshotter name is resolved once.  The name [resolveSnapshotterName]
    returns is never empty, it is the name given when one is given (and
    then no call is made), and resolving it again returns it without a
    call; so in a run of [Unpack], however it ends, the namespace label is
    read at most once, and not at all when a snapshotter is named. *)
Theorem snapshotter_name_is_resolved_once
  (fuel : nat) (snapshotterName : string) (opts : list (UnpackOpt Opt)) (s : state W) :
  (forall n s',
     resolveSnapshotterName client snapshotterName s = (Done (Ok n), s') ->
     n <> "" /\
     (snapshotterName <> "" -> n = snapshotterName /\ s' = s) /\
     forall s2, resolveSnapshotterName client n s2 = (Done (Ok n), s2)) /\
  (exists evs,
     log (snd (Unpack ChainID client host entropy fuel snapshotterName opts s))
     = log s ++ evs /\
     (List.length (filter isGetLabel evs) <= 1)%nat /\
     (snapshotterName <> "" -> filter isGetLabel evs = [])).
Proof.
  split.
  - intros n s' H.
    pose proof (resolveSnapshotterName_nonempty snapshotterName n s s' H) as Hne.
    split; [ exact Hne | ]. split.
    + intros Hgiven. rewrite (resolveSnapshotterName_given snapshotterName s Hgiven) in H.
      inversion H. auto.
    + intros s2. apply resolveSnapshotterName_given. exact Hne.
  - set (Q0 := fun l : list event => filter isGetLabel l = []).
    set (Q1 := fun l : list event =>
                 (List.length (filter isGetLabel l) <= 1)%nat /\
                 (snapshotterName <> "" -> filter isGetLabel l = [])).
    assert (H01 : forall l, Q0 l -> Q1 l).
    { intros l Hl. unfold Q0 in Hl. unfold Q1. rewrite Hl. auto. }
    assert (H0_1 : forall l1 l2, Q0 l1 -> Q1 l2 -> Q1 (l1 ++ l2)).
    { intros l1 l2 H1 H2. unfold Q0 in H1. unfold Q1 in *.
      rewrite filter_app, H1. exact H2. }
    assert (H1_0 : forall l1 l2, Q1 l1 -> Q0 l2 -> Q1 (l1 ++ l2)).
    { intros l1 l2 H1 H2. unfold Q0 in H2. unfold Q1 in *.
      rewrite filter_app, H2, app_nil_r. exact H1. }
    assert (H0_0 : forall l1 l2, Q0 l1 -> Q0 l2 -> Q0 (l1 ++ l2)).
    { intros l1 l2 H1 H2. unfold Q0 in *. rewrite filter_app, H1, H2. reflexivity. }
    assert (Hemits : forall (A : Type) (c : M W A),
               emits (fun ev => negb (isGetLabel ev)) c -> logs Q0 c).
    { intros A c. apply logs_impl. intros l. apply no_such_events. }
    assert (Hresolve : logs Q1 (resolveSnapshotterName client snapshotterName)).
    { unfold resolveSnapshotterName. destruct (String.eqb snapshotterName "") eqn:Hname.
      - apply (logs_bind Q1 Q0 Q1); auto.
        + apply logs_call. intros r. unfold Q1. simpl. split; [ apply le_n | ].
          intros Hgiven. apply String.eqb_neq in Hgiven. rewrite Hgiven in Hname.
          discriminate.
        + intros [label | err]; [ | apply logs_ret; reflexivity ].
          destruct (negb (String.eqb label "")); apply logs_ret; reflexivity.
      - apply logs_ret. unfold Q1. simpl. auto. }
    assert (Hrest : forall (config : UnpackConfig Opt) (manifest : Manifest) (name' : string),
               name' <> "" ->
               logs Q0
                 (bind (getSnapshotter client name')
                    (fun s0 =>
                       match s0 with
                       | Err err => ret (Some err)
                       | Ok sn =>
                           bind (if CheckPlatformSupported config
                                 then call (CheckSnapshotterSupport client name' manifest)
                                           EvSupport
                                 else ret None)
                             (fun c =>
                                match c with
                                | Some err => ret (Some err)
                                | None =>
                                    bind (unpackLayers ChainID client entropy fuel sn
                                            (Apply host) config (getArtifacts manifest) [])
                                      (fun l =>
                                         match l with
                                         | Err err => ret (Some err)
                                         | Ok chain =>
                                             bind (call (ImageConfig client) EvConfig)
                                               (fun d =>
                                                  match d with
                                                  | Err err => ret (Some err)
                                                  | Ok desc =>
                                                      let rootfs := ChainID chain in
                                                      let label :=
                                                        ("containerd.io/gc.ref.snapshot."
                                                           ++ name')%string in
                                                      let cinfo :=
                                                        content.mkInfo (Digest desc)
                                                          [(label, rootfs)] in
                                                      call (Update client cinfo
                                                              ("labels." ++ label)%string)
                                                           (EvUpdate cinfo
                                                              ("labels." ++ label)%string)
                                                  end)
                                         end)
                                end)
                       end))).
    { intros config manifest name' Hne. apply Hemits.
      apply emits_bind.
      { intros s0. rewrite (getSnapshotter_given name' s0 Hne).
        exists []. simpl. rewrite app_nil_r. auto. }
      intros [sn | err]; [ | apply emits_ret ].
      apply emits_bind.
      { destruct (CheckPlatformSupported config);
          [ apply emits_call; reflexivity | apply emits_ret ]. }
      intros [err | ]; [ apply emits_ret | ].
      apply emits_bind.
      { apply unpackLayers_emits; [ | reflexivity ].
        intros ev Hev. destruct ev; try discriminate; reflexivity. }
      intros [chain | err]; [ | apply emits_ret ].
      apply emits_bind; [ apply emits_call; reflexivity | ].
      intros [desc | err]; [ | apply emits_ret ].
      apply emits_call. reflexivity. }
    assert (Hleased : logs Q1 (unpackLeased ChainID client host entropy fuel
                                            snapshotterName opts)).
    { unfold unpackLeased.
      destruct (unpackConfigOpts opts (mkUnpackConfig [] [] false)) as [config | err];
        [ | apply logs_ret; unfold Q1; simpl; auto ].
      apply (logs_bind Q0 Q1 Q1); auto.
      { apply logs_call. reflexivity. }
      intros [manifest | err]; [ | apply logs_ret; unfold Q1; simpl; auto ].
      apply (logs_bind_result
               (fun n => match n with Ok name' => name' <> "" | Err _ => True end)
               Q1 Q0 Q1); auto.
      - intros s0 [name' | err] s0' Hn; [ | exact I ].
        exact (resolveSnapshotterName_nonempty snapshotterName name' s0 s0' Hn).
      - intros [name' | err] Hne; [ | apply logs_ret; reflexivity ].
        apply Hrest. exact Hne. }
    assert (Hunpack : logs Q1 (Unpack ChainID client host entropy fuel snapshotterName opts)).
    { unfold Unpack. apply (logs_bind Q0 Q1 Q1); auto.
      { apply logs_call. reflexivity. }
      intros [err | ]; [ apply logs_ret; unfold Q1; simpl; auto | ].
      apply (logs_bind Q1 Q0 Q1); auto.
      intros r. apply (logs_bind Q0 Q0 Q0); auto.
      - apply logs_call. reflexivity.
      - intros _. apply logs_ret. reflexivity. }
    destruct (Hunpack s) as (evs & Hlog & Hcount & Hnone).
    exists evs. auto.
Qed.

(** ** The stats of the loop of [Unpack] *)

Lemma emits_quiet {A : Type} (P : event -> bool) (f : W -> A * W) : emits P (quiet f).
Proof.
  intros s. unfold quiet. destruct (f (world s)) as [x w'].
  exists []. simpl. rewrite app_nil_r. auto.
Qed.

Lemma prepareLoop_emits (P : event -> bool) (sn : Snapshotter W Opt)
  (recur : list Artifact -> list digest.Digest -> M W (option error)) :
  (forall ev, attemptEvent ev = true -> P ev = true) ->
  (forall arts ch, emits P (recur arts ch)) ->
  forall (fuel : nat) (artifacts : list Artifact) (chain : list digest.Digest)
         (parent chainID : digest.Digest) (opts : list Opt),
    emits P (prepareLoop sn entropy recur fuel artifacts chain parent chainID opts).
Proof.
  intros HP Hrecur.
  induction fuel as [ | fuel IH]; intros artifacts chain parent chainID opts.
  - intros s. exists []. simpl. rewrite app_nil_r. auto.
  - simpl prepareLoop. apply emits_bind.
    { unfold uniquePart. apply emits_bind; [ apply emits_quiet | ].
      intros t. apply emits_bind; [ apply emits_quiet | ]. intros b. apply emits_ret. }
    intros u. apply emits_bind.
    { unfold snPrepare. apply emits_call. intros r. apply HP. reflexivity. }
    intros [mounts | err]; [ apply emits_ret | ].
    destruct (IsNotFound err && (1 <? List.length artifacts)%nat).
    + apply emits_bind; [ apply Hrecur | ].
      intros [err' | ]; [ | apply IH ].
      destruct (negb (IsAlreadyExists err')); [ apply emits_ret | apply IH ].
    + destruct (IsAlreadyExists err); [ apply IH | apply emits_ret ].
Qed.

Lemma applyArtifacts_emits (P : event -> bool) (sn : Snapshotter W Opt) (a : Applier W) :
  (forall ev, attemptEvent ev = true -> P ev = true) ->
  forall (fuel : nat) (artifacts : list Artifact) (chain : list digest.Digest)
         (opts : list Opt) (applyOpts : list diff.ApplyOpt),
    emits P (applyArtifacts ChainID sn a entropy fuel artifacts chain opts applyOpts).
Proof.
  intros HP.
  induction fuel as [ | fuel IH]; intros artifacts chain opts applyOpts.
  - intros s. exists []. simpl. rewrite app_nil_r. auto.
  - destruct chain as [ | c0 crest].
    { intros s. exists []. simpl. rewrite app_nil_r. auto. }
    destruct artifacts as [ | a0 rest].
    { intros s. exists []. simpl. rewrite app_nil_r. auto. }
    rewrite applyArtifacts_S. apply emits_bind.
    { apply prepareLoop_emits; [ exact HP | ]. intros arts ch. apply IH. }
    intros [key mounts | err]; [ | apply emits_ret ].
    unfold extractAndCommit. apply emits_bind.
    { unfold extractBody. apply emits_bind.
      { unfold aApply. apply emits_call. intros r. apply HP. reflexivity. }
      intros [diff | err]; [ | apply emits_ret ].
      destruct (negb (String.eqb (Digest diff) (Digest (Blob (last rest a0)))));
        [ apply emits_ret | ].
      apply emits_bind.
      { unfold snCommit. apply emits_call. intros r. apply HP. reflexivity. }
      intros [err | ]; apply emits_ret. }
    intros err. apply emits_bind; [ | intros _; apply emits_ret ].
    unfold deferredCleanup. destruct err as [e | ]; [ | apply emits_ret ].
    apply emits_bind; [ | intros _; apply emits_ret ].
    unfold snRemove. apply emits_call. intros r. apply HP. reflexivity.
Qed.

Lemma statKeys_app (l l' : list event) : statKeys (l ++ l') = statKeys l ++ statKeys l'.
Proof. apply flat_map_app. Qed.

Lemma statKeys_attempt (l : list event) :
  forallb attemptEvent l = true -> statKeys l = [].
Proof.
  induction l as [ | ev l IH]; simpl; [ reflexivity | ].
  intros H. apply andb_true_iff in H. destruct H as [Hev Hl].
  destruct ev; try discriminate; apply IH; exact Hl.
Qed.

(** A single-layer apply stats once, first, and the chain ID of the chain
    extended by the layer. *)
Lemma ApplyArtifactWithOpts_stats_first (sn : Snapshotter W Opt) (a : Applier W)
  (fuel : nat) (artifact : Artifact) (chain : list digest.Digest)
  (opts : list Opt) (applyOpts : list diff.ApplyOpt) (s : state W) :
  let run := ApplyArtifactWithOpts ChainID sn a entropy fuel artifact chain opts applyOpts s in
  exists e evs,
    log (snd run) = log s ++ EvStat (ChainID (chain ++ [Digest (Blob artifact)])) e :: evs /\
    forallb attemptEvent evs = true /\
    (e = None -> evs = [] /\ fst run = Done (false, None)).
Proof.
  cbv zeta.
  destruct (Stat sn (ChainID (chain ++ [Digest (Blob artifact)])) (world s))
    as [[e0 | ] w1] eqn:Hstat.
  - exists (Some e0). destruct (IsNotFound e0) eqn:Hnf.
    + rewrite (ApplyArtifactWithOpts_after_stat ChainID sn a entropy fuel artifact chain
                 opts applyOpts s e0 w1 Hstat Hnf).
      destruct (applyArtifacts_emits attemptEvent sn a (fun ev H => H) fuel [artifact]
                  (chain ++ [Digest (Blob artifact)]) opts applyOpts
                  (mkState w1 (log s ++ [EvStat (ChainID (chain ++ [Digest (Blob artifact)]))
                                                (Some e0)])))
        as (evs & Hlog & Hall).
      exists evs. split; [ | split; [ exact Hall | discriminate ] ].
      unfold bind.
      destruct (applyArtifacts ChainID sn a entropy fuel [artifact] _ opts applyOpts _)
        as [[[err | ] | msg | ] s2]; simpl snd in *;
        try destruct (negb (IsAlreadyExists err));
        simpl snd; rewrite Hlog; simpl log; rewrite <- app_assoc; reflexivity.
    + exists []. split; [ | split; [ reflexivity | discriminate ] ].
      unfold ApplyArtifactWithOpts, snStat.
      rewrite (bind_run _ (call_run _ _ s Hstat)). rewrite Hnf. reflexivity.
  - exists None, [].
    assert (Hrun : ApplyArtifactWithOpts ChainID sn a entropy fuel artifact chain
                     opts applyOpts s
                   = (Done (false, None),
                      mkState w1 (log s ++ [EvStat (ChainID (chain ++ [Digest (Blob artifact)]))
                                                   None]))).
    { unfold ApplyArtifactWithOpts, snStat.
      rewrite (bind_run _ (call_run _ _ s Hstat)). reflexivity. }
    rewrite Hrun. auto.
Qed.

(** X12.  The loop of [Unpack] takes the layers in the order of the manifest.
    However the loop ends, the stats it made are, in order, the stats of
    the chain IDs of the first layer, of the first two layers, and so on,
    one stat for each layer it reached; when the loop ends without error it
    reached every layer.  When the snapshotter finds every snapshot, the
    loop makes these stats and no other call: unpacking again an image
    that is unpacked prepares, extracts and commits nothing, and writes no
    label. *)
Theorem Unpack_stats_each_layer_once_in_order
  (fuel : nat) (sn : Snapshotter W Opt) (a : Applier W) (config : UnpackConfig Opt)
  (artifacts : list Artifact) (chain : list digest.Digest) (s : state W) :
  let digests := map (fun x => Digest (Blob x)) artifacts in
  let run := unpackLayers ChainID client entropy fuel sn a config artifacts chain s in
  (exists evs n,
     log (snd run) = log s ++ evs /\
     statKeys evs = firstn n (map ChainID (chainPrefixes chain digests)) /\
     (forall result, fst run = Done (Ok result) ->
                     n = List.length artifacts /\ result = chain ++ digests)) /\
  ((forall key w, fst (Stat sn key w) = None) ->
   fst run = Done (Ok (chain ++ digests)) /\
   log (snd run)
   = log s ++ map (fun c => EvStat (ChainID c) None) (chainPrefixes chain digests)).
Proof.
  cbv zeta. split.
  - revert chain s. induction artifacts as [ | artifact rest IH]; intros chain s.
    + exists [], 0%nat. simpl. rewrite !app_nil_r.
      split; [ reflexivity | ]. split; [ reflexivity | ].
      intros result H. inversion H. auto.
    + simpl unpackLayers. simpl map. simpl chainPrefixes. simpl map.
      destruct (ApplyArtifactWithOpts_stats_first sn a fuel artifact chain
                  (SnapshotOpts config) (ApplyOpts config) s) as (e & evs & Hlog & Hall & _).
      cbv zeta in Hlog.
      assert (Hone : statKeys (EvStat (ChainID (chain ++ [Digest (Blob artifact)])) e :: evs)
                     = [ChainID (chain ++ [Digest (Blob artifact)])]).
      { simpl. rewrite (statKeys_attempt evs Hall). reflexivity. }
      assert (Hstop : forall (o : outcome (result (list digest.Digest))) (s1 : state W),
                 log s1 = log s ++ EvStat (ChainID (chain ++ [Digest (Blob artifact)])) e
                                     :: evs ->
                 (forall result,
                     o = Done (Ok result) -> False) ->
                 exists evs0 n,
                   log s1 = log s ++ evs0 /\
                   statKeys evs0
                   = firstn n (ChainID (chain ++ [Digest (Blob artifact)])
                                 :: map ChainID
                                      (chainPrefixes (chain ++ [Digest (Blob artifact)])
                                         (map (fun x => Digest (Blob x)) rest))) /\
                   (forall result : list digest.Digest,
                       o = Done (Ok result) ->
                       n = S (List.length rest) /\
                       result = chain ++ Digest (Blob artifact)
                                  :: map (fun x => Digest (Blob x)) rest)).
      { intros o s1 Hl Hno. eexists. exists 1%nat.
        split; [ exact Hl | ]. split; [ rewrite Hone; reflexivity | ].
        intros result Hres. destruct (Hno result Hres). }
      assert (Hnext : forall (s1 : state W) extra,
                 log s1 = log s ++ (EvStat (ChainID (chain ++ [Digest (Blob artifact)])) e
                                      :: evs) ++ extra ->
                 statKeys extra = [] ->
                 let run := unpackLayers ChainID client entropy fuel sn a config rest
                              (chain ++ [Digest (Blob artifact)]) s1 in
                 exists evs0 n,
                   log (snd run) = log s ++ evs0 /\
                   statKeys evs0
                   = firstn n (ChainID (chain ++ [Digest (Blob artifact)])
                                 :: map ChainID
                                      (chainPrefixes (chain ++ [Digest (Blob artifact)])
                                         (map (fun x => Digest (Blob x)) rest))) /\
                   (forall result : list digest.Digest,
                       fst run = Done (Ok result) ->
                       n = S (List.length rest) /\
                       result = chain ++ Digest (Blob artifact)
                                  :: map (fun x => Digest (Blob x)) rest)).
      { intros s1 extra Hl Hextra. cbv zeta.
        destruct (IH (chain ++ [Digest (Blob artifact)]) s1) as (evs' & n & Hlog' & Hkeys & Hres).
        exists ((EvStat (ChainID (chain ++ [Digest (Blob artifact)])) e :: evs)
                  ++ extra ++ evs'), (S n).
        split; [ rewrite Hlog', Hl, <- !app_assoc; reflexivity | ].
        split.
        - rewrite !statKeys_app, Hone, Hextra, Hkeys. reflexivity.
        - intros result H. destruct (Hres result H) as [Hn Hr].
          split; [ rewrite Hn; reflexivity | ].
          rewrite Hr, <- app_assoc. reflexivity. }
      unfold bind at 1 2 3.
      destruct (ApplyArtifactWithOpts ChainID sn a entropy fuel artifact chain
                  (SnapshotOpts config) (ApplyOpts config) s)
        as [[[unpacked [err | ]] | msg | ] s1]; simpl snd in Hlog.
      * apply Hstop; [ exact Hlog | discriminate ].
      * destruct unpacked.
        -- unfold bind, call.
           destruct (Update client _ "labels.containerd.io/uncompressed" (world s1))
             as [[err | ] w2].
           ++ eexists. exists 1%nat. simpl snd. simpl log. rewrite Hlog.
              split; [ rewrite <- app_assoc; reflexivity | ].
              split; [ | discriminate ].
              change (EvStat (ChainID (chain ++ [Digest (Blob artifact)])) e :: evs)
                with ([EvStat (ChainID (chain ++ [Digest (Blob artifact)])) e] ++ evs).
              rewrite <- !app_assoc, !statKeys_app, (statKeys_attempt evs Hall).
              reflexivity.
           ++ apply (Hnext _ [EvUpdate
                                (content.mkInfo (Digest (Blob artifact))
                                   [("containerd.io/uncompressed", Digest (Blob artifact))])
                                "labels.containerd.io/uncompressed" None]);
                [ simpl log; rewrite Hlog, <- app_assoc; reflexivity | reflexivity ].
        -- apply (Hnext s1 []); [ rewrite app_nil_r; exact Hlog | reflexivity ].
      * apply Hstop; [ exact Hlog | discriminate ].
      * apply Hstop; [ exact Hlog | discriminate ].
  - intros Hfound. revert chain s.
    induction artifacts as [ | artifact rest IH]; intros chain s.
    + simpl. rewrite !app_nil_r. auto.
    + simpl unpackLayers. simpl map. simpl chainPrefixes. simpl map.
      destruct (Stat sn (ChainID (chain ++ [Digest (Blob artifact)])) (world s))
        as [e w1] eqn:Hstat.
      pose proof (Hfound (ChainID (chain ++ [Digest (Blob artifact)])) (world s)) as He.
      rewrite Hstat in He. simpl in He. subst e.
      assert (Hrun : ApplyArtifactWithOpts ChainID sn a entropy fuel artifact chain
                       (SnapshotOpts config) (ApplyOpts config) s
                     = (Done (false, None),
                        mkState w1 (log s ++ [EvStat (ChainID (chain ++ [Digest (Blob artifact)]))
                                                     None]))).
      { unfold ApplyArtifactWithOpts, snStat.
        rewrite (bind_run _ (call_run _ _ s Hstat)). reflexivity. }
      rewrite (bind_run _ Hrun).
      destruct (IH (chain ++ [Digest (Blob artifact)])
                   (mkState w1 (log s ++ [EvStat (ChainID (chain ++ [Digest (Blob artifact)]))
                                                 None]))) as [Hres Hlog].
      split.
      * rewrite Hres, <- app_assoc. reflexivity.
      * rewrite Hlog. simpl log. rewrite <- app_assoc. reflexivity.
Qed.

End ImageRuns.

(** ** Mount options, written and read back *)

Lemma substring_all (s : string) : substring 0 (String.length s) s = s.
Proof. induction s as [ | c s IH]; simpl; [ reflexivity | rewrite IH; reflexivity ]. Qed.

Lemma length_append (s x : string) :
  String.length (s ++ x) = (String.length s + String.length x)%nat.
Proof. induction s as [ | c s IH]; simpl; [ reflexivity | rewrite IH; reflexivity ]. Qed.

Lemma substring_skip (s x : string) (n m : nat) :
  substring (String.length s + n) m (s ++ x) = substring n m x.
Proof. induction s as [ | c s IH]; simpl; [ reflexivity | exact IH ]. Qed.

Lemma HasPrefix_app (p s : string) : strings.HasPrefix (p ++ s) p = true.
Proof.
  unfold strings.HasPrefix. induction p as [ | c p IH]; simpl.
  - destruct s; reflexivity.
  - destruct (ascii_dec c c) as [_ | Hne]; [ exact IH | contradiction ].
Qed.

Lemma TrimPrefix_app (p s : string) : strings.TrimPrefix (p ++ s) p = s.
Proof.
  unfold strings.TrimPrefix. rewrite HasPrefix_app, length_append.
  rewrite Nat.add_comm, Nat.add_sub.
  rewrite <- (Nat.add_0_r (String.length p)), substring_skip. apply substring_all.
Qed.

Lemma HasSuffix_app (s x : string) : strings.HasSuffix (s ++ x) x = true.
Proof.
  unfold strings.HasSuffix. rewrite length_append, Nat.add_sub.
  rewrite <- (Nat.add_0_r (String.length s)) at 2.
  rewrite substring_skip, substring_all, String.eqb_refl, andb_true_r.
  apply Nat.leb_le. rewrite Nat.add_comm. apply Nat.le_add_r.
Qed.

Lemma substring_prefix (s x : string) :
  substring 0 (String.length s) (s ++ x) = s.
Proof. induction s as [ | c s IH]; simpl; [ destruct x; reflexivity | rewrite IH; reflexivity ]. Qed.

Lemma TrimSuffix_app (s x : string) : strings.TrimSuffix (s ++ x) x = s.
Proof.
  unfold strings.TrimSuffix. rewrite HasSuffix_app, length_append, Nat.add_sub.
  apply substring_prefix.
Qed.

(** A branch that ends in "=ro+wh" does not end in "=rw". *)
Lemma ro_branch_is_not_rw (l : string) : strings.HasSuffix (l ++ "=ro+wh") "=rw" = false.
Proof.
  unfold strings.HasSuffix. rewrite length_append. simpl String.length.
  replace (String.length l + 6 - 3)%nat with (String.length l + 3)%nat
    by (rewrite <- Nat.add_sub_assoc; [ reflexivity | repeat constructor ]).
  rewrite substring_skip. simpl. apply andb_false_r.
Qed.

Lemma hasChar_app (c : ascii) (s x : string) :
  hasChar c (s ++ x) = hasChar c s || hasChar c x.
Proof.
  induction s as [ | c' s IH]; simpl; [ reflexivity | ].
  rewrite IH, orb_assoc. reflexivity.
Qed.

Lemma Split_one (sep : ascii) (f : string) :
  hasChar sep f = false -> strings.Split f sep = [f].
Proof.
  induction f as [ | c f IH]; simpl; [ reflexivity | ].
  intros H. apply orb_false_iff in H. destruct H as [Hc Hf].
  rewrite Hc, (IH Hf). reflexivity.
Qed.

Lemma Split_field (sep : ascii) (f rest : string) :
  hasChar sep f = false ->
  strings.Split (f ++ String sep rest) sep = f :: strings.Split rest sep.
Proof.
  induction f as [ | c f IH]; simpl.
  - intros _. rewrite Ascii.eqb_refl. reflexivity.
  - intros H. apply orb_false_iff in H. destruct H as [Hc Hf].
    rewrite Hc, (IH Hf). reflexivity.
Qed.

(** Fields without a colon, joined by colons, are split into themselves. *)
Lemma Split_concat (fields : list string) :
  fields <> [] ->
  Forall (fun f => hasChar ":"%char f = false) fields ->
  strings.Split (String.concat ":" fields) ":"%char = fields.
Proof.
  induction fields as [ | f rest IH]; [ contradiction | ].
  intros _ Hall. inversion Hall as [ | f' rest' Hf Hrest]; subst.
  destruct rest as [ | g rest].
  - simpl. apply Split_one. exact Hf.
  - change (String.concat ":" (f :: g :: rest))
      with (f ++ String ":"%char (String.concat ":" (g :: rest)))%string.
    rewrite (Split_field _ _ _ Hf), IH; [ reflexivity | discriminate | exact Hrest ].
Qed.

Lemma aufsOptions_skip (skipped rest : list string) :
  forallb notBranches skipped = true ->
  forall upper lower,
    aufsOptions (skipped ++ rest) upper lower = aufsOptions rest upper lower.
Proof.
  induction skipped as [ | o skipped IH]; simpl; intros H upper lower; [ reflexivity | ].
  apply andb_true_iff in H. destruct H as [Ho Hs].
  unfold notBranches in Ho. apply negb_true_iff in Ho. rewrite Ho. apply IH. exact Hs.
Qed.

Lemma aufsBranches_lowers (upper : string) (lowers : list string) :
  upper <> "" ->
  forall acc,
    aufsBranches (map (fun l => l ++ "=ro+wh")%string lowers) upper acc
    = Ok (upper, acc ++ lowers).
Proof.
  intros Hne. apply String.eqb_neq in Hne.
  induction lowers as [ | l lowers IH]; intros acc; simpl.
  - rewrite app_nil_r. reflexivity.
  - rewrite ro_branch_is_not_rw, HasSuffix_app, Hne, TrimSuffix_app, IH, <- app_assoc.
    reflexivity.
Qed.

Lemma aufsBranchOption_parsed (upper : string) (lowers : list string) :
  upper <> "" ->
  hasChar ":"%char upper = false ->
  Forall (fun l => hasChar ":"%char l = false) lowers ->
  strings.HasPrefix (aufsBranchOption upper lowers) "br:" = true /\
  aufsBranches (strings.Split (strings.TrimPrefix (aufsBranchOption upper lowers) "br:")
                              ":"%char) "" []
  = Ok (upper, lowers).
Proof.
  intros Hne Hu Hl. unfold aufsBranchOption.
  split; [ apply HasPrefix_app | ].
  rewrite TrimPrefix_app, Split_concat.
  - simpl aufsBranches. rewrite HasSuffix_app. simpl negb. cbv iota.
    rewrite TrimSuffix_app. apply (aufsBranches_lowers upper lowers Hne []).
  - discriminate.
  - constructor.
    + rewrite hasChar_app, Hu. reflexivity.
    + apply Forall_map. eapply Forall_impl; [ | exact Hl ].
      intros l Hc. simpl. rewrite hasChar_app, Hc. reflexivity.
Qed.

Lemma aufsOptions_cons (o : string) (rest : list string) (upper : string)
  (lower : list string) :
  aufsOptions (o :: rest) upper lower
  = if strings.HasPrefix o "br:" then
      match aufsBranches (strings.Split (strings.TrimPrefix o "br:") ":"%char)
                         upper lower with
      | Err e => Err e
      | Ok (upper', lower') => aufsOptions rest upper' lower'
      end
    else aufsOptions rest upper lower.
Proof. reflexivity. Qed.

Lemma getAufsPath_branch_option (before after : list string)
  (upper : string) (lowers : list string) :
  upper <> "" ->
  hasChar ":"%char upper = false ->
  Forall (fun l => hasChar ":"%char l = false) lowers ->
  forallb notBranches before = true ->
  forallb notBranches after = true ->
  getAufsPath (before ++ aufsBranchOption upper lowers :: after) = Ok (upper, lowers).
Proof.
  intros Hne Hu Hl Hb Ha. unfold getAufsPath.
  rewrite (aufsOptions_skip before _ Hb).
  destruct (aufsBranchOption_parsed upper lowers Hne Hu Hl) as [Hp Hparse].
  rewrite aufsOptions_cons, Hp, Hparse.
  rewrite <- (app_nil_r after), (aufsOptions_skip after [] Ha). simpl aufsOptions.
  cbv beta iota.
  apply String.eqb_neq in Hne. rewrite Hne. reflexivity.
Qed.

Lemma aufsBranches_lowers_then (upper : string) (lowers later : list string) :
  upper <> "" ->
  forall acc,
    aufsBranches (map (fun l => l ++ "=ro+wh")%string lowers ++ later) upper acc
    = aufsBranches later upper (acc ++ lowers).
Proof.
  intros Hne. apply String.eqb_neq in Hne.
  induction lowers as [ | l lowers IH]; intros acc; simpl.
  - rewrite app_nil_r. reflexivity.
  - rewrite ro_branch_is_not_rw, HasSuffix_app, Hne, TrimSuffix_app, IH, <- app_assoc.
    reflexivity.
Qed.

Lemma colon_free_branches (suffix : string) (dirs : list string) :
  hasChar ":"%char suffix = false ->
  Forall (fun l => hasChar ":"%char l = false) dirs ->
  Forall (fun f => hasChar ":"%char f = false) (map (fun l => l ++ suffix)%string dirs).
Proof.
  intros Hs Hd. apply Forall_map. eapply Forall_impl; [ | exact Hd ].
  intros l Hc. simpl. rewrite hasChar_app, Hc, Hs. reflexivity.
Qed.

(** X13.  [getAufsPath] on the format its comment gives, and on three
    departures from it.  From options that hold one branch option
    "br:<upper>=rw[:<lower>=ro+wh]*", among options that do not start with
    "br:", it returns the upper directory and the lower directories in
    their order (the upper directory not empty, no directory containing a
    colon).  A branch option that names a second upper branch after the
    lower ones is refused.  A branch option whose first branch is a lower
    branch is refused, whatever follows that branch.  An upper branch with
    an empty directory is passed over when it comes first: the upper
    branch after it is taken.  Options without any branch option are
    refused.  Each refusal is an error that wraps Invalid-Argument. *)
Theorem getAufsPath_reads_the_documented_format
  (before after : list string) (upper upper' first rest : string)
  (lowers more : list string) :
  hasChar ":"%char upper = false ->
  hasChar ":"%char upper' = false ->
  hasChar ":"%char first = false ->
  Forall (fun l => hasChar ":"%char l = false) lowers ->
  Forall (fun l => hasChar ":"%char l = false) more ->
  forallb notBranches before = true ->
  forallb notBranches after = true ->
  (upper <> "" ->
   getAufsPath (before ++ aufsBranchOption upper lowers :: after) = Ok (upper, lowers)) /\
  (upper <> "" ->
   getAufsPath (before
                  ++ ("br:" ++ String.concat ":"
                                 ((upper ++ "=rw")
                                    :: map (fun l => l ++ "=ro+wh") lowers
                                    ++ (upper' ++ "=rw")
                                    :: map (fun l => l ++ "=ro+wh") more))%string
                  :: after)
   = Err (Wrapf "multiple rw branch found: %w" [] (Sentinel ErrInvalidArgument))) /\
  getAufsPath (before ++ ("br:" ++ (first ++ "=ro+wh"))%string :: after)
  = Err (Wrapf "rw branch be first: %w" [] (Sentinel ErrInvalidArgument)) /\
  getAufsPath (before ++ ("br:" ++ (first ++ "=ro+wh") ++ ":" ++ rest)%string :: after)
  = Err (Wrapf "rw branch be first: %w" [] (Sentinel ErrInvalidArgument)) /\
  (upper' <> "" ->
   getAufsPath (before
                  ++ ("br:" ++ String.concat ":"
                                 ("=rw" :: (upper' ++ "=rw")
                                    :: map (fun l => l ++ "=ro+wh") more))%string
                  :: after)
   = Ok (upper', more)) /\
  getAufsPath before
  = Err (Wrapf "rw branch not found: %w" [] (Sentinel ErrInvalidArgument)).
Proof.
  intros Hu Hu' Hf Hl Hm Hb Ha.
  assert (Hfirst : hasChar ":"%char (first ++ "=ro+wh") = false)
    by (rewrite hasChar_app, Hf; reflexivity).
  split; [ | split; [ | split; [ | split; [ | split ] ] ] ].
  - intros Hne. apply getAufsPath_branch_option; assumption.
  - intros Hne. unfold getAufsPath.
    rewrite (aufsOptions_skip before _ Hb), aufsOptions_cons, HasPrefix_app, TrimPrefix_app.
    rewrite Split_concat.
    + simpl aufsBranches. rewrite HasSuffix_app. simpl negb. cbv iota.
      rewrite TrimSuffix_app, (aufsBranches_lowers_then upper lowers _ Hne).
      simpl aufsBranches. rewrite HasSuffix_app.
      apply String.eqb_neq in Hne. rewrite Hne. reflexivity.
    + discriminate.
    + constructor; [ rewrite hasChar_app, Hu; reflexivity | ].
      apply Forall_app. split; [ apply colon_free_branches; [ reflexivity | exact Hl ] | ].
      constructor; [ rewrite hasChar_app, Hu'; reflexivity | ].
      apply colon_free_branches; [ reflexivity | exact Hm ].
  - unfold getAufsPath.
    rewrite (aufsOptions_skip before _ Hb), aufsOptions_cons, HasPrefix_app, TrimPrefix_app.
    rewrite (Split_one _ _ Hfirst).
    simpl aufsBranches. rewrite ro_branch_is_not_rw, HasSuffix_app. reflexivity.
  - unfold getAufsPath.
    rewrite (aufsOptions_skip before _ Hb), aufsOptions_cons, HasPrefix_app, TrimPrefix_app.
    change (":" ++ rest)%string with (String ":"%char rest).
    rewrite (Split_field _ _ rest Hfirst).
    cbn [aufsBranches]. rewrite ro_branch_is_not_rw, HasSuffix_app. reflexivity.
  - intros Hne. unfold getAufsPath.
    rewrite (aufsOptions_skip before _ Hb), aufsOptions_cons, HasPrefix_app, TrimPrefix_app.
    rewrite Split_concat.
    + cbn [aufsBranches].
      change (strings.HasSuffix "=rw" "=rw") with true.
      change (strings.TrimSuffix "=rw" "=rw") with ""%string.
      rewrite HasSuffix_app. simpl negb. cbv iota.
      rewrite TrimSuffix_app, (aufsBranches_lowers upper' more Hne []).
      rewrite <- (app_nil_r after), (aufsOptions_skip after [] Ha). simpl aufsOptions.
      cbv beta iota. apply String.eqb_neq in Hne. rewrite Hne. reflexivity.
    + discriminate.
    + constructor; [ reflexivity | ].
      constructor; [ rewrite hasChar_app, Hu'; reflexivity | ].
      apply colon_free_branches; [ reflexivity | exact Hm ].
  - unfold getAufsPath.
    rewrite <- (app_nil_r before), (aufsOptions_skip before [] Hb). reflexivity.
Qed.

Lemma overlayStep_skip (skipped : list string) :
  forallb notOverlayDirs skipped = true ->
  forall acc, fold_left overlayStep skipped acc = acc.
Proof.
  induction skipped as [ | o skipped IH]; simpl; intros H acc; [ reflexivity | ].
  apply andb_true_iff in H. destruct H as [Ho Hs].
  unfold notOverlayDirs in Ho. apply andb_true_iff in Ho. destruct Ho as [Hu Hl].
  apply negb_true_iff in Hu. apply negb_true_iff in Hl.
  rewrite IH; [ | exact Hs ].
  unfold overlayStep. destruct acc as [upper lower]. rewrite Hu, Hl. reflexivity.
Qed.

Lemma overlayStep_keeps_upper (later : list string) :
  forallb (fun o => negb (strings.HasPrefix o "upperdir=")) later = true ->
  forall acc, fst (fold_left overlayStep later acc) = fst acc.
Proof.
  induction later as [ | o later IH]; simpl; intros H acc; [ reflexivity | ].
  apply andb_true_iff in H. destruct H as [Ho Hs].
  apply negb_true_iff in Ho.
  rewrite IH; [ | exact Hs ].
  unfold overlayStep. destruct acc as [upper lower]. rewrite Ho.
  destruct (strings.HasPrefix o "lowerdir="); reflexivity.
Qed.

Lemma overlayStep_upper (upper : string) (acc : string * list string) :
  overlayStep acc ("upperdir=" ++ upper)%string = (upper, snd acc).
Proof.
  unfold overlayStep. destruct acc as [u l].
  rewrite (HasPrefix_app "upperdir=" upper), (TrimPrefix_app "upperdir=" upper). reflexivity.
Qed.

Lemma overlayStep_lower (dirs : string) (acc : string * list string) :
  overlayStep acc ("lowerdir=" ++ dirs)%string = (fst acc, strings.Split dirs ":"%char).
Proof.
  unfold overlayStep. destruct acc as [u l].
  rewrite (TrimPrefix_app "lowerdir=" dirs).
  rewrite (HasPrefix_app "lowerdir=" dirs). reflexivity.
Qed.

Lemma overlayStep_cons (o : string) (rest : list string) (acc : string * list string) :
  fold_left overlayStep (o :: rest) acc = fold_left overlayStep rest (overlayStep acc o).
Proof. reflexivity. Qed.

Lemma getOverlayPath_last_upper (earlier later : list string) (upper : string) :
  upper <> "" ->
  forallb (fun o => negb (strings.HasPrefix o "upperdir=")) later = true ->
  exists lower,
    getOverlayPath (earlier ++ ("upperdir=" ++ upper)%string :: later) = Ok (upper, lower).
Proof.
  intros Hne Hlater. unfold getOverlayPath.
  rewrite fold_left_app, overlayStep_cons, overlayStep_upper.
  pose proof (overlayStep_keeps_upper later Hlater
                (upper, snd (fold_left overlayStep earlier ("", [])))) as Hfst.
  destruct (fold_left overlayStep later _) as [u l]. simpl in Hfst. subst u.
  apply String.eqb_neq in Hne. rewrite Hne. eauto.
Qed.

(** X14.  [getOverlayPath] reads the directories an overlay mount names.  The
    upper directory is the value of the last "upperdir=" option, whatever
    precedes it, as long as that value is not empty; and from options laid
    out as the overlay snapshotter writes them, an "upperdir=" option and a
    "lowerdir=" option of directories joined by colons, in either order and
    among options of other kinds, it returns the upper directory and the
    lower directories in their order (no lower directory containing a
    colon). *)
Theorem getOverlayPath_reads_the_overlay_options
  (earlier later a b c : list string) (upper : string) (lowers : list string) :
  upper <> "" ->
  (forallb (fun o => negb (strings.HasPrefix o "upperdir=")) later = true ->
   exists lower,
     getOverlayPath (earlier ++ ("upperdir=" ++ upper)%string :: later)
     = Ok (upper, lower)) /\
  (lowers <> [] ->
   Forall (fun l => hasChar ":"%char l = false) lowers ->
   forallb notOverlayDirs a = true ->
   forallb notOverlayDirs b = true ->
   forallb notOverlayDirs c = true ->
   getOverlayPath (a ++ ("upperdir=" ++ upper)%string
                     :: b ++ ("lowerdir=" ++ String.concat ":" lowers)%string :: c)
   = Ok (upper, lowers) /\
   getOverlayPath (a ++ ("lowerdir=" ++ String.concat ":" lowers)%string
                     :: b ++ ("upperdir=" ++ upper)%string :: c)
   = Ok (upper, lowers)).
Proof.
  intros Hne. split; [ apply getOverlayPath_last_upper; exact Hne | ].
  intros Hl Hcolon Ha Hb Hc.
  pose proof Hne as Hneq. apply String.eqb_neq in Hneq.
  split; unfold getOverlayPath;
    rewrite fold_left_app, (overlayStep_skip a Ha), overlayStep_cons,
      fold_left_app, (overlayStep_skip b Hb), overlayStep_cons,
      (overlayStep_skip c Hc).
  - rewrite overlayStep_upper, overlayStep_lower. simpl fst.
    rewrite (Split_concat lowers Hl Hcolon), Hneq. reflexivity.
  - rewrite overlayStep_lower, overlayStep_upper. simpl snd.
    rewrite (Split_concat lowers Hl Hcolon), Hneq. reflexivity.
Qed.

(** ** Where the Diff Applier writes *)

Section ApplierRuns.

Context {W Reader : Type}.
Variable host : ApplierHost W Reader.

(** X15.  [apply] writes a layer straight into the upper directory of a single
    overlay or aufs mount.  For one overlay mount whose last "upperdir="
    option names a directory, outside a user namespace, and for one aufs
    mount with a branch option in the documented format, the blob is pushed
    into a file store rooted at that upper directory and no temporary mount
    is made.  Inside a user namespace the overlay mount goes through the
    temporary mount instead, and so does every list of mounts that is not a
    single mount. *)
Theorem apply_writes_into_the_upper_directory
  (m m' : Mount) (mounts : list Mount) (desc : Descriptor) (r : Reader)
  (earlier later : list string) (upper : string) (lowers : list string) :
  upper <> "" ->
  (Type_ m = "overlay" ->
   Options m = earlier ++ ("upperdir=" ++ upper)%string :: later ->
   forallb (fun o => negb (strings.HasPrefix o "upperdir=")) later = true ->
   apply host [m] desc r
   = if RunningInUserNS host then applyTempMount host [m] desc r
     else Push host upper desc r) /\
  (Type_ m = "aufs" ->
   Options m = earlier ++ aufsBranchOption upper lowers :: later ->
   hasChar ":"%char upper = false ->
   Forall (fun l => hasChar ":"%char l = false) lowers ->
   forallb notBranches earlier = true ->
   forallb notBranches later = true ->
   apply host [m] desc r = Push host upper desc r) /\
  apply host [] desc r = applyTempMount host [] desc r /\
  apply host (m :: m' :: mounts) desc r = applyTempMount host (m :: m' :: mounts) desc r.
Proof.
  intros Hne. split; [ | split; [ | split; reflexivity ] ].
  - intros Hty Hopts Hlater. unfold apply. rewrite Hty. simpl String.eqb. cbv iota.
    destruct (RunningInUserNS host); [ reflexivity | ].
    destruct (getOverlayPath_last_upper earlier later upper Hne Hlater) as (lower & Hparse).
    rewrite Hopts, Hparse. reflexivity.
  - intros Hty Hopts Hu Hl Hb Ha. unfold apply. rewrite Hty. simpl String.eqb. cbv iota.
    rewrite Hopts, (getAufsPath_branch_option earlier later upper lowers Hne Hu Hl Hb Ha).
    reflexivity.
Qed.

End ApplierRuns.

(** ** The environment of the container *)

Import commands.

Lemma key_of_Cut (e k after : string) (found : bool) :
  Cut e "="%char = (k, after, found) -> key e = k /\ sets e = found.
Proof. unfold key, sets. intros ->. auto. Qed.

Lemma lookup_cacheDefaults (defaults : list string) :
  forall i0 cache k,
    lookup (cacheDefaults defaults i0 cache) k
    = match lastIndex k defaults with
      | Some j => Some (i0 + j)%nat
      | None => lookup cache k
      end.
Proof.
  induction defaults as [ | e rest IH]; intros i0 cache k; [ reflexivity | ].
  simpl cacheDefaults. simpl lastIndex.
  destruct (Cut e "="%char) as [[k' after] found] eqn:Hcut.
  destruct (key_of_Cut e k' after found Hcut) as [Hkey _].
  rewrite IH, Hkey.
  destruct (lastIndex k rest) as [j | ].
  - rewrite Nat.add_succ_r. reflexivity.
  - simpl lookup. destruct (String.eqb k' k); [ rewrite Nat.add_0_r | ]; reflexivity.
Qed.

Lemma lastIndex_hasKey (k : string) (entries : list string) :
  hasKey k entries = match lastIndex k entries with Some _ => true | None => false end.
Proof.
  induction entries as [ | e rest IH]; [ reflexivity | ].
  simpl. rewrite IH. destruct (lastIndex k rest); [ apply orb_true_r | ].
  rewrite orb_false_r. destruct (String.eqb (key e) k); reflexivity.
Qed.

Lemma overridden_snoc (prefix : list string) (v k e : string) :
  overridden (prefix ++ [v]) k e
  = if String.eqb (key v) k then (if sets v then v else "") else overridden prefix k e.
Proof. unfold overridden. rewrite fold_left_app. reflexivity. Qed.

Lemma resolved_snoc_other (prefix : list string) (v : string) (defaults : list string) :
  hasKey (key v) defaults = false ->
  resolved (prefix ++ [v]) defaults = resolved prefix defaults.
Proof.
  induction defaults as [ | e rest IH]; [ reflexivity | ].
  simpl hasKey. intros H. apply orb_false_iff in H. destruct H as [He Hrest].
  simpl resolved. rewrite (IH Hrest), overridden_snoc.
  rewrite String.eqb_sym in He. rewrite He. reflexivity.
Qed.

Lemma setIndex_resolved (prefix : list string) (v : string) (app : list string)
  (defaults : list string) :
  forall j,
    lastIndex (key v) defaults = Some j ->
    setIndex (resolved prefix defaults ++ app) j (if sets v then v else "")
    = Some (resolved (prefix ++ [v]) defaults ++ app).
Proof.
  induction defaults as [ | e rest IH]; intros j Hj; [ discriminate | ].
  simpl lastIndex in Hj. simpl resolved.
  destruct (lastIndex (key v) rest) as [j' | ] eqn:Hlast.
  - inversion Hj; subst j. simpl. rewrite (IH j' eq_refl).
    destruct (hasKey (key e) rest) eqn:He; [ reflexivity | ].
    rewrite overridden_snoc.
    destruct (String.eqb (key v) (key e)) eqn:Heq; [ | reflexivity ].
    apply String.eqb_eq in Heq. rewrite <- Heq, lastIndex_hasKey, Hlast in He.
    discriminate.
  - destruct (String.eqb (key e) (key v)) eqn:Heq; [ | discriminate ].
    inversion Hj; subst j.
    assert (Hnone : hasKey (key v) rest = false)
      by (rewrite lastIndex_hasKey, Hlast; reflexivity).
    apply String.eqb_eq in Heq. rewrite Heq, Hnone.
    rewrite overridden_snoc, String.eqb_refl, (resolved_snoc_other prefix v rest Hnone).
    reflexivity.
Qed.

Lemma appended_snoc (defaults prefix : list string) (v : string) :
  appended defaults (prefix ++ [v])
  = appended defaults prefix
      ++ (if sets v && negb (hasKey (key v) defaults) then [v] else []).
Proof. unfold appended. rewrite filter_app. reflexivity. Qed.

Lemma applyOverrides_resolved (defaults overrides : list string) :
  forall prefix,
    applyOverrides (cacheDefaults defaults 0 []) overrides
                   (resolved prefix defaults ++ appended defaults prefix)
    = Some (resolved (prefix ++ overrides) defaults
              ++ appended defaults (prefix ++ overrides)).
Proof.
  induction overrides as [ | v rest IH]; intros prefix.
  - simpl. rewrite app_nil_r. reflexivity.
  - simpl applyOverrides.
    destruct (Cut v "="%char) as [[k after] found] eqn:Hcut.
    destruct (key_of_Cut v k after found Hcut) as [Hkey Hsets].
    rewrite lookup_cacheDefaults. simpl lookup. rewrite <- Hkey.
    replace (prefix ++ v :: rest) with ((prefix ++ [v]) ++ rest)
      by (rewrite <- app_assoc; reflexivity).
    pose proof (lastIndex_hasKey (key v) defaults) as Hhas.
    pose proof (appended_snoc defaults prefix v) as Happ.
    destruct (lastIndex (key v) defaults) as [j | ] eqn:Hlast.
    + pose proof (setIndex_resolved prefix v (appended defaults prefix) defaults j Hlast)
        as Hset.
      rewrite Hhas, andb_false_r, app_nil_r in Happ.
      rewrite Hsets in Hset. simpl Nat.add.
      destruct found; simpl negb; cbv iota; rewrite Hset, <- Happ; apply IH.
    + rewrite Hhas in Happ. simpl negb in Happ. rewrite andb_true_r, Hsets in Happ.
      rewrite <- (resolved_snoc_other prefix v defaults Hhas).
      destruct found; simpl negb; cbv iota.
      * rewrite <- app_assoc, <- Happ. apply IH.
      * rewrite app_nil_r in Happ. rewrite <- Happ. apply IH.
Qed.

Lemma replaceOrAppendEnvValues_resolved (defaults overrides : list string) :
  replaceOrAppendEnvValues defaults overrides
  = Some (removeEmpty (resolved overrides defaults ++ appended defaults overrides)).
Proof.
  unfold replaceOrAppendEnvValues.
  pose proof (applyOverrides_resolved defaults overrides []) as H.
  unfold appended at 1 in H. simpl filter in H.
  assert (Hnil : resolved [] defaults = defaults).
  { clear H. induction defaults as [ | e rest IH]; [ reflexivity | ].
    simpl. rewrite IH. destruct (hasKey (key e) rest); reflexivity. }
  rewrite Hnil, app_nil_r in H. simpl app in H. rewrite H. reflexivity.
Qed.

Lemma hasKey_In (k : string) (entries : list string) :
  hasKey k entries = true <-> In k (map key entries).
Proof.
  induction entries as [ | e rest IH]; simpl; [ split; [ discriminate | contradiction ] | ].
  rewrite orb_true_iff, IH, String.eqb_eq. reflexivity.
Qed.

(** X16.  What [replaceOrAppendEnvValues] computes.  It never fails on an index.
    The result is the defaults in their order, each last entry of a key
    replaced by the last override of that key (and left out when that
    override has no "=", or when the entry is empty), followed by the
    overrides that set a value for a key no default has, in their order and
    as often as they are given.  A default whose key comes again later in
    the defaults is never replaced; when the keys of the defaults are
    distinct every default is subject to its overrides. *)
Theorem replaceOrAppendEnvValues_is_last_override_wins
  (defaults overrides : list string) :
  replaceOrAppendEnvValues defaults overrides
  = Some (removeEmpty (resolved overrides defaults ++ appended defaults overrides)) /\
  (NoDup (map key defaults) ->
   resolved overrides defaults = map (fun e => overridden overrides (key e) e) defaults).
Proof.
  split; [ apply replaceOrAppendEnvValues_resolved | ].
  induction defaults as [ | e rest IH]; [ reflexivity | ].
  simpl map. intros Hnd. inversion Hnd as [ | k ks Hnotin Hrest]; subst.
  simpl resolved. rewrite (IH Hrest).
  destruct (hasKey (key e) rest) eqn:He; [ | reflexivity ].
  apply hasKey_In in He. contradiction.
Qed.

Lemma removeEmpty_In (e : string) (results : list string) :
  In e (removeEmpty results) <-> In e results /\ e <> "".
Proof.
  induction results as [ | x rest IH]; simpl; [ tauto | ].
  destruct (String.eqb x "") eqn:Hx.
  - apply String.eqb_eq in Hx. subst x. rewrite IH. split; [ tauto | ].
    intros [[Heq | Hin] Hne]; [ congruence | tauto ].
  - apply String.eqb_neq in Hx. simpl. rewrite IH. split.
    + intros [Heq | [Hin Hne]]; [ subst; tauto | tauto ].
    + intros [[Heq | Hin] Hne]; tauto.
Qed.

Lemma overridden_cases (overrides : list string) (k e : string) :
  overridden overrides k e = e \/
  overridden overrides k e = "" \/
  (In (overridden overrides k e) overrides /\ sets (overridden overrides k e) = true).
Proof.
  induction overrides as [ | v rest IH] using rev_ind; [ left; reflexivity | ].
  rewrite overridden_snoc.
  destruct (String.eqb (key v) k).
  - destruct (sets v) eqn:Hs; [ | auto ].
    right. right. split; [ apply in_or_app; right; left; reflexivity | exact Hs ].
  - destruct IH as [H | [H | [Hin Hs]]]; [ auto | auto | ].
    right. right. split; [ apply in_or_app; left; exact Hin | exact Hs ].
Qed.

Lemma resolved_In (overrides defaults : list string) (e : string) :
  In e (resolved overrides defaults) ->
  In e defaults \/ e = "" \/ (In e overrides /\ sets e = true).
Proof.
  induction defaults as [ | d rest IH]; simpl; [ contradiction | ].
  intros [Heq | Hin].
  - destruct (hasKey (key d) rest); [ auto | ].
    destruct (overridden_cases overrides (key d) d) as [H | [H | H]];
      rewrite <- Heq; [ rewrite H; auto | auto | auto ].
  - destruct (IH Hin) as [H | H]; auto.
Qed.

(** X17.  The environment [replaceOrAppendEnvValues] returns holds no empty
    entry, and nothing that was not given: every entry is one of the
    defaults or one of the overrides that have an "="; and every override
    with an "=" whose key no default has is in it. *)
Theorem replaceOrAppendEnvValues_keeps_what_was_given
  (defaults overrides : list string) :
  exists results,
    replaceOrAppendEnvValues defaults overrides = Some results /\
    ~ In "" results /\
    (forall e, In e results -> In e defaults \/ (In e overrides /\ sets e = true)) /\
    (forall v, In v overrides -> sets v = true -> hasKey (key v) defaults = false ->
               In v results).
Proof.
  eexists. split; [ apply replaceOrAppendEnvValues_resolved | ].
  split; [ | split ].
  - intros H. apply removeEmpty_In in H. destruct H as [_ H]. apply H. reflexivity.
  - intros e H. apply removeEmpty_In in H. destruct H as [Hin Hne].
    apply in_app_or in Hin. destruct Hin as [Hin | Hin].
    + destruct (resolved_In overrides defaults e Hin) as [H | [H | H]];
        [ auto | contradiction | auto ].
    + unfold appended in Hin. apply filter_In in Hin. destruct Hin as [Hin Hs].
      apply andb_true_iff in Hs. destruct Hs as [Hs _]. auto.
  - intros v Hin Hs Hk. apply removeEmpty_In. split.
    + apply in_or_app. right. unfold appended. apply filter_In.
      split; [ exact Hin | ]. rewrite Hs, Hk. reflexivity.
    + intros Hv. subst v. discriminate.
Qed.


(** * Further runs on concrete inputs *)

Lemma lenient_never_collides : neverCollides Stores.lenient.
Proof.
  intros key parent opts w e w' H. simpl in H.
  destruct (String.eqb parent "" || Mem.committed (Mem.snaps w) parent);
    inversion H; reflexivity.
Qed.

Lemma jammed_always_collides : alwaysCollides Stores.jammed.
Proof. intros key parent opts w. do 2 eexists. split; reflexivity. Qed.

(** X1 on a store that replaces a view whose key is taken: two layers are
    built within three units of fuel, one layer within two. *)
Lemma build_ends_when_no_prepare_collides_witness :
  let w0 := Mem.mkWorld [] 0 [("d0", "a"); ("d1", "b")] "" "" [] [] in
  let A := Apply (Mem.host false) in
  neverCollides Stores.lenient /\
  fst (ApplyArtifactsWithOpts Mem.ChainID Stores.lenient A Mem.entropy 3
         [Mem.layer "d0"; Mem.layer "d1"] [] (Mem.start w0)) <> OutOfFuel /\
  fst (ApplyArtifactWithOpts Mem.ChainID Stores.lenient A Mem.entropy 2
         (Mem.layer "d0") [] [] [] (Mem.start w0)) <> OutOfFuel.
Proof.
  cbv zeta. split; [ exact lenient_never_collides | ].
  split.
  - refine (proj2 (proj1 (build_ends_when_no_prepare_collides Mem.ChainID Stores.lenient
                            (Apply (Mem.host false)) Mem.entropy 3
                            [Mem.layer "d0"; Mem.layer "d1"] (Mem.layer "d0") ["d0"; "d1"]
                            [] [] _ lenient_never_collides) _)).
    repeat constructor.
  - refine (proj2 (build_ends_when_no_prepare_collides Mem.ChainID Stores.lenient
                     (Apply (Mem.host false)) Mem.entropy 2
                     [] (Mem.layer "d0") [] [] [] _ lenient_never_collides) _).
    repeat constructor.
Defined.

(** X2 on a store that finds every key taken: with five units of fuel the
    single-layer apply is cut off after the stat and four refused
    prepares. *)
Lemma build_spins_when_every_prepare_collides_witness :
  let run := ApplyArtifactWithOpts Mem.ChainID Stores.jammed (Apply (Mem.host false))
               Mem.entropy 5 (Mem.layer "d0") [] [] [] (Mem.start Mem.empty) in
  alwaysCollides Stores.jammed /\
  exists pre,
    fst run = OutOfFuel /\
    log (snd run) = EvStat "d0" (Some (Sentinel ErrNotFound)) :: pre /\
    List.length pre = 4%nat.
Proof.
  cbv zeta. split; [ exact jammed_always_collides | ].
  destruct (proj2 (build_spins_when_every_prepare_collides Mem.ChainID Stores.jammed
                     (Apply (Mem.host false)) Mem.entropy (Mem.layer "d0") []
                     (Mem.layer "d0") [] [] [] (Mem.start Mem.empty)
                     (Sentinel ErrNotFound) Mem.empty
                     jammed_always_collides eq_refl) eq_refl 5%nat)
    as (pre & Hout & Hlog & Hlen & _).
  exists pre. split; [ exact Hout | ]. split; [ exact Hlog | exact Hlen ].
Defined.

(** X3 on no artifacts at all: the stat of the empty chain ID answers
    Not-Found and the slice of the empty chain panics. *)
Lemma builder_panics_only_on_no_artifacts_witness :
  ApplyArtifactsWithOpts Mem.ChainID Mem.store (Apply (Mem.host false)) Mem.entropy 1
                         [] [] (Mem.start Mem.empty)
  = (Panic "slice bounds out of range [:-1]",
     mkState Mem.empty [EvStat "" (Some (Sentinel ErrNotFound))]).
Proof.
  exact (proj2 (proj2 (builder_panics_only_on_no_artifacts Mem.ChainID Mem.store
                         (Apply (Mem.host false)) Mem.entropy 0 [] (Mem.layer "d0") []
                         [] [] (Mem.start Mem.empty) ""))
               (Sentinel ErrNotFound) Mem.empty eq_refl eq_refl).
Defined.

(** X7 on a Diff Applier whose push answers Already-Exists: nothing is
    committed, the view is removed, and the call reports no error. *)
Lemma already_exists_from_the_applier_is_swallowed_witness :
  let e := Wrapf "push %s: %w" ["d0"] (Sentinel ErrAlreadyExists) in
  let run := ApplyArtifactWithOpts Mem.ChainID Mem.store (Mem.failing e) Mem.entropy 3
               (Mem.layer "d0") [] [] [] (Mem.start Mem.empty) in
  fst run = Done (false, None) /\
  Mem.snaps (world (snd run)) = [] /\
  filter isCommit (log (snd run)) = [].
Proof.
  cbv zeta.
  pose (e := Wrapf "push %s: %w" ["d0"] (Sentinel ErrAlreadyExists)).
  pose (loop := prepareLoop Mem.store Mem.entropy
                  (fun arts ch => applyArtifacts Mem.ChainID Mem.store (Mem.failing e)
                                    Mem.entropy 2 arts ch [] [])
                  2 [Mem.layer "d0"] ([] ++ ["d0"]) (Mem.ChainID [])
                  (Mem.ChainID ([] ++ ["d0"])) []
                  (mkState Mem.empty [EvStat "d0" (Some (Sentinel ErrNotFound))])).
  assert (Hloop : loop = (Done (Break "extract-0-AAAA d0" (Mem.viewMounts "extract-0-AAAA d0")),
                          snd loop)) by reflexivity.
  pose proof (proj2 (already_exists_from_the_applier_is_swallowed Mem.ChainID Mem.store
                       (Mem.failing e) Mem.entropy 2 (Mem.layer "d0") [] (Mem.layer "d0")
                       [] [] [] (Mem.start Mem.empty) (snd loop)
                       (Sentinel ErrNotFound) e Mem.empty (world (snd loop))
                       "extract-0-AAAA d0" (Mem.viewMounts "extract-0-AAAA d0")
                       eq_refl eq_refl) eq_refl Hloop eq_refl) as Hrun.
  split; [ exact (f_equal fst Hrun) | ].
  split; [ exact (f_equal (fun x => Mem.snaps (world (snd x))) Hrun) | ].
  exact (f_equal (fun x => filter isCommit (log (snd x))) Hrun).
Defined.

(** X10 on an image of two layers, unpacked into an empty store: the label
    of the config blob names the chain ID of the two layers. *)
Lemma Unpack_success_records_the_chain_of_the_manifest_witness :
  let w0 := Mem.mkWorld [] 0 [("d0", "a"); ("d1", "b")] "" "" [] [] in
  let layers := [Blob (Mem.layer "d0"); Blob (Mem.layer "d1")] in
  let run := Unpack Mem.ChainID (Mem.client layers) (Mem.host false) Mem.entropy 3 "" []
               (Mem.start w0) in
  fst run = Done None /\
  Mem.labels (world (snd run))
  = [("d0", ("containerd.io/uncompressed", "d0"));
     ("d1", ("containerd.io/uncompressed", "d1"));
     ("cfg", ("containerd.io/gc.ref.snapshot.overlayfs", "id:d0 d1"))] /\
  exists manifest desc name' pre,
    log (snd run)
    = EvLease None :: pre ++
        [EvUpdate (content.mkInfo (Digest desc)
                     [(("containerd.io/gc.ref.snapshot." ++ name')%string,
                       Mem.ChainID (map Digest (Layers manifest)))])
                  ("labels." ++ "containerd.io/gc.ref.snapshot." ++ name')%string None;
         EvLeaseDone] /\
    name' <> "".
Proof.
  cbv zeta. split; [ vm_compute; reflexivity | ]. split; [ vm_compute; reflexivity | ].
  assert (Hrun : Unpack Mem.ChainID
                   (Mem.client [Blob (Mem.layer "d0"); Blob (Mem.layer "d1")])
                   (Mem.host false) Mem.entropy 3 "" []
                   (Mem.start (Mem.mkWorld [] 0 [("d0", "a"); ("d1", "b")] "" "" [] []))
                 = (Done None,
                    snd (Unpack Mem.ChainID
                           (Mem.client [Blob (Mem.layer "d0"); Blob (Mem.layer "d1")])
                           (Mem.host false) Mem.entropy 3 "" []
                           (Mem.start (Mem.mkWorld [] 0 [("d0", "a"); ("d1", "b")]
                                                   "" "" [] [])))))
    by (vm_compute; reflexivity).
  destruct (Unpack_success_records_the_chain_of_the_manifest Mem.ChainID
              (Mem.client [Blob (Mem.layer "d0"); Blob (Mem.layer "d1")]) (Mem.host false)
              Mem.entropy 3 "" []
              (Mem.start (Mem.mkWorld [] 0 [("d0", "a"); ("d1", "b")] "" "" [] []))
              _ Hrun)
    as (manifest & desc & name' & pre & Hlog & _ & _ & Hne & _).
  exists manifest, desc, name', pre. split; [ exact Hlog | exact Hne ].
Defined.

(** X13 on the options of an aufs mount with two lower branches, and on
    branch options with a second upper branch, with a lower branch first,
    and with an upper branch without a directory first. *)
Lemma getAufsPath_reads_the_documented_format_witness :
  aufsBranchOption "/u" ["/l2"; "/l1"] = "br:/u=rw:/l2=ro+wh:/l1=ro+wh" /\
  getAufsPath ["dirperm1"; "br:/u=rw:/l2=ro+wh:/l1=ro+wh"] = Ok ("/u", ["/l2"; "/l1"]) /\
  getAufsPath ["dirperm1"; "br:/u=rw:/l2=ro+wh:/l1=ro+wh:/v=rw:/l=ro+wh"]
  = Err (Wrapf "multiple rw branch found: %w" [] (Sentinel ErrInvalidArgument)) /\
  getAufsPath ["dirperm1"; "br:/l2=ro+wh"]
  = Err (Wrapf "rw branch be first: %w" [] (Sentinel ErrInvalidArgument)) /\
  getAufsPath ["dirperm1"; "br:/l2=ro+wh:/u=rw:/l1=ro+wh"]
  = Err (Wrapf "rw branch be first: %w" [] (Sentinel ErrInvalidArgument)) /\
  getAufsPath ["dirperm1"; "br:=rw:/v=rw:/l=ro+wh"] = Ok ("/v", ["/l"]) /\
  getAufsPath ["dirperm1"]
  = Err (Wrapf "rw branch not found: %w" [] (Sentinel ErrInvalidArgument)).
Proof.
  split; [ reflexivity | ].
  assert (Hfree : Forall (fun l => hasChar ":"%char l = false) ["/l2"; "/l1"])
    by (repeat constructor).
  assert (Hfree' : Forall (fun l => hasChar ":"%char l = false) ["/l"])
    by (repeat constructor).
  destruct (getAufsPath_reads_the_documented_format ["dirperm1"] [] "/u" "/v" "/l2"
              "/u=rw:/l1=ro+wh" ["/l2"; "/l1"] ["/l"]
              eq_refl eq_refl eq_refl Hfree Hfree' eq_refl eq_refl)
    as (Hread & Htwo & Hlower & Hlower' & Hempty & Hnone).
  split; [ apply Hread; discriminate | ].
  split; [ apply Htwo; discriminate | ].
  split; [ exact Hlower | ].
  split; [ exact Hlower' | ].
  split; [ apply Hempty; discriminate | exact Hnone ].
Defined.

(** X14 on the options of an overlay mount. *)
Lemma getOverlayPath_reads_the_overlay_options_witness :
  getOverlayPath ["index=off"; "workdir=/w"; "upperdir=/u"; "lowerdir=/l2:/l1"]
  = Ok ("/u", ["/l2"; "/l1"]) /\
  exists lower,
    getOverlayPath ["upperdir=/old"; "lowerdir=/l"; "upperdir=/u"; "userxattr"]
    = Ok ("/u", lower).
Proof.
  pose proof (getOverlayPath_reads_the_overlay_options
                ["upperdir=/old"; "lowerdir=/l"] ["userxattr"]
                ["index=off"; "workdir=/w"] [] [] "/u" ["/l2"; "/l1"]) as H.
  destruct H as [Hlast Hboth]; [ discriminate | ].
  split.
  - refine (proj1 (Hboth _ _ eq_refl eq_refl eq_refl)).
    + discriminate.
    + repeat constructor.
  - exact (Hlast eq_refl).
Defined.

(** X15 on an overlay mount outside a user namespace: the layer is pushed
    into the upper directory of the mount. *)
Lemma apply_writes_into_the_upper_directory_witness :
  let m := mkMount "overlay" "overlay" ["workdir=/w"; "upperdir=/u"; "lowerdir=/l"] in
  let w0 := Mem.mkWorld [] 0 [] "bytes" "" [] [] in
  apply (Mem.host false) [m] (Blob (Mem.layer "d0")) tt
  = Push (Mem.host false) "/u" (Blob (Mem.layer "d0")) tt /\
  Mem.pushed (snd (apply (Mem.host false) [m] (Blob (Mem.layer "d0")) tt w0))
  = [("/u", "d0")].
Proof.
  cbv zeta. split; [ | reflexivity ].
  refine (proj1 (apply_writes_into_the_upper_directory (Mem.host false)
                   (mkMount "overlay" "overlay" ["workdir=/w"; "upperdir=/u"; "lowerdir=/l"])
                   (mkMount "" "" []) [] (Blob (Mem.layer "d0")) tt
                   ["workdir=/w"] ["lowerdir=/l"] "/u" [] _) eq_refl eq_refl eq_refl).
  discriminate.
Defined.

(** X12 on a store that has every snapshot: two layers, two stats, no
    other call, whatever the fuel. *)
Lemma Unpack_stats_each_layer_once_in_order_witness :
  let run := unpackLayers Mem.ChainID (Mem.client []) Mem.entropy 0 Stores.full
               (Apply (Mem.host false)) (mkUnpackConfig [] [] false)
               [Mem.layer "d0"; Mem.layer "d1"] [] (Mem.start Mem.empty) in
  fst run = Done (Ok ["d0"; "d1"]) /\
  log (snd run) = [EvStat "d0" None; EvStat "id:d0 d1" None].
Proof.
  exact (proj2 (Unpack_stats_each_layer_once_in_order Mem.ChainID (Mem.client [])
                  Mem.entropy 0 Stores.full (Apply (Mem.host false))
                  (mkUnpackConfig [] [] false) [Mem.layer "d0"; Mem.layer "d1"] []
                  (Mem.start Mem.empty))
               (fun key w => eq_refl)).
Defined.

(** X16 on an environment with a key given twice: "A" unsets the last
    entry of key A only, "B=9" replaces in place, and "C" is set twice. *)
Lemma replaceOrAppendEnvValues_is_last_override_wins_witness :
  replaceOrAppendEnvValues ["A=1"; "A=2"; "B=3"] ["A"; "C=4"; "C=5"; "B=9"; "D"]
  = Some ["A=1"; "B=9"; "C=4"; "C=5"] /\
  resolved ["B=9"; "A"] ["A=1"; "B=3"] = [""; "B=9"].
Proof.
  split.
  - exact (proj1 (replaceOrAppendEnvValues_is_last_override_wins
                    ["A=1"; "A=2"; "B=3"] ["A"; "C=4"; "C=5"; "B=9"; "D"])).
  - refine (proj2 (replaceOrAppendEnvValues_is_last_override_wins
                     ["A=1"; "B=3"] ["B=9"; "A"]) _).
    repeat constructor; simpl; intuition discriminate.
Defined.

(** X8 on a build whose commit loses the race to another builder: the
    chain ID is returned, and the commit of the run answered
    Already-Exists. *)
Lemma ApplyArtifactsWithOpts_succeeds_for_a_reason_witness :
  let w0 := Mem.mkWorld [] 0 [("d0", "a")] "" "" [] [] in
  let run := ApplyArtifactsWithOpts Mem.ChainID Mem.store (Mem.racing "d0") Mem.entropy 3
               [Mem.layer "d0"] [] (Mem.start w0) in
  fst run = Done (Ok "d0") /\
  filter isCommit (log (snd run))
  = [EvCommit "d0" "extract-0-AAAA d0" (Some (Sentinel ErrAlreadyExists))] /\
  exists evs,
    log (snd run) = evs /\
    (evs = [EvStat "d0" None] \/
     (exists pre key mounts diff,
        evs = pre ++ [EvApply (Blob (Mem.layer "d0")) mounts (Ok diff);
                      EvCommit "d0" key None] /\
        Digest diff = "d0") \/
     (exists e,
        IsAlreadyExists e = true /\
        ((exists desc mounts, In (EvApply desc mounts (Err e)) evs) \/
         (exists name key, In (EvCommit name key (Some e)) evs)))).
Proof.
  cbv zeta. split; [ vm_compute; reflexivity | ]. split; [ vm_compute; reflexivity | ].
  assert (Hrun : ApplyArtifactsWithOpts Mem.ChainID Mem.store (Mem.racing "d0") Mem.entropy 3
                   [Mem.layer "d0"] []
                   (Mem.start (Mem.mkWorld [] 0 [("d0", "a")] "" "" [] []))
                 = (Done (Ok "d0"),
                    snd (ApplyArtifactsWithOpts Mem.ChainID Mem.store (Mem.racing "d0")
                           Mem.entropy 3 [Mem.layer "d0"] []
                           (Mem.start (Mem.mkWorld [] 0 [("d0", "a")] "" "" [] [])))))
    by (vm_compute; reflexivity).
  destruct (ApplyArtifactsWithOpts_succeeds_for_a_reason Mem.ChainID Mem.store
              (Mem.racing "d0") Mem.entropy 3 [Mem.layer "d0"] []
              (Mem.start (Mem.mkWorld [] 0 [("d0", "a")] "" "" [] [])) _ "d0" Hrun)
    as [_ (evs & Hlog & Hreason)].
  exists evs. split; [ exact Hlog | exact Hreason ].
Defined.
